(** * Worklog: classification and thread-merging scripts

    A shallow embedding of the scripts of the worklog repository that
    classify posts and merge split threads:

    - [scripts/categorize.ts], the local pattern classifier
      ([Classifier.categorizePost]), the Twitter import classifier
      ([TwitterImport.categorizePost]), the time grouper
      ([groupByTimeProximity]) and the LLM-judged merge script
      ([Narrative]);
    - [scripts/merge-threads-local.ts] ([LocalMerge]);
    - the pattern-based merge script ([RuleMerge]: [shouldMerge],
      [mergePosts], [main]).

    Conventions of the embedding.

    - A JavaScript string is the list of its UTF-16 code units
      ([jsstring]); [length] is the [.length] of the source.
    - A post's [timestamp] is the instant that
      [new Date(p.timestamp).getTime()] denotes, in milliseconds, as an
      integer.  Every comparison the scripts make on such values (a
      difference against a threshold, the sign of a difference) gives the
      same answer on integers as on the doubles of the source.  A
      [Post] therefore has a date that parses.  A date that does not
      parse gives NaN; the tests and loops of the merge scripts are
      given a second time in [Dated], over times that may be NaN, and
      the properties of the pattern-based merge decision are stated
      there.
    - [Array.prototype.sort] is specified to be stable; [sortBy] is the
      stable insertion sort, which computes the one stable ordering.
    - A thrown [TypeError] is [None] in an [option] result. *)

From Stdlib Require Import List ZArith NArith Bool Lia String Ascii.
From Stdlib Require Import Permutation Sorted.
Import ListNotations.

Local Open Scope Z_scope.

(* ------------------------------------------------------------------ *)
(** ** JavaScript strings *)

Module JS.

(** A UTF-16 code unit. *)
Definition char := N.

Definition jsstring := list char.

(** The code units of an ASCII literal of the source. *)
Definition lit (s : string) : jsstring :=
  map N_of_ascii (list_ascii_of_string s).

(** [WhiteSpace] and [LineTerminator] code points, which
    [String.prototype.trim] strips. *)
Definition isWhiteSpace (c : char) : bool :=
  (((9 <=? c) && (c <=? 13)) || (c =? 32) || (c =? 160) || (c =? 5760)
   || ((8192 <=? c) && (c <=? 8202)) || (c =? 8232) || (c =? 8233)
   || (c =? 8239) || (c =? 8287) || (c =? 12288) || (c =? 65279))%N.

Fixpoint trimStart (s : jsstring) : jsstring :=
  match s with
  | c :: s' => if isWhiteSpace c then trimStart s' else s
  | [] => []
  end.

Definition trimEnd (s : jsstring) : jsstring := rev (trimStart (rev s)).

Definition trim (s : jsstring) : jsstring := trimEnd (trimStart s).

(** [parts.join(sep)] *)
Fixpoint join (sep : jsstring) (parts : list jsstring) : jsstring :=
  match parts with
  | [] => []
  | [p] => p
  | p :: rest => p ++ sep ++ join sep rest
  end.

Fixpoint startsWith (s word : jsstring) : bool :=
  match word, s with
  | [], _ => true
  | w :: word', c :: s' => (c =? w)%N && startsWith s' word'
  | _ :: _, [] => false
  end.

(** [s.includes(word)] *)
Fixpoint includes (s word : jsstring) : bool :=
  startsWith s word ||
  match s with
  | [] => false
  | _ :: s' => includes s' word
  end.

(** [String.prototype.toLowerCase] restricted to ASCII input, on which
    it lowers [A]-[Z] and leaves the rest. *)
Definition asciiLower (s : jsstring) : jsstring :=
  map (fun c => if ((65 <=? c) && (c <=? 90))%N then (c + 32)%N else c) s.

End JS.

Import JS.

(* ------------------------------------------------------------------ *)
(** ** Regular expressions

    The patterns of the scripts use literals, [\d], [\w], [.], groups
    with alternation, [?], [+], [*], a leading [^] and the [i] flag;
    [RegExp.prototype.test] on such a pattern answers whether some
    substring (a prefix, under [^]) belongs to the language of the
    pattern.  That is decided here with Brzozowski derivatives. *)

Module Regex.

Inductive regex : Type :=
| Void : regex
| Eps : regex
| Class : (char -> bool) -> regex
| Seq : regex -> regex -> regex
| Alt : regex -> regex -> regex
| Star : regex -> regex.

Fixpoint nullable (r : regex) : bool :=
  match r with
  | Void => false
  | Eps => true
  | Class _ => false
  | Seq r1 r2 => nullable r1 && nullable r2
  | Alt r1 r2 => nullable r1 || nullable r2
  | Star _ => true
  end.

Fixpoint deriv (c : char) (r : regex) : regex :=
  match r with
  | Void => Void
  | Eps => Void
  | Class f => if f c then Eps else Void
  | Seq r1 r2 =>
      if nullable r1
      then Alt (Seq (deriv c r1) r2) (deriv c r2)
      else Seq (deriv c r1) r2
  | Alt r1 r2 => Alt (deriv c r1) (deriv c r2)
  | Star r1 => Seq (deriv c r1) (Star r1)
  end.

(** Some prefix of [s] is in the language of [r]. *)
Fixpoint matchPrefix (s : jsstring) (r : regex) : bool :=
  nullable r ||
  match s with
  | [] => false
  | c :: s' => matchPrefix s' (deriv c r)
  end.

(** Some substring of [s] is in the language of [r]. *)
Fixpoint search (r : regex) (s : jsstring) : bool :=
  matchPrefix s r ||
  match s with
  | [] => false
  | _ :: s' => search r s'
  end.

(** A pattern: [anchored] is the leading [^]. *)
Record pattern : Type := { anchored : bool; body : regex }.

(** [p.test(s)] *)
Definition test (p : pattern) (s : jsstring) : bool :=
  if anchored p then matchPrefix s (body p) else search (body p) s.

(** The language of a regex, for reference. *)
Inductive matches : regex -> jsstring -> Prop :=
| m_eps : matches Eps []
| m_class f c : f c = true -> matches (Class f) [c]
| m_seq r1 r2 s1 s2 :
    matches r1 s1 -> matches r2 s2 -> matches (Seq r1 r2) (s1 ++ s2)
| m_alt_l r1 r2 s : matches r1 s -> matches (Alt r1 r2) s
| m_alt_r r1 r2 s : matches r2 s -> matches (Alt r1 r2) s
| m_star_nil r : matches (Star r) []
| m_star_cons r s1 s2 :
    matches r s1 -> matches (Star r) s2 -> matches (Star r) (s1 ++ s2).

(** *** Pattern syntax *)

(** [Canonicalize] of the [i] flag without the [u] flag maps a code unit
    to its upper case, and never maps a code unit above 127 to one
    below 128.  Every literal character of the patterns here is ASCII or
    a surrogate half; against such a character the comparison below is
    the source's. *)
Definition canonicalize (c : char) : char :=
  if ((97 <=? c) && (c <=? 122))%N then (c - 32)%N else c.

(** A literal character under the [i] flag. *)
Definition chI (p : char) : regex :=
  Class (fun c => (canonicalize c =? canonicalize p)%N).

(** A literal character without the [i] flag. *)
Definition chS (p : char) : regex := Class (fun c => (c =? p)%N).

Fixpoint seqOf (rs : list regex) : regex :=
  match rs with
  | [] => Eps
  | [r] => r
  | r :: rs' => Seq r (seqOf rs')
  end.

Fixpoint altOf (rs : list regex) : regex :=
  match rs with
  | [] => Void
  | [r] => r
  | r :: rs' => Alt r (altOf rs')
  end.

(** A literal run under the [i] flag. *)
Definition ci (s : string) : regex := seqOf (map chI (lit s)).

(** A literal run without the [i] flag. *)
Definition cs (s : string) : regex := seqOf (map chS (lit s)).

(** [\d] *)
Definition digit : regex := Class (fun c => ((48 <=? c) && (c <=? 57))%N).

(** [\w] *)
Definition wordChar : regex :=
  Class (fun c => (((48 <=? c) && (c <=? 57)) || ((65 <=? c) && (c <=? 90))
                   || ((97 <=? c) && (c <=? 122)) || (c =? 95))%N).

(** [.]: any code unit but a line terminator. *)
Definition dot : regex :=
  Class (fun c => negb ((c =? 10) || (c =? 13) || (c =? 8232) || (c =? 8233))%N).

Definition plus (r : regex) : regex := Seq r (Star r).
Definition opt (r : regex) : regex := Alt r Eps.

(** [/^.../] and [/.../] *)
Definition anchor (rs : list regex) : pattern :=
  {| anchored := true; body := seqOf rs |}.
Definition anywhere (rs : list regex) : pattern :=
  {| anchored := false; body := seqOf rs |}.

End Regex.

Import Regex.

(* ------------------------------------------------------------------ *)
(** ** Posts *)

Inductive Category : Type := update | thought.

Definition Category_eqb (a b : Category) : bool :=
  match a, b with
  | update, update | thought, thought => true
  | _, _ => false
  end.

(** [interface Post]; [category] and [curated] are optional. *)
Record Post : Type := mkPost {
  id : string;
  content : jsstring;
  timestamp : Z;
  category : option Category;
  curated : option bool
}.

(** [new Date(p.timestamp).getTime()], for a date that parses (see
    [Dated] for one that does not) *)
Definition getTime (p : Post) : Z := timestamp p.

(** [s.length] *)
Definition len (s : jsstring) : Z := Z.of_nat (List.length s).

(** [p.category === 'thought'] *)
Definition isThought (p : Post) : bool :=
  match category p with
  | Some thought => true
  | _ => false
  end.

(** Truthiness of [p.curated]. *)
Definition isCurated (p : Post) : bool :=
  match curated p with
  | Some true => true
  | _ => false
  end.

(** [post1.category !== post2.category] *)
Definition categoryDiffers (p q : Post) : bool :=
  match category p, category q with
  | None, None => false
  | Some a, Some b => negb (Category_eqb a b)
  | _, _ => true
  end.

(* ------------------------------------------------------------------ *)
(** ** Sorting *)

Section Sorting.

Context {A : Type} (cmp : A -> A -> Z).

(** [x] stood before every element of [l]: it stays before the first
    [y] that the comparator does not put ahead of it. *)
Fixpoint insertBy (x : A) (l : list A) : list A :=
  match l with
  | [] => [x]
  | y :: l' => if cmp x y <=? 0 then x :: l else y :: insertBy x l'
  end.

(** [[...l].sort(cmp)] *)
Definition sortBy (l : list A) : list A := fold_right insertBy [] l.

(** The comparator orders [a] no later than [b]. *)
Definition noLater (a b : A) : Prop := cmp a b <= 0.

End Sorting.

(** [(a, b) => new Date(a.timestamp).getTime() - new Date(b.timestamp).getTime()] *)
Definition byTimeAsc (a b : Post) : Z := getTime a - getTime b.

(** [(a, b) => new Date(b.timestamp).getTime() - new Date(a.timestamp).getTime()] *)
Definition byTimeDesc (a b : Post) : Z := getTime b - getTime a.

(** In time order, oldest first and newest first. *)
Definition ascending (l : list Post) : Prop :=
  StronglySorted (fun a b => getTime a <= getTime b) l.
Definition descending (l : list Post) : Prop :=
  StronglySorted (fun a b => getTime b <= getTime a) l.

(* ------------------------------------------------------------------ *)
(** ** The left-to-right sweep

    The three scripts run the same loop over the time-sorted posts: the
    first post opens the current thread; each later post either joins
    the current thread, judged against its last member, or closes it
    and opens a new one; the thread left at the end is closed too. *)

Section Sweep.

Context {B : Type}.
Variable joins : Post -> Post -> bool.
Variable close : list Post -> B.

Definition sweepStep (st : list B * list Post) (post : Post)
  : list B * list Post :=
  let '(out, current) := st in
  match current with
  | [] => (out, [post])
  | _ :: _ =>
      if joins (last current post) post
      then (out, current ++ [post])
      else (out ++ [close current], [post])
  end.

Definition sweep (sorted : list Post) : list B :=
  let '(out, current) := fold_left sweepStep sorted ([], []) in
  match current with
  | [] => out
  | _ :: _ => out ++ [close current]
  end.

End Sweep.

(** The sweep as a recursion on the sorted list: the clusters of
    [x :: l]. *)
Fixpoint clusters (joins : Post -> Post -> bool) (x : Post) (l : list Post)
  : list (list Post) :=
  match l with
  | [] => [[x]]
  | y :: l' =>
      if joins x y
      then match clusters joins y l' with
           | g :: gs => (x :: g) :: gs
           | [] => [[x]]
           end
      else [x] :: clusters joins y l'
  end.

Definition clustersOf (joins : Post -> Post -> bool) (l : list Post)
  : list (list Post) :=
  match l with
  | [] => []
  | x :: l' => clusters joins x l'
  end.

(** No post of [l] joins the post before it. *)
Fixpoint noLink (joins : Post -> Post -> bool) (l : list Post) : bool :=
  match l with
  | a :: (b :: _) as rest => negb (joins a b) && noLink joins rest
  | _ => true
  end.

(** The cluster in which the [i]-th entry of the concatenation lands. *)
Fixpoint clusterIndex {A : Type} (gs : list (list A)) (i : nat) : nat :=
  match gs with
  | [] => O
  | g :: gs' =>
      if (i <? List.length g)%nat then O
      else S (clusterIndex gs' (i - List.length g))
  end.

(** All members of an [option] list, or [None] if one is missing. *)
Fixpoint sequence {A : Type} (l : list (option A)) : option (list A) :=
  match l with
  | [] => Some []
  | None :: _ => None
  | Some a :: l' =>
      match sequence l' with
      | Some r => Some (a :: r)
      | None => None
      end
  end.

(* ------------------------------------------------------------------ *)
(** ** The temporal grouper ([scripts/categorize.ts], both copies) *)

Definition TIME_THRESHOLD_MS : Z := 10 * 60 * 1000.

Definition withinThreshold (lastPost post : Post) : bool :=
  let timeDiff := getTime post - getTime lastPost in
  timeDiff <=? TIME_THRESHOLD_MS.

Definition groupByTimeProximity (posts : list Post) : list (list Post) :=
  let sorted := sortBy byTimeAsc posts in
  sweep withinThreshold (fun currentGroup => currentGroup) sorted.

(* ------------------------------------------------------------------ *)
(** ** Merging a thread *)

Definition blankLine : jsstring := lit (String (ascii_of_nat 10) (String (ascii_of_nat 10) EmptyString)).

(** The body shared, word for word, by [mergeThread]
    (merge-threads-local.ts), [mergePosts] (the pattern-based script) and
    [mergePosts] (the LLM partition script).  [sorted[0]] of an empty
    array is [undefined], and reading its field throws. *)
Definition mergeSorted (sorted : list Post) : option Post :=
  match sorted with
  | [] => None
  | first :: _ =>
      Some {| id := id first;
              content := join blankLine (map content sorted);
              timestamp := timestamp first;
              category := Some (if existsb isThought sorted then thought else update);
              curated := Some (existsb isCurated sorted) |}
  end.

(* ------------------------------------------------------------------ *)
(** ** [scripts/merge-threads-local.ts] *)

Module LocalMerge.

Definition THREAD_THRESHOLD_MS : Z := 5 * 60 * 1000.
Definition MIN_THOUGHT_LENGTH : Z := 100.

(** The condition under which [detectThreads] pushes [post] on the
    current thread. *)
Definition sameThread (lastPost post : Post) : bool :=
  let timeDiff := getTime post - getTime lastPost in
  if timeDiff <=? THREAD_THRESHOLD_MS then
    let lastIsThought :=
      isThought lastPost || (MIN_THOUGHT_LENGTH <? len (content lastPost)) in
    let currentIsThought :=
      isThought post || (MIN_THOUGHT_LENGTH <? len (content post)) in
    (lastIsThought && currentIsThought) || (timeDiff <=? 2 * 60 * 1000)
  else false.

Definition detectThreads (posts : list Post) : list (list Post) :=
  let sorted := sortBy byTimeAsc posts in
  sweep sameThread (fun currentThread => currentThread) sorted.

Definition mergeThread (posts : list Post) : option Post :=
  let sorted := sortBy byTimeAsc posts in
  mergeSorted sorted.

(** [thread.length > 1 ? mergeThread(thread) : thread[0]] *)
Definition mergeOrKeep (thread : list Post) : option Post :=
  if (1 <? List.length thread)%nat then mergeThread thread
  else nth_error thread 0.

(** The new [data.posts] that [main] writes. *)
Definition main (posts : list Post) : option (list Post) :=
  let threads := detectThreads posts in
  match sequence (map mergeOrKeep threads) with
  | Some mergedPosts => Some (sortBy byTimeDesc mergedPosts)
  | None => None
  end.

End LocalMerge.

(* ------------------------------------------------------------------ *)
(** ** Pattern tables *)

Local Open Scope string_scope.
Local Open Scope Z_scope.
Local Open Scope list_scope.

(** [/^text/i] and [/text/i] for a literal [text]. *)
Definition startsI (s : string) : pattern := anchor [ci s].
Definition hasI (s : string) : pattern := anywhere [ci s].

(** [patterns.some(p => p.test(s))], and equally a [for] loop over
    [patterns] that returns at the first [p.test(s)]. *)
Definition anyTest (patterns : list pattern) (s : jsstring) : bool :=
  existsb (fun p => test p s) patterns.

(** *** The local classifier ([scripts/categorize.ts], third script) *)

Module Classifier.

Definition UPDATE_PATTERNS : list pattern :=
  [ anchor [ci "Recorded "; plus digit];
    startsI "Recorded ";
    startsI "Completed ";
    startsI "Created ";
    startsI "Built ";
    anchor [ci "Sent "; plus digit];
    anchor [ci "Responded to "; plus digit];
    startsI "Reviewed ";
    startsI "Hosted ";
    anchor [ci "Crushed ";
            altOf [ci "leg"; ci "back"; ci "chest"; ci "arm"; ci "shoulder"]];
    startsI "Leg day";
    startsI "Back day";
    startsI "Chest day";
    anywhere [ci "day "; chI 55357%N; chI 56490%N];
    startsI "1:1 with";
    startsI "Podcast with";
    startsI "Cancelled";
    startsI "Refunded";
    startsI "Removed ";
    startsI "Messaged ";
    startsI "Invited ";
    startsI "Set up ";
    startsI "Fixed ";
    startsI "Wrote ";
    startsI "Migrated ";
    startsI "Outlined ";
    startsI "Edited";
    startsI "Uploaded";
    startsI "Booked ";
    startsI "Took thumbnails";
    startsI "Prepared for";
    startsI "Roasted ";
    startsI "Tested ";
    startsI "Bought ";
    startsI "Iterated ";
    startsI "Added ";
    startsI "Dealt with";
    startsI "Found ";
    startsI "Coached ";
    startsI "Scoped ";
    startsI "Wrapped up";
    startsI "Planned out";
    startsI "Cut ";
    startsI "Reorganized";
    anchor [ci "Weekly "; altOf [ci "Office Hour"; ci "Community Call"]];
    anywhere [ci "management for ";
              altOf [ci "Jan"; ci "Feb"; ci "Mar"; ci "Apr"; ci "May"; ci "Jun";
                     ci "Jul"; ci "Aug"; ci "Sep"; ci "Oct"; ci "Nov"; ci "Dec"]] ].

Definition THOUGHT_PATTERNS : list pattern :=
  [ anchor [ci "I ";
            altOf [ci "am"; ci "was"; ci "think"; ci "feel"; ci "believe";
                   ci "noticed"; ci "tried"; ci "get"]];
    startsI "Coming to the conclusion";
    startsI "So I'm going to";
    startsI "It'll be ";
    anchor [ci "New "; altOf [ci "project"; ci "idea"]];
    startsI "Possible ";
    startsI "Wow";
    startsI "All this to say";
    startsI "But if you";
    startsI "Second day of";
    startsI "Third day of";
    startsI "First day of";
    startsI "Have been dragging";
    startsI "Only six modules";
    startsI "Drowning in";
    startsI "Feels great";
    startsI "Well, I tried";
    startsI "That's...";
    anchor [plus wordChar; ci " is SO"];
    hasI "my $0.02";
    anywhere [ci "achievin"; Star dot; ci "potential"];
    hasI "strategy";
    hasI "routine" ].

Definition CURATED_INDICATORS : list pattern :=
  [ startsI "Coming to the conclusion";
    anchor [ci "New "; altOf [ci "project"; ci "idea"]];
    startsI "Possible strategic";
    startsI "All this to say";
    startsI "I am achieving";
    hasI "my $0.02";
    hasI "potential";
    hasI "strategy";
    hasI "reminder that";
    hasI "lesson";
    hasI "insight";
    hasI "realize";
    hasI "free marketing";
    hasI "mental bandwidth";
    hasI "shockingly" ].

Definition reflectiveWords : list jsstring :=
  map lit ["think"; "feel"; "believe"; "seems"; "maybe"; "probably";
           "honestly"; "frankly"].

Section WithLowerCase.

(** [String.prototype.toLowerCase]: its Unicode case tables are not
    embedded; the classifier is parametric in it. *)
Variable toLowerCase : jsstring -> jsstring.

Definition categorizePost (content : jsstring) : Category * bool :=
  let trimmed := trim content in
  if anyTest UPDATE_PATTERNS trimmed then (update, false)
  else if anyTest THOUGHT_PATTERNS trimmed then
    let curated := anyTest CURATED_INDICATORS trimmed in
    let curated :=
      if (200 <? len trimmed) && negb curated then true else curated in
    (thought, curated)
  else if len trimmed <? 50 then (update, false)
  else if 200 <? len trimmed then (thought, true)
  else
    let hasReflective :=
      existsb (fun word => includes (toLowerCase trimmed) word)
              reflectiveWords in
    if hasReflective then (thought, false)
    else (update, false).

(** [{ ...post, category, curated }] *)
Definition categorize (post : Post) : Post :=
  let '(category, curated) := categorizePost (content post) in
  {| id := id post; content := content post; timestamp := timestamp post;
     category := Some category; curated := Some curated |}.

(** The new [data.posts] that [main] writes. *)
Definition main (posts : list Post) : list Post := map categorize posts.

End WithLowerCase.

End Classifier.

(** *** The Twitter import classifier ([scripts/categorize.ts], last script) *)

Module TwitterImport.

Definition UPDATE_PATTERNS : list pattern :=
  [ startsI "completed"; startsI "recorded"; startsI "sent"; startsI "hosted";
    startsI "finished";
    startsI "reviewed"; startsI "created"; startsI "built"; startsI "fixed";
    startsI "posted";
    startsI "published"; startsI "wrote"; startsI "paid"; startsI "set up";
    startsI "crushed";
    startsI "1:1 with"; hasI "gym";
    anywhere [ci "roast"; opt (ci "s"); ci " for"]; hasI "management for";
    startsI "responded to"; startsI "cancelled"; startsI "purchased";
    startsI "donated";
    startsI "tested"; startsI "experimented"; startsI "watched";
    startsI "prepared";
    startsI "iterated"; startsI "signed"; startsI "removed"; startsI "added";
    startsI "updated";
    startsI "messaged"; startsI "enriched"; startsI "ran";
    startsI "implemented"; startsI "scraped";
    startsI "refactored"; startsI "rebuilt"; startsI "appealed";
    startsI "ordered";
    hasI "leg day"; hasI "chest day"; hasI "back day"; hasI "arm day";
    hasI "weekly office hour"; hasI "weekly community call"; hasI "live build";
    hasI "podcast with"; hasI "stream with"; hasI "team meeting" ].

Definition THOUGHT_PATTERNS : list pattern :=
  [ startsI "i think"; startsI "i believe"; startsI "i feel"; startsI "i am";
    startsI "i'm";
    startsI "coming to the conclusion"; startsI "finding:"; startsI "new idea";
    startsI "the key"; startsI "biggest"; startsI "interesting"; startsI "wow";
    hasI "should be"; hasI "could be"; hasI "is huge"; hasI "are huge";
    hasI "all this to say"; hasI "learnings:"; hasI "observation";
    startsI "can't believe"; startsI "feels great"; startsI "not having";
    startsI "this is what";
    anchor [ci "my "; plus wordChar; ci " now looks"];
    hasI "doesn't work for me";
    hasI "going to stop"; hasI "going to start"; hasI "decided to";
    hasI "key here was"; hasI "you can totally"; hasI "definitely going to" ].

Definition CURATED_INDICATORS : list pattern :=
  [ hasI "strategy"; hasI "framework"; hasI "insight"; hasI "learning";
    hasI "principle"; hasI "realization"; hasI "epiphany"; hasI "breakthrough";
    anywhere [ci "game"; opt dot; ci "changer"];
    anywhere [ci "key "; altOf [ci "here"; ci "takeaway"; ci "insight"]];
    hasI "all this to say";
    anywhere [ci "the ";
              altOf [ci "biggest"; ci "best"; ci "key"; ci "most important"]];
    anywhere [ci "i ";
              altOf [ci "realized"; ci "discovered"; ci "learned";
                     ci "found that"]];
    anywhere [ci "consistent "; Star dot; ci " raises"];
    hasI "significantly more";
    hasI "unbeatable";
    anywhere [ci "best "; Star dot; ci " by far"];
    hasI "biggest hack";
    hasI "saves at least"; hasI "turns out"; hasI "wild west";
    hasI "professional situation monitor"; hasI "algorithmic bullshit" ].

Definition categorizePost (content : jsstring) : Category * bool :=
  let isUpdate := anyTest UPDATE_PATTERNS content in
  let isThought := anyTest THOUGHT_PATTERNS content in
  let isCurated := anyTest CURATED_INDICATORS content in
  let category :=
    if isThought && negb isUpdate then thought
    else if isThought && isUpdate then
      (if 150 <? len content then thought else update)
    else if negb isThought && negb isUpdate then
      (if 200 <? len content then thought else update)
    else update in
  (category, Category_eqb category thought && isCurated).

End TwitterImport.

(* ------------------------------------------------------------------ *)
(** ** The pattern-based merge script *)

Module RuleMerge.

Definition CONTINUATION_PATTERNS : list pattern :=
  [ startsI "so i'm going to";
    startsI "so i";
    startsI "it'll be";
    startsI "it will be";
    startsI "this means";
    startsI "this is";
    startsI "that's why";
    startsI "which means";
    startsI "all this to say";
    startsI "in other words";
    startsI "basically";
    startsI "anyway";
    startsI "also,";
    startsI "and ";
    startsI "but ";
    startsI "because ";
    startsI "since ";
    startsI "nvm,";
    startsI "fixed.";
    startsI "update:";
    startsI "cont'd";
    startsI "continued";
    anchor [plus digit; cs "."];
    anchor [cs "- "] ].

Definition STANDALONE_UPDATE_PATTERNS : list pattern :=
  [ startsI "completed ";
    anchor [ci "recorded "; plus digit; ci " roasts"];
    anchor [ci "sent "; plus digit; ci " "];
    startsI "hosted ";
    startsI "crushed ";
    startsI "gym";
    startsI "1:1 with";
    startsI "paid ";
    startsI "reviewed ";
    startsI "cancelled ";
    startsI "purchased ";
    startsI "leg day";
    startsI "chest day";
    startsI "back day";
    startsI "arm day" ].

Definition TIME_THRESHOLD_MS : Z := 5 * 60 * 1000.

Definition isStandaloneUpdate (content : jsstring) : bool :=
  anyTest STANDALONE_UPDATE_PATTERNS content.

Definition isContinuation (content : jsstring) : bool :=
  anyTest CONTINUATION_PATTERNS content.

Definition shouldMerge (post1 post2 : Post) : bool :=
  if categoryDiffers post1 post2
     && (isStandaloneUpdate (content post1)
         || isStandaloneUpdate (content post2))
  then false
  else if isStandaloneUpdate (content post1)
          && isStandaloneUpdate (content post2)
  then false
  else
    let time1 := getTime post1 in
    let time2 := getTime post2 in
    let timeDiff := Z.abs (time2 - time1) in
    if TIME_THRESHOLD_MS <? timeDiff then false
    else
      let laterPost := if time1 <? time2 then post2 else post1 in
      if isThought post1 && isThought post2
         && (isContinuation (content laterPost)
             || ((100 <? len (content post1))
                 && (100 <? len (content post2))))
      then true
      else if isContinuation (content laterPost) then true
      else false.

Definition mergePosts (posts : list Post) : option Post :=
  let sorted := sortBy byTimeAsc posts in
  mergeSorted sorted.

(** What [main] pushes on [finalPosts] when it finalizes
    [currentThread]. *)
Definition finalize (currentThread : list Post) : option Post :=
  if (1 <? List.length currentThread)%nat then mergePosts currentThread
  else nth_error currentThread 0.

(** The new [data.posts] that [main] writes. *)
Definition main (posts : list Post) : option (list Post) :=
  let sorted := sortBy byTimeAsc posts in
  match sequence (sweep shouldMerge finalize sorted) with
  | Some finalPosts => Some (sortBy byTimeDesc finalPosts)
  | None => None
  end.

End RuleMerge.

(* ------------------------------------------------------------------ *)
(** ** The LLM partition script ([scripts/categorize.ts], fifth script) *)

Module Narrative.

(** What [analyzeThreadGroup] makes of the model's answer: no bracketed
    text is found, [JSON.parse] throws, or it parses, here to an array
    of arrays of integers. *)
Inductive Reply : Type :=
| NoMatch : Reply
| ParseError : Reply
| Parsed : list (list Z) -> Reply.

(** [posts.map((_, i) => [i])] *)
Definition singletons (posts : list Post) : list (list Z) :=
  map (fun i => [Z.of_nat i]) (seq 0 (List.length posts)).

Definition analyzeThreadGroup (reply : Reply) (posts : list Post)
  : list (list Z) :=
  match reply with
  | NoMatch => singletons posts
  | ParseError => singletons posts
  | Parsed partition => partition
  end.

(** [group[idx]]: [undefined] (here [None]) out of range. *)
Definition at_ (group : list Post) (idx : Z) : option Post :=
  if idx <? 0 then None else nth_error group (Z.to_nat idx).

(** [mergePosts] on an array that may hold [undefined]: the sort moves
    [undefined] to the end without calling the comparator, and
    [sorted.map((p) => p.content)] throws on it. *)
Definition mergePosts (posts : list (option Post)) : option Post :=
  match sequence posts with
  | Some defined => mergeSorted (sortBy byTimeAsc defined)
  | None => None
  end.

(** What the inner loop pushes for one index group; the outer [option]
    is the thrown [TypeError], the inner one a pushed [undefined]. *)
Definition pushFor (group : list Post) (indices : list Z)
  : option (option Post) :=
  let threadPosts := map (at_ group) indices in
  if (1 <? List.length indices)%nat then
    match mergePosts threadPosts with
    | Some merged => Some (Some merged)
    | None => None
    end
  else Some (match threadPosts with
             | [] => None
             | p :: _ => p
             end).

Section WithOracle.

(** The model's answer for a group, as [analyzeThreadGroup] reads it. *)
Variable oracle : list Post -> Reply.

(** What [main] pushes on [finalPosts] for one time group. *)
Definition processGroup (group : list Post) : option (list (option Post)) :=
  if (List.length group =? 1)%nat then Some [nth_error group 0]
  else
    let threadGroups := analyzeThreadGroup (oracle group) group in
    sequence (map (pushFor group) threadGroups).

(** [finalPosts.sort(...)]: [undefined] entries go last. *)
Definition sortDescU (l : list (option Post)) : list (option Post) :=
  let defined := flat_map (fun o => match o with Some p => [p] | None => [] end) l in
  map Some (sortBy byTimeDesc defined)
  ++ repeat None (List.length l - List.length defined)%nat.

(** The new [data.posts] that [main] writes, or [None] when the run
    throws and nothing is written. *)
Definition main (posts : list Post) : option (list (option Post)) :=
  let timeGroups := groupByTimeProximity posts in
  match sequence (map processGroup timeGroups) with
  | Some pushed => Some (sortDescU (List.concat pushed))
  | None => None
  end.

End WithOracle.

End Narrative.

(* ------------------------------------------------------------------ *)
(** ** Running the scripts one after the other *)

(** Classify, then merge by the pattern rules. *)
Definition rulePipeline (toLowerCase : jsstring -> jsstring)
  (posts : list Post) : option (list Post) :=
  RuleMerge.main (Classifier.main toLowerCase posts).

(** Classify, then merge by [detectThreads]. *)
Definition localPipeline (toLowerCase : jsstring -> jsstring)
  (posts : list Post) : option (list Post) :=
  LocalMerge.main (Classifier.main toLowerCase posts).

(** Run [f] on an earlier result of it. *)
Definition again {A : Type} (f : A -> option A) (r : option A) : option A :=
  match r with
  | Some a => f a
  | None => None
  end.

(** The shape both rule-based scripts share: sort, sweep with [joins],
    close every thread, sort newest first. *)
Definition mergeRun (joins : Post -> Post -> bool) (posts : list Post)
  : option (list Post) :=
  match sequence (map LocalMerge.mergeOrKeep
                      (clustersOf joins (sortBy byTimeAsc posts))) with
  | Some merged => Some (sortBy byTimeDesc merged)
  | None => None
  end.

(** The two rule-based merge scripts, each with the condition under
    which its sweep lets a post join the current thread. *)
Inductive Script : Type := PatternScript | LocalScript.

Definition runScript (s : Script) : list Post -> option (list Post) :=
  match s with
  | PatternScript => RuleMerge.main
  | LocalScript => LocalMerge.main
  end.

Definition joinsOf (s : Script) : Post -> Post -> bool :=
  match s with
  | PatternScript => RuleMerge.shouldMerge
  | LocalScript => LocalMerge.sameThread
  end.

(** The full pipeline: the classifier's [main], then the merge script's;
    [rulePipeline] and [localPipeline] are its two cases. *)
Definition runPipeline (toLowerCase : jsstring -> jsstring) (s : Script)
  (posts : list Post) : option (list Post) :=
  runScript s (Classifier.main toLowerCase posts).

(** The entry keeps [curated] off whenever it is an update. *)
Definition exclusive (p : Post) : Prop :=
  ~ (category p = Some update /\ curated p = Some true).

(* ------------------------------------------------------------------ *)
(** ** Sample posts *)

Module Samples.

Definition post (i c : string) (t : Z) (cat : option Category)
  (cur : option bool) : Post :=
  {| id := i; content := lit c; timestamp := t; category := cat;
     curated := cur |}.

Definition minute : Z := 60 * 1000.

(** Three posts nine minutes apart. *)
Definition chainA : Post :=
  post "a" "Thinking about pricing." 0 (Some thought) (Some false).
Definition chainB : Post :=
  post "b" "Still thinking about it." (9 * minute) (Some thought) (Some false).
Definition chainC : Post :=
  post "c" "Decided on a flat fee." (18 * minute) (Some thought) (Some false).

(** The two posts of the spec's ordering example. *)
Definition tenA : Post := post "p1" "A" 0 None None.
Definition tenB : Post := post "p2" "B" (2 * minute) (Some thought) (Some true).

(** A completed task, a follow-up, and a plan, a minute apart. *)
Definition done1 : Post :=
  post "u1" "Completed the draft" 0 (Some update) (Some false).
Definition more1 : Post :=
  post "u2" "And sent it over" minute (Some update) (Some false).
Definition plan1 : Post :=
  post "t1" "So I'm going to rest" (2 * minute) (Some thought) (Some false).

(** A thought that opens like a workout update, and its continuation. *)
Definition gym1 : Post :=
  post "g1" "Gym strategy for the week" 0 (Some thought) (Some true).
Definition gym2 : Post :=
  post "g2" "So I'm going to lift on Monday" minute (Some thought) (Some false).

(** A long thought, and four minutes later a short one with its
    continuation. *)
Definition r1text : string :=
  "I think the onboarding flow needs a full rewrite because new members keep getting lost between the welcome email and the first call".
Definition r2text : string :=
  "I feel like the welcome email is doing too much work by itself".
Definition r3text : string :=
  "So I'm going to split it into three short emails next week".
Definition r1 : Post := post "r1" r1text 0 (Some thought) (Some false).
Definition r2 : Post :=
  post "r2" r2text (4 * minute) (Some thought) (Some false).
Definition r3 : Post :=
  post "r3" r3text (4 * minute + 30000) (Some thought) (Some false).

(** A thought, and four and five minutes later two short updates. *)
Definition q1text : string :=
  "I think the roasts are getting better every single week".
Definition q2text : string :=
  "Completed the outline for the new community onboarding call".
Definition q3text : string :=
  "Completed the slides for the new community onboarding call".
Definition q1 : Post := post "q1" q1text 0 (Some thought) (Some false).
Definition q2 : Post :=
  post "q2" q2text (4 * minute) (Some update) (Some false).
Definition q3 : Post :=
  post "q3" q3text (5 * minute) (Some update) (Some false).

(** The same posts as they are before classification. *)
Definition raw (p : Post) : Post :=
  {| id := id p; content := content p; timestamp := timestamp p;
     category := None; curated := None |}.

(** Three posts a minute apart, one time group. *)
Definition n1 : Post := post "n1" "First part" 0 (Some thought) (Some false).
Definition n2 : Post := post "n2" "Second part" minute (Some thought) (Some false).
Definition n3 : Post :=
  post "n3" "Third part" (2 * minute) (Some thought) (Some false).

(** A text that opens like an update and holds a thought phrase. *)
Definition longBoth : string :=
  "Completed the migration of the whole community platform this week and I decided to keep the old forum running in read only mode for another month or so.".

(** Two posts flagged curated by hand and never classified. *)
(** A short thought that continues nothing, and r2 merged with r3. *)
Definition calm : Post :=
  post "s0" "I feel fine today" 0 (Some thought) (Some false).
Definition r23 : Post :=
  {| id := "r2";
     content := lit r2text ++ [10; 10]%N ++ lit r3text;
     timestamp := 4 * minute;
     category := Some thought;
     curated := Some false |}.

Definition h1 : Post := post "h1" "Note one" 0 None (Some true).
Definition h2 : Post := post "h2" "Note two" minute None None.

End Samples.

(* ------------------------------------------------------------------ *)
(** ** The LLM yes/no merge script ([scripts/categorize.ts], second script) *)

Module BinaryMerge.

(** [response.content[0].type === 'text' ? ....text.toLowerCase() : '']
    followed by [text.includes('yes')]; the reply is [None] when the
    first block of the response is not text. *)
Definition saysYes (toLowerCase : jsstring -> jsstring)
  (reply : option jsstring) : bool :=
  let text := match reply with
              | Some t => toLowerCase t
              | None => []
              end in
  includes text (lit "yes").

Definition mergePostGroup (posts : list Post) : option Post :=
  let sorted := sortBy byTimeAsc posts in
  match sorted with
  | [] => None
  | first :: _ =>
      Some {| id := id first;
              content := join blankLine (map content sorted);
              timestamp := timestamp (last sorted first);
              category := Some (if existsb isThought sorted then thought else update);
              curated := Some (existsb isCurated sorted) |}
  end.

Section WithModel.

Variable toLowerCase : jsstring -> jsstring.

(** The model's reply for a group of posts. *)
Variable oracle : list Post -> option jsstring.

Definition shouldMergeGroup (posts : list Post) : bool :=
  if (List.length posts <? 2)%nat then false
  else saysYes toLowerCase (oracle posts).

(** What [main] pushes on [mergedPosts] for one time group. *)
Definition processGroup (group : list Post) : option (list Post) :=
  match group with
  | [p] => Some [p]
  | _ =>
      if shouldMergeGroup group then
        match mergePostGroup group with
        | Some merged => Some [merged]
        | None => None
        end
      else Some group
  end.

(** The new [data.posts] that [main] writes. *)
Definition main (posts : list Post) : option (list Post) :=
  let groups := groupByTimeProximity posts in
  match sequence (map processGroup groups) with
  | Some pushed => Some (sortBy byTimeDesc (List.concat pushed))
  | None => None
  end.

End WithModel.

End BinaryMerge.

(* ------------------------------------------------------------------ *)
(** ** The Twitter import, [main] *)

Module TwitterMain.

(** [interface Tweet]; [createdAt] is the instant [new Date(createdAt)]
    denotes, [None] when the date does not parse. *)
Record Tweet : Type := mkTweet {
  tweetId : string;
  text : option jsstring;
  fullText : option jsstring;
  createdAt : option Z
}.

(** [a || b] on optional strings: the empty string is falsy. *)
Definition orElse (a : option jsstring) (b : jsstring) : jsstring :=
  match a with
  | Some (c :: s) => c :: s
  | _ => b
  end.

(** The post made of one tweet; [toISOString] throws a [RangeError] on
    an invalid date. *)
Definition convert (tweet : Tweet) : option Post :=
  let content := orElse (fullText tweet) (orElse (text tweet) []) in
  let '(category, curated) := TwitterImport.categorizePost content in
  match createdAt tweet with
  | None => None
  | Some t =>
      Some {| id := "tw-" ++ tweetId tweet;
              content := content;
              timestamp := t;
              category := Some category;
              curated := Some curated |}
  end.

(** The posts that [main] writes. *)
Definition main (tweets : list Tweet) : option (list Post) :=
  match sequence (map convert tweets) with
  | Some posts => Some (sortBy byTimeDesc posts)
  | None => None
  end.

End TwitterMain.

(** Every post of a thread joins the one before it. *)
Fixpoint allLinked (joins : Post -> Post -> bool) (g : list Post) : bool :=
  match g with
  | a :: (b :: _) as rest => joins a b && allLinked joins rest
  | _ => true
  end.

(** The threads the pattern-based script builds before it merges them. *)
Definition ruleThreads (posts : list Post) : list (list Post) :=
  sweep RuleMerge.shouldMerge (fun currentThread => currentThread)
        (sortBy byTimeAsc posts).

(* ------------------------------------------------------------------ *)
(** ** Dates that do not parse *)

(** [new Date(s).getTime()] is NaN when [s] is no date.  [timestamp] in
    [Post] is the instant of a date that parses.  Here the time of a post
    is read through [parsedTime], with [None] for NaN, and the tests and
    loops of the merge scripts are written with JavaScript's number
    operations: an operation on NaN gives NaN and a comparison with NaN
    is false. *)
Module Dated.

Definition Number : Type := option Z.

(** [a - b] *)
Definition sub (a b : Number) : Number :=
  match a, b with
  | Some x, Some y => Some (x - y)
  | _, _ => None
  end.

(** [Math.abs(a)] *)
Definition abs (a : Number) : Number :=
  match a with
  | Some x => Some (Z.abs x)
  | None => None
  end.

(** [a > b] *)
Definition gt (a b : Number) : bool :=
  match a, b with
  | Some x, Some y => y <? x
  | _, _ => false
  end.

(** [a <= b] *)
Definition le (a b : Number) : bool :=
  match a, b with
  | Some x, Some y => x <=? y
  | _, _ => false
  end.

Section WithDates.

(** [new Date(post.timestamp).getTime()] *)
Variable parsedTime : Post -> Number.

(** [shouldMerge] of the pattern-based script *)
Definition shouldMerge (post1 post2 : Post) : bool :=
  if categoryDiffers post1 post2
     && (RuleMerge.isStandaloneUpdate (content post1)
         || RuleMerge.isStandaloneUpdate (content post2))
  then false
  else if RuleMerge.isStandaloneUpdate (content post1)
          && RuleMerge.isStandaloneUpdate (content post2)
  then false
  else
    let time1 := parsedTime post1 in
    let time2 := parsedTime post2 in
    let timeDiff := abs (sub time2 time1) in
    if gt timeDiff (Some RuleMerge.TIME_THRESHOLD_MS) then false
    else
      let laterPost := if gt time2 time1 then post2 else post1 in
      if isThought post1 && isThought post2
         && (RuleMerge.isContinuation (content laterPost)
             || ((100 <? len (content post1))
                 && (100 <? len (content post2))))
      then true
      else if RuleMerge.isContinuation (content laterPost) then true
      else false.

(** The test of [groupByTimeProximity] *)
Definition withinThreshold (lastPost post : Post) : bool :=
  let timeDiff := sub (parsedTime post) (parsedTime lastPost) in
  le timeDiff (Some TIME_THRESHOLD_MS).

(** The test of [detectThreads] *)
Definition sameThread (lastPost post : Post) : bool :=
  let timeDiff := sub (parsedTime post) (parsedTime lastPost) in
  if le timeDiff (Some LocalMerge.THREAD_THRESHOLD_MS) then
    let lastIsThought :=
      isThought lastPost
      || (LocalMerge.MIN_THOUGHT_LENGTH <? len (content lastPost)) in
    let currentIsThought :=
      isThought post || (LocalMerge.MIN_THOUGHT_LENGTH <? len (content post)) in
    (lastIsThought && currentIsThought) || le timeDiff (Some (2 * 60 * 1000))
  else false.

(** The loops of the pattern-based [main], of [detectThreads] and of
    [groupByTimeProximity], over the array [sorted] that the sort left.
    With a NaN among the times the comparator is not consistent and the
    order of [sorted] is the engine's choice; the loops run over it
    whatever it is. *)
Definition mainThreads (sorted : list Post) : list (list Post) :=
  sweep shouldMerge (fun currentThread => currentThread) sorted.

Definition detectThreads (sorted : list Post) : list (list Post) :=
  sweep sameThread (fun currentThread => currentThread) sorted.

Definition groupByTimeProximity (sorted : list Post) : list (list Post) :=
  sweep withinThreshold (fun currentGroup => currentGroup) sorted.

End WithDates.

(** Every date parses. *)
Definition allParse (post : Post) : Number := Some (getTime post).

End Dated.

(** [a] holds [b] as a substring. *)
Definition holds (a b : jsstring) : Prop :=
  exists before after, a = before ++ b ++ after.

(* ------------------------------------------------------------------ *)
(** ** The paginated read API *)

Module Pages.

Definition POSTS_PER_PAGE : Z := 100.

(** [l.slice(start, end)]: a negative index counts from the end, and
    both are clamped to the array. *)
Definition slice {A : Type} (l : list A) (start end_ : Z) : list A :=
  let n := Z.of_nat (List.length l) in
  let k := if start <? 0 then Z.max (n + start) 0 else Z.min start n in
  let final := if end_ <? 0 then Z.max (n + end_) 0 else Z.min end_ n in
  firstn (Z.to_nat (final - k)) (skipn (Z.to_nat k) l).

(** [Math.ceil(n / POSTS_PER_PAGE)] for a length [n]. *)
Definition ceilPages (n : Z) : Z := (n + (POSTS_PER_PAGE - 1)) / POSTS_PER_PAGE.

Record Response : Type := mkResponse {
  posts : list Post;
  hasMore : bool;
  page : Z;
  totalPages : Z
}.

Section WithPosts.

(** [postsData.posts] *)
Variable allPosts : list Post.

Definition sortedPosts : list Post := sortBy byTimeDesc allPosts.

(** [sortedPosts.slice(POSTS_PER_PAGE)] *)
Definition remainingPosts : list Post :=
  slice sortedPosts POSTS_PER_PAGE (Z.of_nat (List.length sortedPosts)).

(** The module-level [totalPages], which leaves the first page out. *)
Definition laterPages : Z := ceilPages (Z.of_nat (List.length remainingPosts)).

(** The page numbers [getStaticPaths] lists: [2 .. totalPages + 1]. *)
Definition getStaticPaths : list Z :=
  map (fun i => 2 + Z.of_nat i) (seq 0 (Z.to_nat laterPages)).

(** [GET] for the page number [parseInt(params.page)]. *)
Definition GET (pageNumber : Z) : Response :=
  let startIndex := (pageNumber - 1) * POSTS_PER_PAGE in
  let endIndex := startIndex + POSTS_PER_PAGE in
  let pagePosts := slice sortedPosts startIndex endIndex in
  {| posts := pagePosts;
     hasMore := endIndex <? Z.of_nat (List.length sortedPosts);
     page := pageNumber;
     totalPages := ceilPages (Z.of_nat (List.length sortedPosts)) |}.

End WithPosts.

End Pages.

(* ------------------------------------------------------------------ *)
(** ** The posting CLI *)

Module Cli.

(** [trimmed.slice(-1)]: the last code unit, if any. *)
Fixpoint ending (s : jsstring) : option char :=
  match s with
  | [] => None
  | [c] => Some c
  | _ :: s' => ending s'
  end.

(** One of [.], [!], [?], the double quote and [)]. *)
Definition isTerminal (c : char) : bool :=
  ((c =? 46) || (c =? 33) || (c =? 63) || (c =? 34) || (c =? 41))%N.

Definition finalContent (content : jsstring) : jsstring :=
  let trimmed := trim content in
  let needsPeriod :=
    match ending trimmed with
    | Some c => negb (isTerminal c)
    | None => true
    end in
  if needsPeriod then trimmed ++ lit "." else trimmed.

(** [addPost]: the new [data.posts], given the id and the time the call
    draws. *)
Definition addPost (newId : string) (now : Z) (content : jsstring)
  (posts : list Post) : list Post :=
  {| id := newId; content := finalContent content; timestamp := now;
     category := None; curated := None |} :: posts.

End Cli.

(* ------------------------------------------------------------------ *)
(** ** The hosted posting endpoint *)

Module Endpoint.

Inductive Method : Type := OPTIONS | POST | OTHER.

(** [interface PostRequest], every field possibly absent. *)
Record PostRequest : Type := mkRequest {
  reqContent : option jsstring;
  reqCategory : option Category;
  reqPassword : option jsstring;
  reqCurated : option bool
}.

(** [process.env] *)
Record Env : Type := mkEnv {
  POST_PASSWORD : option jsstring;
  GITHUB_TOKEN : option jsstring
}.

(** How reading [posts.json] from GitHub goes: the response is not ok;
    the read throws (the fetch rejects, reading the answer throws, or
    the file in it does not parse), which the handler's [catch]
    answers; or it holds the posts. *)
Inductive Fetched : Type :=
| FetchFailed : Fetched
| FetchGarbled : Fetched
| FetchedPosts : list Post -> Fetched.

(** How the [PUT] goes: its response is ok; it is not ok; or the call
    throws (the fetch rejects, or reading the error text throws), which
    the handler's [catch] answers. *)
Inductive PutOutcome : Type :=
| PutAccepted : PutOutcome
| PutRefused : PutOutcome
| PutThrew : PutOutcome.

Record Result : Type := mkResult {
  statusCode : Z;
  error : option string;
  (** the [posts] of the file handed to the [PUT], when the handler gets
      that far *)
  sent : option (list Post);
  (** whether the [PUT] was answered ok *)
  saved : bool
}.

Definition reply (code : Z) (err : option string) : Result :=
  {| statusCode := code; error := err; sent := None; saved := false |}.

Fixpoint sameText (s t : jsstring) : bool :=
  match s, t with
  | [], [] => true
  | c :: s', d :: t' => (c =? d)%N && sameText s' t'
  | _, _ => false
  end.

(** [a !== b] on possibly undefined strings. *)
Definition differs (a b : option jsstring) : bool :=
  match a, b with
  | None, None => false
  | Some s, Some t => negb (sameText s t)
  | _, _ => true
  end.

(** [!s] on a possibly undefined string. *)
Definition falsy (s : option jsstring) : bool :=
  match s with
  | Some (_ :: _) => false
  | _ => true
  end.

(** The handler; [body] is the parsed request, [None] when parsing
    throws; [newId] and [now] are the id and time it draws; [fetched]
    and [put] are how the read and the write at GitHub go. *)
Definition handler (env : Env) (method : Method) (body : option PostRequest)
  (newId : string) (now : Z) (fetched : Fetched) (put : PutOutcome) : Result :=
  match method with
  | OPTIONS => reply 204 None
  | OTHER => reply 405 (Some "Method not allowed")
  | POST =>
      match body with
      | None => reply 500 (Some "Internal server error")
      | Some request =>
          if differs (reqPassword request) (POST_PASSWORD env)
          then reply 401 (Some "Invalid password")
          else if falsy (reqContent request)
                  || (len (trim (match reqContent request with
                                 | Some c => c
                                 | None => []
                                 end)) =? 0)
          then reply 400 (Some "Content is required")
          else if falsy (GITHUB_TOKEN env)
          then reply 500 (Some "Server configuration error")
          else
            match fetched with
            | FetchFailed => reply 500 (Some "Failed to fetch posts")
            | FetchGarbled => reply 500 (Some "Internal server error")
            | FetchedPosts posts =>
                let newPost :=
                  {| id := newId;
                     content := trim (match reqContent request with
                                      | Some c => c
                                      | None => []
                                      end);
                     timestamp := now;
                     category := Some (match reqCategory request with
                                       | Some c => c
                                       | None => update
                                       end);
                     curated := Some (match reqCurated request with
                                      | Some true => true
                                      | _ => false
                                      end) |} in
                match put with
                | PutAccepted =>
                    {| statusCode := 200; error := None;
                       sent := Some (newPost :: posts); saved := true |}
                | PutRefused =>
                    {| statusCode := 500; error := Some "Failed to save post";
                       sent := Some (newPost :: posts); saved := false |}
                | PutThrew =>
                    {| statusCode := 500; error := Some "Internal server error";
                       sent := Some (newPost :: posts); saved := false |}
                end
            end
      end
  end.

End Endpoint.

(* ------------------------------------------------------------------ *)
(** ** The pending-posts store ([netlify/functions/pending-posts.ts],
    both versions) *)

Module Pending.

(** [interface PendingPost] as a request body can hold it: any field may
    be absent; [pTimestamp] is the instant [new Date(p.timestamp)]
    denotes, [None] when that is not a date. *)
Record PendingPost : Type := mkPending {
  pId : option string;
  pContent : option jsstring;
  pTimestamp : option Z;
  pCategory : option string;
  pCurated : option bool
}.

Definition MAX_AGE_MS : Z := 10 * 60 * 1000.

(** The blob under the key ["posts"]: absent, or the array last written. *)
Definition Store : Type := option (list PendingPost).

(** [raw ? JSON.parse(raw) : []] *)
Definition read (store : Store) : list PendingPost :=
  match store with
  | Some posts => posts
  | None => []
  end.

(** [now - new Date(p.timestamp).getTime() < MAX_AGE_MS]; a comparison
    with [NaN] is false. *)
Definition isFresh (now : Z) (p : PendingPost) : bool :=
  match pTimestamp p with
  | Some t => now - t <? MAX_AGE_MS
  | None => false
  end.

Inductive Method : Type := OPTIONS | GET | POST | OTHER.

Record Result : Type := mkResult {
  statusCode : Z;
  (** the [posts] of a [GET] answer *)
  listed : option (list PendingPost);
  store' : Store
}.

Definition truthyString (s : option string) : bool :=
  match s with
  | Some (String _ _) => true
  | _ => false
  end.

Definition truthyText (s : option jsstring) : bool :=
  match s with
  | Some (_ :: _) => true
  | _ => false
  end.

(** The handler at time [now] on [store]; [body] is the parsed body of a
    [POST].  A body that does not parse, or parses to [null], throws:
    [None]. *)
Definition handler (now : Z) (method : Method) (body : option PendingPost)
  (store : Store) : option Result :=
  match method with
  | OPTIONS => Some {| statusCode := 204; listed := None; store' := store |}
  | GET =>
      let posts := read store in
      let fresh := filter (isFresh now) posts in
      Some {| statusCode := 200;
              listed := Some fresh;
              store' := if (List.length fresh =? List.length posts)%nat
                        then store else Some fresh |}
  | POST =>
      match body with
      | None => None
      | Some post =>
          if negb (truthyText (pContent post)) || negb (truthyString (pId post))
          then Some {| statusCode := 400; listed := None; store' := store |}
          else Some {| statusCode := 200; listed := None;
                       store' := Some (post :: read store) |}
      end
  | OTHER => Some {| statusCode := 405; listed := None; store' := store |}
  end.

End Pending.

(** Nothing to trim at either end. *)
Definition trimmedText (s : jsstring) : Prop :=
  trimStart s = s /\ trimStart (rev s) = rev s.

(** A post without its category and curated flag. *)
Definition unlabelled (p : Post) : Post :=
  {| id := id p; content := content p; timestamp := timestamp p;
     category := None; curated := None |}.

(** ** More sample data *)

Module MoreSamples.

Definition tweetA : TwitterMain.Tweet :=
  {| TwitterMain.tweetId := "101";
     TwitterMain.text := Some (lit "Recorded 7 roasts");
     TwitterMain.fullText := None;
     TwitterMain.createdAt := Some 1000 |}.

Definition tweetB : TwitterMain.Tweet :=
  {| TwitterMain.tweetId := "102";
     TwitterMain.text := Some (lit "I think");
     TwitterMain.fullText := Some (lit "I think the key insight is focus");
     TwitterMain.createdAt := Some 2000 |}.

Definition tweetBad : TwitterMain.Tweet :=
  {| TwitterMain.tweetId := "103";
     TwitterMain.text := Some (lit "Set up the stream");
     TwitterMain.fullText := None;
     TwitterMain.createdAt := None |}.

(** A plain text of 228 code units that matches no pattern. *)
Definition longPlain : string :=
  "The new onboarding videos went out to the whole group on Monday and most people watched them before the call, which made the call itself shorter and a lot more useful than the last three calls we ran without sending anything.".

Definition potential : string :=
  "I am achieving a shockingly small slice of my potential".

(** 150 posts. *)
Definition manyPosts : list Post := repeat Samples.n1 150.

Definition env : Endpoint.Env :=
  {| Endpoint.POST_PASSWORD := Some (lit "hunter2");
     Endpoint.GITHUB_TOKEN := Some (lit "token") |}.

Definition request : Endpoint.PostRequest :=
  {| Endpoint.reqContent := Some (lit "  Shipped the importer.  ");
     Endpoint.reqCategory := None;
     Endpoint.reqPassword := Some (lit "hunter2");
     Endpoint.reqCurated := Some true |}.

(** Pending posts written at 1000 ms and 500000 ms, and one without a
    date. *)
Definition pendingOld : Pending.PendingPost :=
  {| Pending.pId := Some "p1"; Pending.pContent := Some (lit "Old");
     Pending.pTimestamp := Some 1000; Pending.pCategory := Some "update";
     Pending.pCurated := Some false |}.
Definition pendingNew : Pending.PendingPost :=
  {| Pending.pId := Some "p2"; Pending.pContent := Some (lit "New");
     Pending.pTimestamp := Some 500000; Pending.pCategory := Some "update";
     Pending.pCurated := Some false |}.
Definition pendingUndated : Pending.PendingPost :=
  {| Pending.pId := Some "p3"; Pending.pContent := Some (lit "Undated");
     Pending.pTimestamp := None; Pending.pCategory := None;
     Pending.pCurated := None |}.

(** A thought and, a day later, a continuation of it; and a reading of
    the dates on which the second post's date does not parse. *)
Definition early : Post :=
  Samples.post "e1" "First half of the thought" 0 (Some thought) (Some false).
Definition undated : Post :=
  Samples.post "e2" "So I kept going" (24 * 60 * Samples.minute)
               (Some thought) (Some false).
Definition exceptUndated (post : Post) : Dated.Number :=
  if String.eqb (id post) "e2" then None else Some (getTime post).

End MoreSamples.

(* ================================================================== *)
(** * Properties *)

(** ** The matcher decides the language of the pattern *)

Section RegexFacts.

Lemma matches_nil_nullable (r : regex) (s : jsstring) :
  matches r s -> s = [] -> nullable r = true.
Proof.
  induction 1 as [| f c Hf | r1 r2 s1 s2 _ IH1 _ IH2 | r1 r2 s _ IH
                  | r1 r2 s _ IH | r | r s1 s2 _ _ _ _]; intros E; simpl.
  - reflexivity.
  - discriminate.
  - apply app_eq_nil in E. destruct E as [E1 E2].
    rewrite (IH1 E1), (IH2 E2). reflexivity.
  - rewrite (IH E). reflexivity.
  - rewrite (IH E). apply orb_true_r.
  - reflexivity.
  - reflexivity.
Qed.

Lemma nullable_matches (r : regex) : nullable r = true <-> matches r [].
Proof.
  split.
  - induction r as [| | f | r1 IH1 r2 IH2 | r1 IH1 r2 IH2 | r IH]; simpl; intros H.
    + discriminate.
    + constructor.
    + discriminate.
    + apply andb_prop in H. destruct H as [H1 H2].
      change (@nil char) with (@nil char ++ []). constructor; auto.
    + apply orb_prop in H. destruct H as [H | H];
        [apply m_alt_l | apply m_alt_r]; auto.
    + constructor.
  - intros H. eapply matches_nil_nullable; [exact H | reflexivity].
Qed.

Lemma deriv_sound (c : char) (r : regex) :
  forall s, matches (deriv c r) s -> matches r (c :: s).
Proof.
  induction r as [| | f | r1 IH1 r2 IH2 | r1 IH1 r2 IH2 | r IH]; simpl; intros s H.
  - inversion H.
  - inversion H.
  - destruct (f c) eqn:Hf; inversion H; subst. constructor. exact Hf.
  - destruct (nullable r1) eqn:N.
    + inversion H as [| | | ? ? ? HL | ? ? ? HR | |]; subst.
      * inversion HL as [| | ? ? s1 s2 Ha Hb | | | |]; subst.
        change (c :: s1 ++ s2) with ((c :: s1) ++ s2). constructor; auto.
      * change (c :: s) with ([] ++ c :: s). constructor; auto.
        apply nullable_matches, N.
    + inversion H as [| | ? ? s1 s2 Ha Hb | | | |]; subst.
      change (c :: s1 ++ s2) with ((c :: s1) ++ s2). constructor; auto.
  - inversion H; subst; [apply m_alt_l | apply m_alt_r]; auto.
  - inversion H as [| | ? ? s1 s2 Ha Hb | | | |]; subst.
    change (c :: s1 ++ s2) with ((c :: s1) ++ s2). constructor; auto.
Qed.

Lemma deriv_complete (r : regex) (t : jsstring) :
  matches r t -> forall c s, t = c :: s -> matches (deriv c r) s.
Proof.
  induction 1 as [| f c' Hf | r1 r2 s1 s2 H1 IH1 H2 IH2 | r1 r2 s0 _ IH
                  | r1 r2 s0 _ IH | r | r s1 s2 H1 IH1 H2 IH2];
    intros c s E; simpl.
  - discriminate.
  - injection E as -> <-. rewrite Hf. constructor.
  - destruct s1 as [|c1 s1].
    + simpl in E. rewrite (matches_nil_nullable _ _ H1 eq_refl).
      apply m_alt_r. apply IH2, E.
    + injection E as -> <-. specialize (IH1 c s1 eq_refl).
      destruct (nullable r1); [apply m_alt_l |]; constructor; assumption.
  - apply m_alt_l. apply IH, E.
  - apply m_alt_r. apply IH, E.
  - discriminate.
  - destruct s1 as [|c1 s1].
    + simpl in E. apply IH2, E.
    + injection E as -> <-. constructor; [apply IH1; reflexivity | exact H2].
Qed.

Lemma matchPrefix_spec (s : jsstring) :
  forall r, matchPrefix s r = true <->
            exists s1 s2, s = s1 ++ s2 /\ matches r s1.
Proof.
  induction s as [|c s IH]; intros r; simpl.
  - rewrite orb_false_r, nullable_matches. split.
    + intros H. exists [], []. auto.
    + intros (s1 & s2 & E & H). symmetry in E.
      apply app_eq_nil in E. destruct E as [-> _]. exact H.
  - rewrite orb_true_iff, nullable_matches, IH. split.
    + intros [H | (s1 & s2 & -> & H)].
      * exists [], (c :: s). auto.
      * exists (c :: s1), s2. split; [reflexivity | apply deriv_sound, H].
    + intros (s1 & s2 & E & H). destruct s1 as [|c1 s1].
      * left. exact H.
      * injection E as <- ->. right. exists s1, s2.
        split; [reflexivity | eapply deriv_complete; [exact H | reflexivity]].
Qed.

Lemma search_spec (r : regex) (s : jsstring) :
  search r s = true <->
  exists s0 s1 s2, s = s0 ++ s1 ++ s2 /\ matches r s1.
Proof.
  induction s as [|c s IH]; cbn [search].
  - rewrite orb_false_r, (matchPrefix_spec [] r). split.
    + intros (s1 & s2 & E & H). exists [], s1, s2. auto.
    + intros (s0 & s1 & s2 & E & H). symmetry in E.
      apply app_eq_nil in E. destruct E as [_ E].
      exists s1, s2. auto.
  - rewrite orb_true_iff, IH.
    rewrite (matchPrefix_spec (c :: s) r). split.
    + intros [(s1 & s2 & E & H) | (s0 & s1 & s2 & -> & H)].
      * exists [], s1, s2. auto.
      * exists (c :: s0), s1, s2. auto.
    + intros (s0 & s1 & s2 & E & H). destruct s0 as [|c0 s0].
      * left. exists s1, s2. auto.
      * injection E as <- ->. right. exists s0, s1, s2. auto.
Qed.

(** [test] answers whether a substring of [s], a prefix under [^], is in
    the language of the pattern. *)
Theorem test_spec (p : pattern) (s : jsstring) :
  test p s = true <->
  exists s0 s1 s2,
    s = s0 ++ s1 ++ s2 /\ (anchored p = true -> s0 = []) /\
    matches (body p) s1.
Proof.
  unfold test. destruct (anchored p).
  - rewrite matchPrefix_spec. split.
    + intros (s1 & s2 & E & H). exists [], s1, s2. auto.
    + intros (s0 & s1 & s2 & E & H0 & H). rewrite (H0 eq_refl) in E.
      exists s1, s2. auto.
  - rewrite search_spec. split.
    + intros (s0 & s1 & s2 & E & H). exists s0, s1, s2.
      split; [exact E |]. split; [discriminate | exact H].
    + intros (s0 & s1 & s2 & E & _ & H). exists s0, s1, s2. auto.
Qed.

End RegexFacts.

(** ** Sorting *)

Section SortingFacts.

Context {A : Type} (cmp : A -> A -> Z).

Lemma insertBy_perm (x : A) (l : list A) :
  Permutation (insertBy cmp x l) (x :: l).
Proof.
  induction l as [|y l IH]; simpl.
  - apply Permutation_refl.
  - destruct (cmp x y <=? 0).
    + apply Permutation_refl.
    + eapply perm_trans; [apply perm_skip, IH | apply perm_swap].
Qed.

Lemma sortBy_perm (l : list A) : Permutation (sortBy cmp l) l.
Proof.
  induction l as [|x l IH]; simpl.
  - apply perm_nil.
  - eapply perm_trans; [apply insertBy_perm | apply perm_skip, IH].
Qed.

Lemma sortBy_length (l : list A) :
  List.length (sortBy cmp l) = List.length l.
Proof. apply Permutation_length, sortBy_perm. Qed.

Lemma sortBy_In (l : list A) (x : A) : In x (sortBy cmp l) <-> In x l.
Proof.
  split; apply Permutation_in;
    [apply sortBy_perm | apply Permutation_sym, sortBy_perm].
Qed.

Hypothesis cmp_total : forall a b, 0 < cmp a b -> cmp b a <= 0.
Hypothesis cmp_trans :
  forall a b c, cmp a b <= 0 -> cmp b c <= 0 -> cmp a c <= 0.

Lemma insertBy_sorted (x : A) (l : list A) :
  StronglySorted (noLater cmp) l -> StronglySorted (noLater cmp) (insertBy cmp x l).
Proof.
  induction l as [|y l IH]; simpl; intros Hs.
  - constructor; [constructor | constructor].
  - destruct (Z.leb_spec (cmp x y) 0) as [Hle | Hgt].
    + constructor; [assumption |].
      constructor; [exact Hle |].
      apply StronglySorted_inv in Hs. destruct Hs as [_ Hall].
      rewrite Forall_forall in *. intros z Hz.
      apply cmp_trans with y; [exact Hle | apply Hall, Hz].
    + apply StronglySorted_inv in Hs. destruct Hs as [Hs Hall].
      constructor; [apply IH, Hs |].
      rewrite Forall_forall in *. intros z Hz.
      apply (Permutation_in _ (insertBy_perm x l)) in Hz.
      destruct Hz as [<- | Hz]; [apply cmp_total, Hgt | apply Hall, Hz].
Qed.

Lemma sortBy_sorted (l : list A) : StronglySorted (noLater cmp) (sortBy cmp l).
Proof.
  induction l as [|x l IH]; simpl.
  - constructor.
  - apply insertBy_sorted, IH.
Qed.

End SortingFacts.

(** A list already in order is left as it is. *)
Lemma sortBy_id {A : Type} (cmp : A -> A -> Z) (l : list A) :
  StronglySorted (noLater cmp) l -> sortBy cmp l = l.
Proof.
  induction l as [|x l IH]; simpl; intros Hs; [reflexivity |].
  apply StronglySorted_inv in Hs. destruct Hs as [Hs Hall].
  rewrite (IH Hs). destruct l as [|y l]; simpl; [reflexivity |].
  inversion Hall as [|? ? Hxy _]; subst. unfold noLater in Hxy.
  apply Z.leb_le in Hxy. rewrite Hxy. reflexivity.
Qed.

Lemma StronglySorted_impl {A : Type} (R S : A -> A -> Prop) (l : list A) :
  (forall a b, R a b -> S a b) -> StronglySorted R l -> StronglySorted S l.
Proof.
  intros HRS. induction 1 as [|a l _ IH Hall]; constructor; [exact IH |].
  rewrite Forall_forall in *. intros b Hb. apply HRS, Hall, Hb.
Qed.

Lemma ascending_noLater (l : list Post) :
  ascending l <-> StronglySorted (noLater byTimeAsc) l.
Proof.
  split; apply StronglySorted_impl; unfold noLater, byTimeAsc; intros; lia.
Qed.

Lemma descending_noLater (l : list Post) :
  descending l <-> StronglySorted (noLater byTimeDesc) l.
Proof.
  split; apply StronglySorted_impl; unfold noLater, byTimeDesc; intros; lia.
Qed.

Lemma sortAsc_ascending (l : list Post) : ascending (sortBy byTimeAsc l).
Proof.
  apply ascending_noLater.
  apply sortBy_sorted; unfold byTimeAsc; intros; lia.
Qed.

Lemma sortDesc_descending (l : list Post) : descending (sortBy byTimeDesc l).
Proof.
  apply descending_noLater.
  apply sortBy_sorted; unfold byTimeDesc; intros; lia.
Qed.

Lemma sortAsc_id (l : list Post) : ascending l -> sortBy byTimeAsc l = l.
Proof. intros H. apply sortBy_id, ascending_noLater, H. Qed.

(** Stability: posts of one same time keep their order of arrival. *)
Lemma insertBy_filter {A : Type} (cmp : A -> A -> Z) (f : A -> bool)
  (x : A) (l : list A) :
  (forall y, 0 < cmp x y -> f x = true -> f y = false) ->
  filter f (insertBy cmp x l) = filter f (x :: l).
Proof.
  intros Hf. induction l as [|y l IH]; [reflexivity |].
  cbn [insertBy]. destruct (Z.leb_spec (cmp x y) 0) as [Hle | Hgt];
    [reflexivity |].
  cbn [filter] in *. rewrite IH.
  destruct (f x) eqn:Fx; [| reflexivity].
  rewrite (Hf y Hgt eq_refl). reflexivity.
Qed.

Lemma sortAsc_stable (t : Z) (l : list Post) :
  filter (fun p => getTime p =? t) (sortBy byTimeAsc l)
  = filter (fun p => getTime p =? t) l.
Proof.
  induction l as [|x l IH]; [reflexivity |].
  cbn [sortBy fold_right]. rewrite insertBy_filter.
  - cbn [filter]. unfold sortBy in IH. rewrite IH. reflexivity.
  - unfold byTimeAsc. intros y Hy Hx.
    apply Z.eqb_eq in Hx. apply Z.eqb_neq. lia.
Qed.

Lemma sortDesc_stable (t : Z) (l : list Post) :
  filter (fun p => getTime p =? t) (sortBy byTimeDesc l)
  = filter (fun p => getTime p =? t) l.
Proof.
  induction l as [|x l IH]; [reflexivity |].
  cbn [sortBy fold_right]. rewrite insertBy_filter.
  - cbn [filter]. unfold sortBy in IH. rewrite IH. reflexivity.
  - unfold byTimeDesc. intros y Hy Hx.
    apply Z.eqb_eq in Hx. apply Z.eqb_neq. lia.
Qed.

(** Sorting ascending and then descending is sorting descending: on a
    list in descending order both give the list back. *)
Lemma sortDesc_insertAsc (x : Post) (l : list Post) :
  Forall (fun y => getTime y <= getTime x) l ->
  sortBy byTimeDesc (insertBy byTimeAsc x l) = x :: sortBy byTimeDesc l.
Proof.
  induction l as [|y l IH]; intros Hall; [reflexivity |].
  inversion Hall as [|? ? Hy Hl]; subst.
  assert (Hhead : forall r, Forall (fun z => getTime z <= getTime x) r ->
                            insertBy byTimeDesc x r = x :: r).
  { intros [|z r] Hr; [reflexivity |]. simpl.
    inversion Hr as [|? ? Hz _]; subst. unfold byTimeDesc.
    destruct (Z.leb_spec (getTime z - getTime x) 0); [reflexivity | lia]. }
  simpl. unfold byTimeAsc at 1.
  destruct (Z.leb_spec (getTime x - getTime y) 0) as [Hle | Hgt].
  - change (insertBy byTimeDesc x (sortBy byTimeDesc (y :: l))
            = x :: sortBy byTimeDesc (y :: l)).
    apply Hhead. rewrite Forall_forall in *. intros z Hz.
    apply sortBy_In in Hz. apply Hall, Hz.
  - simpl. rewrite (IH Hl). simpl. unfold byTimeDesc at 1.
    destruct (Z.leb_spec (getTime x - getTime y) 0); [lia | reflexivity].
Qed.

Lemma sortDesc_sortAsc (l : list Post) :
  descending l -> sortBy byTimeDesc (sortBy byTimeAsc l) = l.
Proof.
  induction l as [|x l IH]; intros Hs; [reflexivity |].
  apply StronglySorted_inv in Hs. destruct Hs as [Hs Hall].
  simpl. rewrite sortDesc_insertAsc.
  - rewrite (IH Hs). reflexivity.
  - rewrite Forall_forall in *. intros y Hy. apply sortBy_In in Hy.
    specialize (Hall y Hy). simpl in Hall. lia.
Qed.

(** Two lists in strictly increasing time order with the same members
    are the same list. *)
Lemma strict_sorted_unique (l1 l2 : list Post) :
  StronglySorted (fun a b => getTime a < getTime b) l1 ->
  StronglySorted (fun a b => getTime a < getTime b) l2 ->
  Permutation l1 l2 -> l1 = l2.
Proof.
  revert l2. induction l1 as [|x l1 IH]; intros l2 H1 H2 Hp.
  - apply Permutation_nil in Hp. symmetry. exact Hp.
  - destruct l2 as [|y l2].
    + apply Permutation_sym, Permutation_nil in Hp. discriminate.
    + apply StronglySorted_inv in H1. destruct H1 as [H1 A1].
      apply StronglySorted_inv in H2. destruct H2 as [H2 A2].
      rewrite Forall_forall in A1, A2.
      assert (x = y) as ->.
      { assert (Hx : In x (y :: l2))
          by (apply (Permutation_in _ Hp); left; reflexivity).
        assert (Hy : In y (x :: l1))
          by (apply (Permutation_in _ (Permutation_sym Hp)); left; reflexivity).
        destruct Hx as [Hx | Hx]; [symmetry; exact Hx |].
        destruct Hy as [Hy | Hy]; [exact Hy |].
        specialize (A1 y Hy). specialize (A2 x Hx). lia. }
      f_equal. apply IH; [assumption | assumption |].
      eapply Permutation_cons_inv. exact Hp.
Qed.

Lemma existsb_perm {A : Type} (f : A -> bool) (l1 l2 : list A) :
  Permutation l1 l2 -> existsb f l1 = existsb f l2.
Proof.
  induction 1 as [| x l l' _ IH | x y l | l l' l'' _ IH1 _ IH2]; simpl.
  - reflexivity.
  - rewrite IH. reflexivity.
  - destruct (f x), (f y); reflexivity.
  - rewrite IH1. exact IH2.
Qed.

(** ** The sweep *)

Section SweepFacts.

Context {B : Type}.
Variable joins : Post -> Post -> bool.
Variable close : list Post -> B.

Lemma clusters_nonnil (x : Post) (l : list Post) : clusters joins x l <> [].
Proof.
  destruct l as [|y l]; simpl; [discriminate |].
  destruct (joins x y); [| discriminate].
  destruct (clusters joins y l); discriminate.
Qed.

(** The state of the loop after the posts [l], entered with a current
    thread [pre ++ [x]]. *)
Lemma sweep_loop (l : list Post) :
  forall (out : list B) (pre : list Post) (x : Post),
    (let '(out', current) :=
       fold_left (sweepStep joins close) l (out, pre ++ [x]) in
     match current with
     | [] => out'
     | _ :: _ => out' ++ [close current]
     end)
    = out ++ map close
                 (match clusters joins x l with
                  | g :: gs => (pre ++ g) :: gs
                  | [] => []
                  end).
Proof.
  induction l as [|y l IH]; intros out pre x.
  - simpl. destruct (pre ++ [x]) eqn:E; [| reflexivity].
    destruct pre; discriminate.
  - cbn [fold_left]. unfold sweepStep at 2.
    destruct (pre ++ [x]) as [|h t] eqn:E; [destruct pre; discriminate |].
    rewrite <- E. rewrite last_last. cbn [clusters].
    destruct (joins x y).
    + rewrite IH. pose proof (clusters_nonnil y l) as Hn.
      destruct (clusters joins y l) as [|g gs]; [contradiction |].
      rewrite <- app_assoc. reflexivity.
    + specialize (IH (out ++ [close (pre ++ [x])]) [] y).
      cbn [app] in IH. rewrite IH.
      pose proof (clusters_nonnil y l) as Hn.
      destruct (clusters joins y l) as [|g gs]; [contradiction |].
      rewrite <- app_assoc. reflexivity.
Qed.

Theorem sweep_clusters (l : list Post) :
  sweep joins close l = map close (clustersOf joins l).
Proof.
  destruct l as [|x l]; [reflexivity |].
  unfold sweep. cbn [fold_left sweepStep clustersOf].
  pose proof (sweep_loop l [] [] x) as H. cbn [app] in H.
  rewrite H. pose proof (clusters_nonnil x l) as Hn.
  destruct (clusters joins x l); [contradiction | reflexivity].
Qed.

End SweepFacts.

Section ClusterFacts.

Variable joins : Post -> Post -> bool.

Lemma clusters_concat (x : Post) (l : list Post) :
  List.concat (clusters joins x l) = x :: l.
Proof.
  revert x. induction l as [|y l IH]; intros x; [reflexivity |].
  cbn [clusters]. specialize (IH y).
  destruct (joins x y).
  - destruct (clusters joins y l) as [|g gs]; [discriminate |].
    simpl in *. rewrite IH. reflexivity.
  - simpl. rewrite IH. reflexivity.
Qed.

Lemma clustersOf_concat (l : list Post) :
  List.concat (clustersOf joins l) = l.
Proof. destruct l; [reflexivity | apply clusters_concat]. Qed.

Lemma clusters_nonempty (x : Post) (l : list Post) :
  Forall (fun g => g <> []) (clusters joins x l).
Proof.
  revert x. induction l as [|y l IH]; intros x.
  - repeat constructor. discriminate.
  - cbn [clusters]. specialize (IH y). destruct (joins x y).
    + destruct (clusters joins y l) as [|g gs].
      * repeat constructor. discriminate.
      * inversion IH; subst. constructor; [discriminate | assumption].
    + constructor; [discriminate | assumption].
Qed.

Lemma clustersOf_nonempty (l : list Post) :
  Forall (fun g => g <> []) (clustersOf joins l).
Proof. destruct l; [constructor | apply clusters_nonempty]. Qed.

(** The first cluster starts with the first post. *)
Lemma clusters_head (x : Post) (l : list Post) :
  exists g gs, clusters joins x l = (x :: g) :: gs.
Proof.
  destruct l as [|y l]; cbn [clusters]; [eauto |].
  destruct (joins x y); [| eauto].
  destruct (clusters joins y l); eauto.
Qed.

(** Two posts next to each other in the sorted list share a cluster
    exactly when the later one joins the earlier one. *)
Lemma clusters_adjacent (l : list Post) :
  forall (x : Post) (i : nat) (a b : Post),
    nth_error (x :: l) i = Some a ->
    nth_error (x :: l) (S i) = Some b ->
    (clusterIndex (clusters joins x l) i
     = clusterIndex (clusters joins x l) (S i)
     <-> joins a b = true).
Proof.
  induction l as [|y l IH]; intros x i a b Ha Hb.
  - destruct i; simpl in Hb; [discriminate | destruct i; discriminate].
  - cbn [clusters].
    destruct (clusters_head y l) as (g & gs & Hc).
    destruct i as [|i].
    + simpl in Ha, Hb. injection Ha as <-. injection Hb as <-.
      destruct (joins x y) eqn:J.
      * rewrite Hc. simpl. split; reflexivity || auto.
      * simpl. rewrite Hc. simpl. split; discriminate.
    + change (nth_error (y :: l) i = Some a) in Ha.
      change (nth_error (y :: l) (S i) = Some b) in Hb.
      specialize (IH y i a b Ha Hb). rewrite Hc in IH.
      destruct (joins x y).
      * rewrite Hc. rewrite <- IH.
        cbn [clusterIndex List.length Nat.ltb Nat.leb Nat.sub] in *.
        change (S i <? S (S (List.length g)))%nat
          with (i <? S (List.length g))%nat.
        change (S (S i) <? S (S (List.length g)))%nat
          with (S i <? S (List.length g))%nat.
        destruct (i <? S (List.length g))%nat eqn:E1;
          destruct (S i <? S (List.length g))%nat eqn:E2;
          split; congruence.
      * rewrite Hc. rewrite <- IH. simpl.
        rewrite !Nat.sub_0_r. split; congruence.
Qed.

(** With no joining pair, every post is a cluster of its own. *)
Lemma clustersOf_noLink (l : list Post) :
  noLink joins l = true -> clustersOf joins l = map (fun p => [p]) l.
Proof.
  destruct l as [|x l]; [reflexivity |]. revert x.
  induction l as [|y l IH]; intros x H; [reflexivity |].
  cbn [noLink] in H. apply andb_prop in H. destruct H as [Hj Hr].
  apply negb_true_iff in Hj. cbn [clustersOf clusters]. rewrite Hj.
  specialize (IH y Hr). cbn [clustersOf] in IH. rewrite IH. reflexivity.
Qed.

End ClusterFacts.

Lemma concat_length_nonempty {A : Type} (gs : list (list A)) :
  Forall (fun g => g <> []) gs ->
  (List.length gs <= List.length (List.concat gs))%nat.
Proof.
  induction 1 as [|g gs Hg _ IH]; simpl; [lia |].
  rewrite length_app. destruct g; [contradiction | simpl; lia].
Qed.

Lemma sequence_map {A C : Type} (f : A -> option C) (R : A -> C -> Prop)
  (l : list A) :
  Forall (fun a => exists c, f a = Some c /\ R a c) l ->
  exists out, sequence (map f l) = Some out /\ Forall2 R l out.
Proof.
  induction 1 as [|a l (c & Hc & Hr) _ (out & Ho & Hf)]; simpl.
  - exists []. split; [reflexivity | constructor].
  - rewrite Hc, Ho. exists (c :: out). split; [reflexivity |].
    constructor; assumption.
Qed.

Lemma sequence_Some {A : Type} (l : list A) : sequence (map Some l) = Some l.
Proof.
  induction l as [|a l IH]; simpl; [reflexivity | rewrite IH; reflexivity].
Qed.

(** ** Merging *)

Lemma finalize_mergeOrKeep (thread : list Post) :
  RuleMerge.finalize thread = LocalMerge.mergeOrKeep thread.
Proof. reflexivity. Qed.

Lemma sortBy_cons {A : Type} (cmp : A -> A -> Z) (x : A) (l : list A) :
  exists first rest, sortBy cmp (x :: l) = first :: rest.
Proof.
  pose proof (sortBy_length cmp (x :: l)) as H.
  destruct (sortBy cmp (x :: l)) as [|first rest]; [discriminate | eauto].
Qed.

(** What merging a thread of two or more posts gives. *)
Lemma mergeOrKeep_multi (a b : Post) (l : list Post) :
  exists first rest,
    sortBy byTimeAsc (a :: b :: l) = first :: rest /\
    LocalMerge.mergeOrKeep (a :: b :: l) =
      Some {| id := id first;
              content := join blankLine (map content (first :: rest));
              timestamp := timestamp first;
              category :=
                Some (if existsb isThought (a :: b :: l) then thought else update);
              curated := Some (existsb isCurated (a :: b :: l)) |}.
Proof.
  destruct (sortBy_cons byTimeAsc a (b :: l)) as (first & rest & Hs).
  exists first, rest. split; [exact Hs |].
  unfold LocalMerge.mergeOrKeep, LocalMerge.mergeThread.
  change (1 <? List.length (a :: b :: l))%nat with true. cbv iota.
  rewrite Hs. unfold mergeSorted. rewrite <- Hs.
  rewrite !(existsb_perm _ _ _ (sortBy_perm byTimeAsc (a :: b :: l))).
  reflexivity.
Qed.

(** Closing a non-empty thread gives a post, under the id of a member. *)
Lemma mergeOrKeep_some (g : list Post) :
  g <> [] ->
  exists m, LocalMerge.mergeOrKeep g = Some m /\
            exists q, In q g /\ id m = id q.
Proof.
  destruct g as [|a [|b l]]; intros Hg.
  - contradiction.
  - exists a. split; [reflexivity |]. exists a. split; [left |]; reflexivity.
  - destruct (mergeOrKeep_multi a b l) as (first & rest & Hs & Hm).
    rewrite Hm. eexists. split; [reflexivity |].
    exists first. split; [| reflexivity].
    apply (sortBy_In byTimeAsc). rewrite Hs. left. reflexivity.
Qed.

Lemma Forall2_In_r {A C : Type} (R : A -> C -> Prop) (l : list A) (out : list C) :
  Forall2 R l out -> forall c, In c out -> exists a, In a l /\ R a c.
Proof.
  induction 1 as [|a c l out Hr _ IH]; intros c' Hc; [contradiction |].
  destruct Hc as [<- | Hc].
  - exists a. split; [left; reflexivity | exact Hr].
  - destruct (IH c' Hc) as (a' & Ha & Hr'). exists a'. split; [right |]; assumption.
Qed.

(** ** The two rule-based scripts as a sweep *)

Lemma RuleMerge_main_run (posts : list Post) :
  RuleMerge.main posts = mergeRun RuleMerge.shouldMerge posts.
Proof.
  unfold RuleMerge.main, mergeRun. rewrite sweep_clusters. reflexivity.
Qed.

Lemma LocalMerge_main_run (posts : list Post) :
  LocalMerge.main posts = mergeRun LocalMerge.sameThread posts.
Proof.
  unfold LocalMerge.main, LocalMerge.detectThreads, mergeRun.
  rewrite sweep_clusters, map_id. reflexivity.
Qed.

Lemma groupByTimeProximity_clusters (posts : list Post) :
  groupByTimeProximity posts
  = clustersOf withinThreshold (sortBy byTimeAsc posts).
Proof.
  unfold groupByTimeProximity. rewrite sweep_clusters, map_id. reflexivity.
Qed.

Lemma detectThreads_clusters (posts : list Post) :
  LocalMerge.detectThreads posts
  = clustersOf LocalMerge.sameThread (sortBy byTimeAsc posts).
Proof.
  unfold LocalMerge.detectThreads. rewrite sweep_clusters, map_id. reflexivity.
Qed.

Section MergeRun.

Variable joins : Post -> Post -> bool.

Lemma mergeRun_some (posts : list Post) :
  exists merged,
    mergeRun joins posts = Some (sortBy byTimeDesc merged) /\
    Forall2 (fun g m => LocalMerge.mergeOrKeep g = Some m /\
                        exists q, In q g /\ id m = id q)
            (clustersOf joins (sortBy byTimeAsc posts)) merged.
Proof.
  unfold mergeRun.
  destruct (sequence_map LocalMerge.mergeOrKeep
              (fun g m => LocalMerge.mergeOrKeep g = Some m /\
                          exists q, In q g /\ id m = id q)
              (clustersOf joins (sortBy byTimeAsc posts)))
    as (merged & Hseq & Hall).
  - eapply Forall_impl; [| apply clustersOf_nonempty].
    intros g Hg. destruct (mergeOrKeep_some g Hg) as (m & Hm & Hq).
    exists m. auto.
  - rewrite Hseq. exists merged. auto.
Qed.

Lemma mergeRun_bounded (posts : list Post) :
  exists out,
    mergeRun joins posts = Some out /\
    (List.length out <= List.length posts)%nat /\
    forall p, In p out -> exists q, In q posts /\ id p = id q.
Proof.
  destruct (mergeRun_some posts) as (merged & Hrun & Hall).
  exists (sortBy byTimeDesc merged). split; [exact Hrun |]. split.
  - rewrite sortBy_length, <- (Forall2_length Hall).
    rewrite <- (sortBy_length byTimeAsc posts).
    rewrite <- (clustersOf_concat joins (sortBy byTimeAsc posts)) at 2.
    apply concat_length_nonempty, clustersOf_nonempty.
  - intros p Hp. apply sortBy_In in Hp.
    destruct (Forall2_In_r _ _ _ Hall p Hp) as (g & Hg & _ & q & Hq & Hid).
    exists q. split; [| exact Hid].
    apply (sortBy_In byTimeAsc).
    rewrite <- (clustersOf_concat joins (sortBy byTimeAsc posts)).
    apply in_concat. exists g. auto.
Qed.

(** A run on posts already newest first, none joining the post before
    it in time, changes nothing. *)
Lemma mergeRun_settled (out : list Post) :
  descending out ->
  noLink joins (sortBy byTimeAsc out) = true ->
  mergeRun joins out = Some out.
Proof.
  intros Hd Hn. unfold mergeRun. rewrite (clustersOf_noLink joins _ Hn).
  rewrite map_map.
  change (map (fun x => LocalMerge.mergeOrKeep [x]) (sortBy byTimeAsc out))
    with (map Some (sortBy byTimeAsc out)).
  rewrite sequence_Some, sortDesc_sortAsc; [reflexivity | exact Hd].
Qed.

Lemma mergeRun_descending (posts out : list Post) :
  mergeRun joins posts = Some out -> descending out.
Proof.
  unfold mergeRun. destruct (sequence _); [| discriminate].
  intros [= <-]. apply sortDesc_descending.
Qed.

End MergeRun.

(* ================================================================== *)
(** * The claims *)

Lemma isThought_spec (p : Post) :
  isThought p = true <-> category p = Some thought.
Proof.
  unfold isThought. destruct (category p) as [[|]|]; split; congruence.
Qed.

Lemma isCurated_spec (p : Post) :
  isCurated p = true <-> curated p = Some true.
Proof.
  unfold isCurated. destruct (curated p) as [[|]|]; split; congruence.
Qed.

Lemma existsb_iff {A : Type} (f : A -> bool) (P : A -> Prop) (l : list A) :
  (forall a, f a = true <-> P a) ->
  (existsb f l = true <-> exists a, In a l /\ P a).
Proof.
  intros H. rewrite existsb_exists. split; intros (a & Ha & Hp); exists a;
    (split; [exact Ha | apply H, Hp]).
Qed.

Lemma ascending_strict (l : list Post) :
  ascending l -> NoDup (map getTime l) ->
  StronglySorted (fun a b => getTime a < getTime b) l.
Proof.
  induction 1 as [|x l _ IH Hall]; intros Hnd; constructor.
  - apply IH. inversion Hnd; assumption.
  - inversion Hnd as [|? ? Hx _]; subst.
    rewrite Forall_forall in *. intros y Hy.
    specialize (Hall y Hy). simpl in Hall.
    assert (getTime y <> getTime x).
    { intros E. apply Hx. rewrite <- E. apply in_map, Hy. }
    lia.
Qed.

(** With pairwise distinct times, the sorted order does not depend on the
    order of arrival. *)
Lemma sortAsc_arrival (g g' : list Post) :
  Permutation g g' -> NoDup (map getTime g) ->
  sortBy byTimeAsc g' = sortBy byTimeAsc g.
Proof.
  intros Hp Hnd.
  assert (P1 : Permutation (sortBy byTimeAsc g') (sortBy byTimeAsc g)).
  { eapply perm_trans; [apply sortBy_perm |].
    eapply perm_trans; [apply Permutation_sym, Hp |].
    apply Permutation_sym, sortBy_perm. }
  apply strict_sorted_unique; [| | exact P1].
  - apply ascending_strict; [apply sortAsc_ascending |].
    eapply Permutation_NoDup; [| exact Hnd].
    apply Permutation_map.
    eapply perm_trans; [exact Hp | apply Permutation_sym, sortBy_perm].
  - apply ascending_strict; [apply sortAsc_ascending |].
    eapply Permutation_NoDup; [| exact Hnd].
    apply Permutation_map, Permutation_sym, sortBy_perm.
Qed.

(** C8. For a group of exactly one entry, the merge step of the scripts
    ([thread.length > 1 ? mergeThread(thread) : thread[0]], and the
    finalizing branch of the pattern-based script) returns that entry
    itself, whatever its fields hold, set or unset; a run on a single
    post returns it. *)
Theorem singleton_unchanged (p : Post) :
  LocalMerge.mergeOrKeep [p] = Some p /\
  RuleMerge.finalize [p] = Some p /\
  LocalMerge.main [p] = Some [p] /\
  RuleMerge.main [p] = Some [p].
Proof. repeat split; reflexivity. Qed.

(** C9. The temporal grouper ([groupByTimeProximity], and likewise
    [detectThreads]) returns only non-empty clusters whose concatenation,
    in order, is the input sorted ascending by timestamp: a permutation
    of the input in time order. *)
Theorem grouper_partition (posts : list Post) :
  Forall (fun g => g <> []) (groupByTimeProximity posts) /\
  List.concat (groupByTimeProximity posts) = sortBy byTimeAsc posts /\
  Forall (fun g => g <> []) (LocalMerge.detectThreads posts) /\
  List.concat (LocalMerge.detectThreads posts) = sortBy byTimeAsc posts /\
  Permutation (sortBy byTimeAsc posts) posts /\
  ascending (sortBy byTimeAsc posts).
Proof.
  rewrite groupByTimeProximity_clusters, detectThreads_clusters.
  repeat split.
  - apply clustersOf_nonempty.
  - apply clustersOf_concat.
  - apply clustersOf_nonempty.
  - apply clustersOf_concat.
  - apply sortBy_perm.
  - apply sortAsc_ascending.
Qed.

(** C10. Both rule-based scripts return a collection with at most as
    many entries as their input, and every id of the output is the id of
    an entry of the input. *)
Theorem output_bounded (posts : list Post) :
  (exists out,
      RuleMerge.main posts = Some out /\
      (List.length out <= List.length posts)%nat /\
      forall p, In p out -> exists q, In q posts /\ id p = id q) /\
  (exists out,
      LocalMerge.main posts = Some out /\
      (List.length out <= List.length posts)%nat /\
      forall p, In p out -> exists q, In q posts /\ id p = id q).
Proof.
  rewrite RuleMerge_main_run, LocalMerge_main_run.
  split; apply mergeRun_bounded.
Qed.

(** [parts.join(sep)] is the first part followed by every other part,
    each behind a copy of [sep]. *)
Lemma join_separated (sep first : jsstring) (rest : list jsstring) :
  join sep (first :: rest) = first ++ flat_map (fun part => sep ++ part) rest.
Proof.
  revert first. induction rest as [|x rest IH]; intros first.
  - simpl. rewrite app_nil_r. reflexivity.
  - change (join sep (first :: x :: rest)) with (first ++ sep ++ join sep (x :: rest)).
    rewrite IH. simpl. rewrite <- app_assoc. reflexivity.
Qed.

(** The merged content, code unit by code unit: the first member's
    content, then for every later member two line feeds (code unit 10)
    and that member's content. *)
Lemma merged_content (first : Post) (rest : list Post) :
  join blankLine (map content (first :: rest))
  = content first ++ flat_map (fun p => 10%N :: 10%N :: content p) rest.
Proof.
  change (map content (first :: rest)) with (content first :: map content rest).
  rewrite join_separated. f_equal.
  induction rest as [|x rest IH]; [reflexivity |].
  cbn [map flat_map]. rewrite IH. reflexivity.
Qed.

(** C6. Merging a group of two or more entries gives an entry whose
    content is the members' contents, in ascending-timestamp order
    (a sorted permutation of the group, whatever order it arrived in),
    joined by a blank line: the first member's content, then, for every
    later member in turn, two line feeds and that member's content;
    whose id is that of the first member in that
    order; whose category is "thought" if some member is a thought and
    "update" otherwise; and whose curated flag is true exactly when some
    member's is.  When the members' times are pairwise distinct, every
    arrival order of the group gives this same entry. *)
Theorem merge_multi_member (group : list Post) :
  (2 <= List.length group)%nat ->
  exists first rest m,
    sortBy byTimeAsc group = first :: rest /\
    Permutation (first :: rest) group /\
    ascending (first :: rest) /\
    LocalMerge.mergeThread group = Some m /\
    RuleMerge.mergePosts group = Some m /\
    LocalMerge.mergeOrKeep group = Some m /\
    id m = id first /\
    content m = join blankLine (map content (first :: rest)) /\
    content m
    = content first ++ flat_map (fun p => 10%N :: 10%N :: content p) rest /\
    (category m = Some thought <->
     exists p, In p group /\ category p = Some thought) /\
    (category m = Some update <->
     ~ exists p, In p group /\ category p = Some thought) /\
    (curated m = Some true <->
     exists p, In p group /\ curated p = Some true) /\
    (curated m = Some false <->
     ~ exists p, In p group /\ curated p = Some true) /\
    (forall arrived,
        Permutation group arrived -> NoDup (map getTime group) ->
        LocalMerge.mergeThread arrived = Some m).
Proof.
  intros Hlen.
  destruct group as [|a [|b l]]; [simpl in Hlen; lia | simpl in Hlen; lia |].
  destruct (mergeOrKeep_multi a b l) as (first & rest & Hs & Hm).
  pose proof (existsb_iff isThought _ (a :: b :: l) isThought_spec) as HT.
  pose proof (existsb_iff isCurated _ (a :: b :: l) isCurated_spec) as HC.
  exists first, rest. eexists.
  split; [exact Hs |].
  split; [rewrite <- Hs; apply sortBy_perm |].
  split; [rewrite <- Hs; apply sortAsc_ascending |].
  split; [exact Hm |].
  split; [exact Hm |].
  split; [exact Hm |].
  split; [reflexivity |].
  split; [reflexivity |].
  split; [cbn [content]; apply merged_content |].
  cbn [category curated].
  split; [| split; [| split; [| split]]].
  - rewrite <- HT. destruct (existsb isThought (a :: b :: l)); split; congruence.
  - rewrite <- HT. destruct (existsb isThought (a :: b :: l)); split; congruence.
  - rewrite <- HC. destruct (existsb isCurated (a :: b :: l)); split; congruence.
  - rewrite <- HC. destruct (existsb isCurated (a :: b :: l)); split; congruence.
  - intros arrived Hp Hnd.
    unfold LocalMerge.mergeThread.
    rewrite (sortAsc_arrival _ _ Hp Hnd), Hs.
    unfold mergeSorted. rewrite <- Hs.
    rewrite !(existsb_perm _ _ _ (sortBy_perm byTimeAsc (a :: b :: l))).
    reflexivity.
Qed.

(** The spec's example: "A" at 10:00 and "B" at 10:02, arriving later
    one first; the merged content is the four code units of "A", line
    feed, line feed, "B". *)
Lemma merge_multi_member_witness :
  (2 <= List.length [Samples.tenB; Samples.tenA])%nat /\
  option_map content (LocalMerge.mergeThread [Samples.tenB; Samples.tenA])
  = Some [65; 10; 10; 66]%N /\
  exists first rest m,
    sortBy byTimeAsc [Samples.tenB; Samples.tenA] = first :: rest /\
    Permutation (first :: rest) [Samples.tenB; Samples.tenA] /\
    ascending (first :: rest) /\
    LocalMerge.mergeThread [Samples.tenB; Samples.tenA] = Some m /\
    RuleMerge.mergePosts [Samples.tenB; Samples.tenA] = Some m /\
    LocalMerge.mergeOrKeep [Samples.tenB; Samples.tenA] = Some m /\
    id m = id first /\
    content m = join blankLine (map content (first :: rest)) /\
    content m
    = content first ++ flat_map (fun p => 10%N :: 10%N :: content p) rest /\
    (category m = Some thought <->
     exists p, In p [Samples.tenB; Samples.tenA] /\ category p = Some thought) /\
    (category m = Some update <->
     ~ exists p, In p [Samples.tenB; Samples.tenA] /\ category p = Some thought) /\
    (curated m = Some true <->
     exists p, In p [Samples.tenB; Samples.tenA] /\ curated p = Some true) /\
    (curated m = Some false <->
     ~ exists p, In p [Samples.tenB; Samples.tenA] /\ curated p = Some true) /\
    (forall arrived,
        Permutation [Samples.tenB; Samples.tenA] arrived ->
        NoDup (map getTime [Samples.tenB; Samples.tenA]) ->
        LocalMerge.mergeThread arrived = Some m).
Proof.
  split; [| split].
  - simpl. lia.
  - reflexivity.
  - apply (merge_multi_member [Samples.tenB; Samples.tenA]). simpl. lia.
Defined.

Example merge_ten_oclock :
  option_map content (LocalMerge.mergeThread [Samples.tenB; Samples.tenA])
  = Some [65; 10; 10; 66]%N /\
  option_map content (LocalMerge.mergeThread [Samples.tenA; Samples.tenB])
  = Some [65; 10; 10; 66]%N /\
  option_map content (RuleMerge.mergePosts [Samples.tenB; Samples.tenA])
  = Some [65; 10; 10; 66]%N /\
  lit "A" ++ blankLine ++ lit "B" = [65; 10; 10; 66]%N.
Proof. repeat split; reflexivity. Qed.

(** C7. On a time-sorted input, the clusters of the temporal grouper
    concatenate to the input, and two consecutive entries land in the
    same cluster exactly when their gap does not exceed the threshold.
    So three entries at [t], [t + D], [t + 2D] with [D] within the
    threshold form one cluster, whatever the span from first to last. *)
Theorem grouper_chained (l : list Post) :
  ascending l ->
  List.concat (groupByTimeProximity l) = l /\
  (forall i a b,
      nth_error l i = Some a -> nth_error l (S i) = Some b ->
      (clusterIndex (groupByTimeProximity l) i
       = clusterIndex (groupByTimeProximity l) (S i)
       <-> getTime b - getTime a <= TIME_THRESHOLD_MS)) /\
  (forall a b c D,
      l = [a; b; c] -> 0 <= D <= TIME_THRESHOLD_MS ->
      getTime b = getTime a + D -> getTime c = getTime a + 2 * D ->
      groupByTimeProximity l = [[a; b; c]]).
Proof.
  intros Hasc. rewrite groupByTimeProximity_clusters, (sortAsc_id l Hasc).
  split; [apply clustersOf_concat |]. split.
  - intros i a b Ha Hb. destruct l as [|x l]; [destruct i; discriminate |].
    cbn [clustersOf].
    rewrite (clusters_adjacent withinThreshold l x i a b Ha Hb).
    unfold withinThreshold. apply Z.leb_le.
  - intros a b c D -> HD Hb Hc. cbn [clustersOf clusters].
    unfold withinThreshold.
    replace (getTime b - getTime a <=? TIME_THRESHOLD_MS) with true
      by (symmetry; apply Z.leb_le; lia).
    replace (getTime c - getTime b <=? TIME_THRESHOLD_MS) with true
      by (symmetry; apply Z.leb_le; lia).
    reflexivity.
Qed.

(** Entries at 0, 9 and 18 minutes under the 10 minute threshold. *)
Lemma grouper_chained_witness :
  ascending [Samples.chainA; Samples.chainB; Samples.chainC] /\
  groupByTimeProximity [Samples.chainA; Samples.chainB; Samples.chainC]
  = [[Samples.chainA; Samples.chainB; Samples.chainC]] /\
  TIME_THRESHOLD_MS < getTime Samples.chainC - getTime Samples.chainA.
Proof.
  assert (H : ascending [Samples.chainA; Samples.chainB; Samples.chainC]).
  { repeat constructor; simpl; discriminate. }
  split; [exact H |]. split.
  - apply (proj2 (proj2 (grouper_chained _ H))
             Samples.chainA Samples.chainB Samples.chainC (9 * Samples.minute)).
    + reflexivity.
    + split; discriminate.
    + reflexivity.
    + reflexivity.
  - reflexivity.
Defined.

(** [mergeThread] called on a single post would not return it as it is:
    it fills in a category and a curated flag.  The scripts never call it
    so. *)
Example mergeThread_singleton_defaults :
  LocalMerge.mergeThread [Samples.h2]
  = Some {| id := "h2"; content := lit "Note two";
            timestamp := Samples.minute;
            category := Some update; curated := Some false |}.
Proof. reflexivity. Qed.

(** The spec's end-to-end example: an update at 10:00, a thought at
    10:01 and a post at 10:07 come out unmerged, newest first. *)
Example spec_end_to_end :
  option_map (map id)
    (rulePipeline asciiLower
       [ Samples.post "1" "Completed export." 0 None None;
         Samples.post "2" "So I'm going to rewrite the importer next."
                      Samples.minute None None;
         Samples.post "3" "It'll take about two days."
                      (7 * Samples.minute) None None ])
  = Some ["3"; "2"; "1"].
Proof. vm_compute. reflexivity. Qed.

Lemma clustersOf_adjacent (joins : Post -> Post -> bool) (l : list Post)
  (i : nat) (a b : Post) :
  nth_error l i = Some a -> nth_error l (S i) = Some b ->
  (clusterIndex (clustersOf joins l) i = clusterIndex (clustersOf joins l) (S i)
   <-> joins a b = true).
Proof.
  destruct l as [|x l]; [destruct i; discriminate |].
  apply clusters_adjacent.
Qed.

Lemma nth_error_middle {A : Type} (before after : list A) (a b : A) :
  nth_error (before ++ a :: b :: after) (List.length before) = Some a /\
  nth_error (before ++ a :: b :: after) (S (List.length before)) = Some b.
Proof.
  induction before as [|x before IH]; simpl; [split; reflexivity | exact IH].
Qed.

(** C1, as the code has it.  [shouldMerge] refuses every pair whose
    categories differ and of which at least one matches a
    standalone-update pattern, whatever the time gap; so when two such
    posts are next to each other in time, [main] closes the thread
    between them.  (Posts of the same category are not vetoed, and a
    thread is judged pair by pair, so a standalone-update entry can still
    share a thread with a thought.) *)
Theorem standalone_veto (post1 post2 : Post) :
  categoryDiffers post1 post2 = true ->
  RuleMerge.isStandaloneUpdate (content post1)
  || RuleMerge.isStandaloneUpdate (content post2) = true ->
  RuleMerge.shouldMerge post1 post2 = false /\
  forall posts before after,
    sortBy byTimeAsc posts = before ++ post1 :: post2 :: after ->
    let threads :=
      sweep RuleMerge.shouldMerge (fun currentThread => currentThread)
            (sortBy byTimeAsc posts) in
    clusterIndex threads (List.length before)
    <> clusterIndex threads (S (List.length before)).
Proof.
  intros Hd Hs.
  assert (Hno : RuleMerge.shouldMerge post1 post2 = false).
  { unfold RuleMerge.shouldMerge. rewrite Hd, Hs. reflexivity. }
  split; [exact Hno |].
  intros posts before after Hsorted threads. subst threads.
  rewrite sweep_clusters, map_id, Hsorted.
  destruct (nth_error_middle before after post1 post2) as [H1 H2].
  rewrite (clustersOf_adjacent RuleMerge.shouldMerge _ _ _ _ H1 H2).
  rewrite Hno. discriminate.
Qed.

(** "Completed the draft" (update) and, two minutes later, "So I'm going
    to rest" (thought). *)
Lemma standalone_veto_witness :
  categoryDiffers Samples.done1 Samples.plan1 = true /\
  RuleMerge.isStandaloneUpdate (content Samples.done1)
  || RuleMerge.isStandaloneUpdate (content Samples.plan1) = true /\
  RuleMerge.shouldMerge Samples.done1 Samples.plan1 = false /\
  RuleMerge.main [Samples.plan1; Samples.done1]
  = Some [Samples.plan1; Samples.done1].
Proof.
  assert (H1 : categoryDiffers Samples.done1 Samples.plan1 = true)
    by reflexivity.
  assert (H2 : RuleMerge.isStandaloneUpdate (content Samples.done1)
               || RuleMerge.isStandaloneUpdate (content Samples.plan1) = true)
    by (vm_compute; reflexivity).
  split; [exact H1 |]. split; [exact H2 |]. split.
  - exact (proj1 (standalone_veto Samples.done1 Samples.plan1 H1 H2)).
  - vm_compute. reflexivity.
Defined.

(** C1 fails as stated.  "Completed the draft" matches a
    standalone-update pattern and is an update; "And sent it over" is an
    update that continues it; "So I'm going to rest" is a thought that
    continues that.  Each pair passes [shouldMerge], the three form one
    thread, and [main] merges them into one thought.  Likewise a thought
    that opens with "Gym" is merged with the thought that continues it.
    The categories are those the local classifier assigns. *)
Lemma standalone_merged :
  RuleMerge.isStandaloneUpdate (content Samples.done1) = true /\
  category Samples.done1 = Some update /\
  category Samples.plan1 = Some thought /\
  map (Classifier.categorize asciiLower)
      [Samples.done1; Samples.more1; Samples.plan1]
  = [Samples.done1; Samples.more1; Samples.plan1] /\
  sweep RuleMerge.shouldMerge (fun currentThread => currentThread)
        (sortBy byTimeAsc [Samples.done1; Samples.more1; Samples.plan1])
  = [[Samples.done1; Samples.more1; Samples.plan1]] /\
  RuleMerge.main [Samples.done1; Samples.more1; Samples.plan1]
  = Some [ {| id := "u1";
              content := lit "Completed the draft" ++ blankLine
                         ++ lit "And sent it over" ++ blankLine
                         ++ lit "So I'm going to rest";
              timestamp := 0;
              category := Some thought;
              curated := Some false |} ] /\
  RuleMerge.isStandaloneUpdate (content Samples.gym1) = true /\
  Classifier.categorize asciiLower Samples.gym1 = Samples.gym1 /\
  Classifier.categorize asciiLower Samples.gym2 = Samples.gym2 /\
  RuleMerge.shouldMerge Samples.gym1 Samples.gym2 = true /\
  option_map (map id) (RuleMerge.main [Samples.gym1; Samples.gym2])
  = Some ["g1"].
Proof. vm_compute. repeat split; reflexivity. Qed.

(** As many clusters as posts only when no post joins the one before
    it. *)
Lemma clusters_count (joins : Post -> Post -> bool) (l : list Post) :
  forall x,
    (List.length (clusters joins x l) <= S (List.length l))%nat /\
    (List.length (clusters joins x l) = S (List.length l) ->
     noLink joins (x :: l) = true).
Proof.
  induction l as [|y l IH]; intros x; [split; [simpl; lia | reflexivity] |].
  destruct (IH y) as [Hle Heq]. cbn [clusters noLink].
  destruct (clusters_head joins y l) as (g & gs & Hc).
  destruct (joins x y).
  - rewrite Hc in *. cbn [List.length] in *. split; [lia | intros E; lia].
  - cbn [List.length negb andb]. split; [lia |].
    intros E. apply Heq. lia.
Qed.

Lemma mergeRun_fixed (joins : Post -> Post -> bool) (out : list Post) :
  mergeRun joins out = Some out ->
  noLink joins (sortBy byTimeAsc out) = true.
Proof.
  intros Hrun.
  destruct (mergeRun_some joins out) as (merged & Hm & Hall).
  rewrite Hrun in Hm. injection Hm as Hm.
  assert (Hlen : List.length (clustersOf joins (sortBy byTimeAsc out))
                 = List.length (sortBy byTimeAsc out)).
  { rewrite (Forall2_length Hall), sortBy_length.
    rewrite <- (sortBy_length byTimeDesc merged). f_equal. congruence. }
  destruct (sortBy byTimeAsc out) as [|x l]; [reflexivity |].
  apply (clusters_count joins l x). exact Hlen.
Qed.

(** C2, as the code has it.  Take an output of the full pipeline (the
    classifier, then either rule-based merge script) to which the
    classifier gives back every category and curated flag as it is.  A
    second run of the pipeline returns that output unchanged if, and
    only if, no entry of it, taken in time order, joins the entry before
    it under the script's merge condition. *)
Theorem rerun_settled (toLowerCase : jsstring -> jsstring) (s : Script)
  (posts out : list Post) :
  runPipeline toLowerCase s posts = Some out ->
  Classifier.main toLowerCase out = out ->
  (runPipeline toLowerCase s out = Some out <->
   noLink (joinsOf s) (sortBy byTimeAsc out) = true).
Proof.
  unfold runPipeline. intros Hrun Hsame. rewrite Hsame.
  assert (E : forall l, runScript s l = mergeRun (joinsOf s) l).
  { intros l. destruct s; [apply RuleMerge_main_run | apply LocalMerge_main_run]. }
  rewrite E in *. split.
  - apply mergeRun_fixed.
  - intros Hn. apply mergeRun_settled; [| exact Hn].
    eapply mergeRun_descending, Hrun.
Qed.

(** Three unclassified posts: a short thought, and four minutes later
    another with its continuation.  The first run classifies the three
    as thoughts and merges the last two; its output has two entries, four
    minutes apart and both thoughts, and yet the merged one does not join
    the short one: it opens with no continuation pattern and the short
    one is under a hundred characters.  The classifier leaves both as
    they are, and the second run returns the output as it is. *)
Lemma rerun_settled_witness :
  runPipeline asciiLower PatternScript
              (map Samples.raw [Samples.calm; Samples.r2; Samples.r3])
  = Some [Samples.r23; Samples.calm] /\
  getTime Samples.r23 - getTime Samples.calm <= RuleMerge.TIME_THRESHOLD_MS /\
  Classifier.main asciiLower [Samples.r23; Samples.calm]
  = [Samples.r23; Samples.calm] /\
  noLink RuleMerge.shouldMerge (sortBy byTimeAsc [Samples.r23; Samples.calm])
  = true /\
  runPipeline asciiLower PatternScript [Samples.r23; Samples.calm]
  = Some [Samples.r23; Samples.calm].
Proof.
  assert (H1 : runPipeline asciiLower PatternScript
                 (map Samples.raw [Samples.calm; Samples.r2; Samples.r3])
               = Some [Samples.r23; Samples.calm])
    by (vm_compute; reflexivity).
  assert (H2 : Classifier.main asciiLower [Samples.r23; Samples.calm]
               = [Samples.r23; Samples.calm])
    by (vm_compute; reflexivity).
  assert (H3 : noLink (joinsOf PatternScript)
                      (sortBy byTimeAsc [Samples.r23; Samples.calm]) = true)
    by (vm_compute; reflexivity).
  split; [exact H1 |].
  split; [vm_compute; discriminate |].
  split; [exact H2 |]. split; [exact H3 |].
  exact (proj2 (rerun_settled asciiLower PatternScript _ _ H1 H2) H3).
Defined.

(** Without the classifier in between, the merge scripts alone settle
    under the second condition alone. *)
Lemma merge_rerun_settled (s : Script) (posts out : list Post) :
  runScript s posts = Some out ->
  noLink (joinsOf s) (sortBy byTimeAsc out) = true ->
  runScript s out = Some out.
Proof.
  intros Hrun Hn.
  assert (E : forall l, runScript s l = mergeRun (joinsOf s) l).
  { intros l. destruct s; [apply RuleMerge_main_run | apply LocalMerge_main_run]. }
  rewrite E in *. apply mergeRun_settled; [| exact Hn].
  eapply mergeRun_descending, Hrun.
Qed.

(** The first condition is needed.  Three unclassified posts a minute
    apart are merged into one thought whose content opens with
    "Completed "; nothing is left for it to join, but the classifier of
    the second run calls it an update. *)
Example rerun_reclassifies :
  let input := map Samples.raw [Samples.done1; Samples.more1; Samples.plan1] in
  exists merged,
    rulePipeline asciiLower input = Some [merged] /\
    category merged = Some thought /\
    noLink RuleMerge.shouldMerge (sortBy byTimeAsc [merged]) = true /\
    rulePipeline asciiLower [merged]
    = Some [ {| id := id merged; content := content merged;
                timestamp := timestamp merged;
                category := Some update; curated := Some false |} ].
Proof.
  intros input. eexists.
  split; [vm_compute; reflexivity |].
  split; [reflexivity |]. split; [reflexivity |].
  vm_compute. reflexivity.
Qed.

(** C2 fails as stated.  Pattern script: the first run merges r2 with
    its continuation r3 and leaves the long thought r1 alone; in the
    second run the merged entry is long enough to count as a substantial
    thought next to r1, and the two are merged.  Local script: the first
    run merges the two short updates q2 and q3; in the second run the
    merged entry is long enough to count as a thought next to q1.  The
    same happens when the classifier runs before each merge. *)
Lemma rerun_changes_output :
  (option_map (map id) (RuleMerge.main [Samples.r1; Samples.r2; Samples.r3])
   = Some ["r2"; "r1"] /\
   option_map (map id)
     (again RuleMerge.main (RuleMerge.main [Samples.r1; Samples.r2; Samples.r3]))
   = Some ["r1"]) /\
  (option_map (map id) (LocalMerge.main [Samples.q1; Samples.q2; Samples.q3])
   = Some ["q2"; "q1"] /\
   option_map (map id)
     (again LocalMerge.main (LocalMerge.main [Samples.q1; Samples.q2; Samples.q3]))
   = Some ["q1"]) /\
  (let input := map Samples.raw [Samples.r1; Samples.r2; Samples.r3] in
   option_map (map id) (rulePipeline asciiLower input) = Some ["r2"; "r1"] /\
   option_map (map id)
     (again (rulePipeline asciiLower) (rulePipeline asciiLower input))
   = Some ["r1"]) /\
  (let input := map Samples.raw [Samples.q1; Samples.q2; Samples.q3] in
   option_map (map id) (localPipeline asciiLower input) = Some ["q2"; "q1"] /\
   option_map (map id)
     (again (localPipeline asciiLower) (localPipeline asciiLower input))
   = Some ["q1"]).
Proof. vm_compute. repeat split; reflexivity. Qed.

Lemma nth_error_seq {A : Type} (l : list A) :
  map (nth_error l) (seq 0 (List.length l)) = map Some l.
Proof.
  induction l as [|a l IH]; [reflexivity |].
  cbn [List.length seq map nth_error]. f_equal.
  rewrite <- seq_shift, map_map. exact IH.
Qed.

Lemma pushFor_singletons (group : list Post) :
  map (Narrative.pushFor group) (Narrative.singletons group)
  = map (fun p => Some (Some p)) group.
Proof.
  unfold Narrative.singletons. rewrite map_map.
  transitivity (map (fun i => Some (nth_error group i))
                    (seq 0 (List.length group))).
  - apply map_ext. intros i. unfold Narrative.pushFor, Narrative.at_.
    cbn [map List.length Nat.ltb Nat.leb].
    destruct (Z.ltb_spec (Z.of_nat i) 0); [lia |].
    rewrite Nat2Z.id. reflexivity.
  - rewrite <- (map_map (nth_error group) Some), nth_error_seq, map_map.
    reflexivity.
Qed.

Lemma sequence_pushed (group : list Post) :
  sequence (map (fun p => Some (Some p)) group) = Some (map Some group).
Proof.
  rewrite <- (map_map Some Some). apply sequence_Some.
Qed.

Lemma sortDescU_defined (l : list Post) :
  Narrative.sortDescU (map Some l) = map Some (sortBy byTimeDesc l).
Proof.
  unfold Narrative.sortDescU.
  assert (E : flat_map (fun o : option Post =>
                          match o with Some p => [p] | None => [] end)
                       (map Some l) = l).
  { induction l as [|a l IH]; simpl; [reflexivity | rewrite IH; reflexivity]. }
  rewrite E, length_map, Nat.sub_diag. apply app_nil_r.
Qed.

Lemma concat_map_map {A C : Type} (f : A -> C) (gs : list (list A)) :
  List.concat (map (map f) gs) = map f (List.concat gs).
Proof.
  induction gs as [|g gs IH]; simpl; [reflexivity |].
  rewrite map_app, IH. reflexivity.
Qed.

Lemma grouper_partition_aux (posts : list Post) :
  Forall (fun g => g <> []) (groupByTimeProximity posts) /\
  List.concat (groupByTimeProximity posts) = sortBy byTimeAsc posts.
Proof.
  rewrite groupByTimeProximity_clusters.
  split; [apply clustersOf_nonempty | apply clustersOf_concat].
Qed.

(** C3, as the code has it.  When the answer for a time group does not
    parse (no bracketed text, or [JSON.parse] throws), the script pushes
    every member of the group as its own entry and does not throw; when
    that is so for every time group of a run, the run returns all posts,
    none merged, newest first.  (An answer that parses is used as it
    is.) *)
Theorem unparseable_fallback (oracle : list Post -> Narrative.Reply)
  (group : list Post) :
  oracle group = Narrative.NoMatch \/ oracle group = Narrative.ParseError ->
  Narrative.processGroup oracle group = Some (map Some group) /\
  forall posts,
    (forall g, In g (groupByTimeProximity posts) ->
               oracle g = Narrative.NoMatch \/ oracle g = Narrative.ParseError) ->
    Narrative.main oracle posts
    = Some (map Some (sortBy byTimeDesc (sortBy byTimeAsc posts))).
Proof.
  assert (Hgroup : forall g,
             oracle g = Narrative.NoMatch \/ oracle g = Narrative.ParseError ->
             Narrative.processGroup oracle g = Some (map Some g)).
  { intros g Hbad. unfold Narrative.processGroup.
    destruct (List.length g =? 1)%nat eqn:E.
    - destruct g as [|p [|q l]]; try discriminate. reflexivity.
    - assert (Ha : Narrative.analyzeThreadGroup (oracle g) g
                   = Narrative.singletons g)
        by (destruct Hbad as [-> | ->]; reflexivity).
      rewrite Ha, pushFor_singletons. apply sequence_pushed. }
  intros Hbad. split; [apply Hgroup, Hbad |].
  intros posts Hall. unfold Narrative.main.
  assert (Hseq : sequence (map (Narrative.processGroup oracle)
                               (groupByTimeProximity posts))
                 = Some (map (map Some) (groupByTimeProximity posts))).
  { revert Hall. generalize (groupByTimeProximity posts) as gs.
    induction gs as [|g gs IH]; intros Hg; [reflexivity |].
    cbn [map sequence]. rewrite (Hgroup g (Hg g (or_introl eq_refl))).
    rewrite IH; [reflexivity |]. intros g' Hg'. apply Hg. right. exact Hg'. }
  rewrite Hseq, concat_map_map, sortDescU_defined.
  destruct (grouper_partition_aux posts) as [_ ->]. reflexivity.
Qed.

(** Three posts in one time group, and a model answer with no bracketed
    text. *)
Lemma unparseable_fallback_witness :
  ((fun _ : list Post => Narrative.NoMatch)
     [Samples.n1; Samples.n2; Samples.n3] = Narrative.NoMatch \/
   (fun _ : list Post => Narrative.NoMatch)
     [Samples.n1; Samples.n2; Samples.n3] = Narrative.ParseError) /\
  Narrative.processGroup (fun _ => Narrative.NoMatch)
                         [Samples.n1; Samples.n2; Samples.n3]
  = Some [Some Samples.n1; Some Samples.n2; Some Samples.n3] /\
  Narrative.main (fun _ => Narrative.NoMatch)
                 [Samples.n1; Samples.n2; Samples.n3]
  = Some [Some Samples.n3; Some Samples.n2; Some Samples.n1].
Proof.
  assert (H : (fun _ : list Post => Narrative.NoMatch)
                [Samples.n1; Samples.n2; Samples.n3] = Narrative.NoMatch \/
              (fun _ : list Post => Narrative.NoMatch)
                [Samples.n1; Samples.n2; Samples.n3] = Narrative.ParseError)
    by (left; reflexivity).
  split; [exact H |]. split.
  - exact (proj1 (unparseable_fallback (fun _ => Narrative.NoMatch) _ H)).
  - exact (proj2 (unparseable_fallback (fun _ => Narrative.NoMatch) _ H)
                 [Samples.n1; Samples.n2; Samples.n3]
                 (fun g _ => or_introl eq_refl)).
Defined.

(** C3 fails as stated on an answer that parses.  For the one time group
    [n1; n2; n3]: a partition that omits index 2 drops n3; one that
    repeats index 0 returns n1 twice; one that names index 7 inside a
    group of two makes [mergePosts] throw, and the run ends with nothing
    written; index 7 on its own is pushed as [undefined]. *)
Lemma corrupt_partition_used :
  Narrative.main (fun _ => Narrative.Parsed [[0]; [1]])
                 [Samples.n1; Samples.n2; Samples.n3]
  = Some [Some Samples.n2; Some Samples.n1] /\
  Narrative.main (fun _ => Narrative.Parsed [[0]; [0]; [1]; [2]])
                 [Samples.n1; Samples.n2; Samples.n3]
  = Some [Some Samples.n3; Some Samples.n2; Some Samples.n1; Some Samples.n1] /\
  Narrative.main (fun _ => Narrative.Parsed [[0; 7]; [1]; [2]])
                 [Samples.n1; Samples.n2; Samples.n3]
  = None /\
  Narrative.main (fun _ => Narrative.Parsed [[7]; [0]; [1]; [2]])
                 [Samples.n1; Samples.n2; Samples.n3]
  = Some [Some Samples.n3; Some Samples.n2; Some Samples.n1; None].
Proof. vm_compute. repeat split; reflexivity. Qed.

(** C4, as the code has it.  In the local classifier a content whose
    trimmed text matches an update pattern is an update, not curated,
    whatever thought patterns it matches as well.  In the Twitter import
    classifier a text that matches an update pattern is an update unless
    it also matches a thought pattern and is longer than 150 code units,
    in which case it is a thought. *)
Theorem update_precedence (content : jsstring) :
  (anyTest Classifier.UPDATE_PATTERNS (trim content) = true ->
   forall toLowerCase,
     Classifier.categorizePost toLowerCase content = (update, false)) /\
  (anyTest TwitterImport.UPDATE_PATTERNS content = true ->
   fst (TwitterImport.categorizePost content)
   = if anyTest TwitterImport.THOUGHT_PATTERNS content && (150 <? len content)
     then thought else update).
Proof.
  split.
  - intros H toLowerCase. unfold Classifier.categorizePost.
    cbv zeta. rewrite H. reflexivity.
  - intros H. unfold TwitterImport.categorizePost. cbv zeta. rewrite H.
    destruct (anyTest TwitterImport.THOUGHT_PATTERNS content);
      destruct (150 <? len content); reflexivity.
Qed.

(** A text that opens with "Completed " and holds "strategy", a thought
    pattern of the local classifier; and, for the import classifier, a
    short text that opens with "Completed" and holds "decided to". *)
Lemma update_precedence_witness :
  (anyTest Classifier.UPDATE_PATTERNS
           (trim (lit "  Completed the pricing strategy doc ")) = true /\
   anyTest Classifier.THOUGHT_PATTERNS
           (trim (lit "  Completed the pricing strategy doc ")) = true /\
   Classifier.categorizePost asciiLower
     (lit "  Completed the pricing strategy doc ") = (update, false)) /\
  (anyTest TwitterImport.UPDATE_PATTERNS
           (lit "Completed the plan and decided to ship") = true /\
   anyTest TwitterImport.THOUGHT_PATTERNS
           (lit "Completed the plan and decided to ship") = true /\
   fst (TwitterImport.categorizePost
          (lit "Completed the plan and decided to ship")) = update).
Proof.
  assert (H1 : anyTest Classifier.UPDATE_PATTERNS
                 (trim (lit "  Completed the pricing strategy doc ")) = true)
    by (vm_compute; reflexivity).
  assert (H2 : anyTest TwitterImport.UPDATE_PATTERNS
                 (lit "Completed the plan and decided to ship") = true)
    by (vm_compute; reflexivity).
  split; (split; [assumption | split; [vm_compute; reflexivity |]]).
  - exact (proj1 (update_precedence _) H1 asciiLower).
  - rewrite (proj2 (update_precedence _) H2). vm_compute. reflexivity.
Defined.

(** C4 fails as stated on the Twitter import classifier: a text of 152
    code units that opens with "Completed" (an update pattern) and holds
    "decided to" (a thought pattern) is classified a thought. *)
Lemma long_update_is_thought :
  anyTest TwitterImport.UPDATE_PATTERNS (lit Samples.longBoth) = true /\
  anyTest TwitterImport.THOUGHT_PATTERNS (lit Samples.longBoth) = true /\
  len (lit Samples.longBoth) = 152 /\
  TwitterImport.categorizePost (lit Samples.longBoth) = (thought, false).
Proof. vm_compute. repeat split; reflexivity. Qed.

(** When the merged entry keeps curated off as an update: exactly when
    some member is a thought (the merge is then a thought) or no member
    is curated (the merge is then not curated). *)
Lemma mergeSorted_exclusive (sorted : list Post) :
  sorted <> [] ->
  exists m,
    mergeSorted sorted = Some m /\
    (exclusive m <->
     (exists p, In p sorted /\ category p = Some thought) \/
     ~ (exists p, In p sorted /\ curated p = Some true)).
Proof.
  intros Hne.
  destruct sorted as [|first rest]; [contradiction |].
  eexists. split; [reflexivity |].
  pose proof (existsb_iff isThought _ (first :: rest) isThought_spec) as HT.
  pose proof (existsb_iff isCurated _ (first :: rest) isCurated_spec) as HC.
  unfold exclusive. cbn [category curated].
  rewrite <- HT, <- HC.
  destruct (existsb isThought (first :: rest)), (existsb isCurated (first :: rest));
    split; intros H;
    try (left; reflexivity); try (right; discriminate);
    try (intros [? ?]; discriminate).
  - exfalso. apply H. split; reflexivity.
  - destruct H as [H | H]; [discriminate | exfalso; apply H; reflexivity].
Qed.

(** C5, as the code has it.  Neither classifier returns "update" with
    curated true, for any content.  Merging a non-empty group gives an
    entry that is an update with curated true exactly when no member is
    a thought and some member is curated; so the merge of a group in
    which every curated member is a thought is never an update with
    curated true. *)
Theorem update_never_curated :
  (forall toLowerCase content,
      Classifier.categorizePost toLowerCase content <> (update, true)) /\
  (forall content, TwitterImport.categorizePost content <> (update, true)) /\
  (forall toLowerCase post, exclusive (Classifier.categorize toLowerCase post)) /\
  (forall group,
      group <> [] ->
      exists m,
        LocalMerge.mergeThread group = Some m /\
        RuleMerge.mergePosts group = Some m /\
        (exclusive m <->
         (exists p, In p group /\ category p = Some thought) \/
         ~ (exists p, In p group /\ curated p = Some true)) /\
        ((forall p, In p group ->
                    curated p = Some true -> category p = Some thought) ->
         exclusive m)).
Proof.
  assert (HC : forall toLowerCase content,
             Classifier.categorizePost toLowerCase content <> (update, true)).
  { intros toLowerCase content. unfold Classifier.categorizePost. cbv zeta.
    repeat match goal with
           | |- context [if ?b then _ else _] => destruct b
           end; discriminate. }
  split; [exact HC |]. split; [| split].
  - intros content. unfold TwitterImport.categorizePost. cbv zeta.
    repeat match goal with
           | |- context [if ?b then _ else _] => destruct b
           end; cbn; try discriminate;
      destruct (anyTest TwitterImport.CURATED_INDICATORS content); discriminate.
  - intros toLowerCase post. unfold exclusive, Classifier.categorize.
    specialize (HC toLowerCase (content post)).
    destruct (Classifier.categorizePost toLowerCase (content post)) as [c k].
    cbn [category curated]. intros [[= ->] [= ->]]. apply HC. reflexivity.
  - intros group Hne.
    destruct (mergeSorted_exclusive (sortBy byTimeAsc group))
      as (m & Hm & He).
    { intros E. apply Hne. apply length_zero_iff_nil.
      rewrite <- (sortBy_length byTimeAsc group), E. reflexivity. }
    assert (Hiff : exclusive m <->
                   (exists p, In p group /\ category p = Some thought) \/
                   ~ (exists p, In p group /\ curated p = Some true)).
    { rewrite He. split.
      - intros [(p & Hp & H) | H].
        + left. exists p. split; [apply (sortBy_In byTimeAsc), Hp | exact H].
        + right. intros (p & Hp & Hk). apply H. exists p.
          split; [apply (sortBy_In byTimeAsc), Hp | exact Hk].
      - intros [(p & Hp & H) | H].
        + left. exists p. split; [apply (sortBy_In byTimeAsc), Hp | exact H].
        + right. intros (p & Hp & Hk). apply H. exists p.
          split; [apply (sortBy_In byTimeAsc), Hp | exact Hk]. }
    exists m. split; [exact Hm |]. split; [exact Hm |]. split; [exact Hiff |].
    intros Hall. apply Hiff.
    destruct (existsb isCurated group) eqn:EC.
    + apply existsb_exists in EC. destruct EC as (p & Hp & Hk).
      apply isCurated_spec in Hk. left. exists p. split; [exact Hp |].
      apply Hall; assumption.
    + right. intros (p & Hp & Hk).
      assert (existsb isCurated group = true).
      { apply existsb_exists. exists p. split; [exact Hp |].
        apply isCurated_spec, Hk. }
      congruence.
Qed.

(** A post with neither field set, as the command-line tool writes it,
    a thought flagged curated, and an update; and the first and the last
    of them alone, whose merge is an update. *)
Lemma update_never_curated_witness :
  [Samples.h2; Samples.tenB; Samples.done1] <> [] /\
  (forall p, In p [Samples.h2; Samples.tenB; Samples.done1] ->
             curated p = Some true -> category p = Some thought) /\
  (exists m,
      LocalMerge.mergeThread [Samples.h2; Samples.tenB; Samples.done1] = Some m /\
      RuleMerge.mergePosts [Samples.h2; Samples.tenB; Samples.done1] = Some m /\
      category m = Some thought /\ curated m = Some true /\
      exclusive m) /\
  (exists m,
      LocalMerge.mergeThread [Samples.h2; Samples.done1] = Some m /\
      RuleMerge.mergePosts [Samples.h2; Samples.done1] = Some m /\
      category m = Some update /\ curated m = Some false /\
      exclusive m).
Proof.
  assert (H0 : [Samples.h2; Samples.tenB; Samples.done1] <> []) by discriminate.
  assert (H1 : forall p, In p [Samples.h2; Samples.tenB; Samples.done1] ->
                         curated p = Some true -> category p = Some thought).
  { intros p [<- | [<- | [<- | []]]] H; (discriminate || reflexivity). }
  assert (H0' : [Samples.h2; Samples.done1] <> []) by discriminate.
  assert (H1' : forall p, In p [Samples.h2; Samples.done1] ->
                          curated p = Some true -> category p = Some thought).
  { intros p [<- | [<- | []]] H; discriminate. }
  split; [exact H0 |]. split; [exact H1 |]. split.
  - destruct (proj2 (proj2 (proj2 update_never_curated)) _ H0)
      as (m & Hm & Hm' & _ & He).
    exists m. split; [exact Hm |]. split; [exact Hm' |].
    assert (E : Some m = LocalMerge.mergeThread
                           [Samples.h2; Samples.tenB; Samples.done1])
      by (symmetry; exact Hm).
    vm_compute in E. injection E as E.
    split; [rewrite E; reflexivity |]. split; [rewrite E; reflexivity |].
    exact (He H1).
  - destruct (proj2 (proj2 (proj2 update_never_curated)) _ H0')
      as (m & Hm & Hm' & _ & He).
    exists m. split; [exact Hm |]. split; [exact Hm' |].
    assert (E : Some m = LocalMerge.mergeThread [Samples.h2; Samples.done1])
      by (symmetry; exact Hm).
    vm_compute in E. injection E as E.
    split; [rewrite E; reflexivity |]. split; [rewrite E; reflexivity |].
    exact (He H1').
Defined.

(** C5 fails as stated on entries without a category.  h1 is flagged
    curated and has no category, h2 has neither; each keeps curated off
    when it is an update, having no category at all.  Their merge has no
    thought among its members, so it is an update, and it is curated. *)
Lemma unclassified_curated_merge :
  exclusive Samples.h1 /\ exclusive Samples.h2 /\
  exists m,
    LocalMerge.mergeThread [Samples.h1; Samples.h2] = Some m /\
    RuleMerge.mergePosts [Samples.h1; Samples.h2] = Some m /\
    category m = Some update /\ curated m = Some true /\
    ~ exclusive m.
Proof.
  split; [intros [H _]; discriminate |].
  split; [intros [H _]; discriminate |].
  eexists. split; [vm_compute; reflexivity |].
  split; [vm_compute; reflexivity |].
  split; [reflexivity |]. split; [reflexivity |].
  intros H. apply H. split; reflexivity.
Qed.

(* ================================================================== *)
(** * Further properties of the scripts *)

(** ** The pattern-based merge decision *)

Lemma categoryDiffers_sym (p q : Post) :
  categoryDiffers p q = categoryDiffers q p.
Proof.
  unfold categoryDiffers.
  destruct (category p) as [[|]|], (category q) as [[|]|]; reflexivity.
Qed.

(** With every date parsing, the tests on numbers are the tests on
    instants. *)
Lemma allParse_tests (post1 post2 : Post) :
  Dated.shouldMerge Dated.allParse post1 post2
  = RuleMerge.shouldMerge post1 post2 /\
  Dated.sameThread Dated.allParse post1 post2
  = LocalMerge.sameThread post1 post2 /\
  Dated.withinThreshold Dated.allParse post1 post2
  = withinThreshold post1 post2.
Proof. repeat split; reflexivity. Qed.

Lemma clusters_ext (f g : Post -> Post -> bool) :
  (forall a b, f a b = g a b) ->
  forall l x, clusters f x l = clusters g x l.
Proof.
  intros E. induction l as [|y l IH]; intros x; [reflexivity |].
  cbn [clusters]. rewrite E, IH. reflexivity.
Qed.

Lemma allParse_loops (posts : list Post) :
  ruleThreads posts = Dated.mainThreads Dated.allParse (sortBy byTimeAsc posts) /\
  LocalMerge.detectThreads posts
  = Dated.detectThreads Dated.allParse (sortBy byTimeAsc posts) /\
  groupByTimeProximity posts
  = Dated.groupByTimeProximity Dated.allParse (sortBy byTimeAsc posts).
Proof.
  unfold ruleThreads, LocalMerge.detectThreads, groupByTimeProximity,
    Dated.mainThreads, Dated.detectThreads, Dated.groupByTimeProximity.
  cbv zeta. rewrite !sweep_clusters.
  unfold clustersOf.
  destruct (sortBy byTimeAsc posts) as [|x l]; [repeat split; reflexivity |].
  repeat split; f_equal; apply clusters_ext; intros a b; symmetry;
    apply allParse_tests.
Qed.

Lemma shouldMerge_near (parsedTime : Post -> Dated.Number)
  (post1 post2 : Post) (time1 time2 : Z) :
  Dated.shouldMerge parsedTime post1 post2 = true ->
  parsedTime post1 = Some time1 -> parsedTime post2 = Some time2 ->
  Z.abs (time2 - time1) <= 5 * 60 * 1000.
Proof.
  unfold Dated.shouldMerge. cbv zeta. intros H E1 E2. rewrite E1, E2 in H.
  destruct (_ && _); [discriminate |].
  destruct (_ && _); [discriminate |].
  cbn [Dated.sub Dated.abs Dated.gt] in H.
  destruct (Z.ltb_spec RuleMerge.TIME_THRESHOLD_MS (Z.abs (time2 - time1)))
    as [Hfar | Hnear]; [discriminate |].
  exact Hnear.
Qed.

(** X1. Whenever [shouldMerge] accepts a pair, then, if both dates
    parse, the two posts are at most five minutes apart; they are not
    both standalone updates, neither is a standalone update if their
    categories differ, and either the later one opens with a
    continuation marker or both are thoughts longer than 100 code units.
    The later one is the second post when both dates parse and the
    second is strictly later, and the first post otherwise.  When a date
    does not parse the time test is passed whatever the other date:
    the answer is the one for two dates that do not parse. *)
Theorem shouldMerge_requires (parsedTime : Post -> Dated.Number)
  (post1 post2 : Post) :
  Dated.shouldMerge parsedTime post1 post2 = true ->
  (forall time1 time2,
      parsedTime post1 = Some time1 -> parsedTime post2 = Some time2 ->
      Z.abs (time2 - time1) <= 5 * 60 * 1000) /\
  (RuleMerge.isStandaloneUpdate (content post1) = false \/
   RuleMerge.isStandaloneUpdate (content post2) = false) /\
  (categoryDiffers post1 post2 = true ->
   RuleMerge.isStandaloneUpdate (content post1) = false /\
   RuleMerge.isStandaloneUpdate (content post2) = false) /\
  (let laterPost :=
     match parsedTime post1, parsedTime post2 with
     | Some time1, Some time2 => if time1 <? time2 then post2 else post1
     | _, _ => post1
     end in
   RuleMerge.isContinuation (content laterPost) = true \/
   (category post1 = Some thought /\ category post2 = Some thought /\
    100 < len (content post1) /\ 100 < len (content post2))) /\
  (parsedTime post1 = None \/ parsedTime post2 = None ->
   Dated.shouldMerge (fun _ => None) post1 post2 = true).
Proof.
  intros H.
  split; [intros time1 time2; apply shouldMerge_near; exact H |].
  assert (Hlater :
            (if Dated.gt (parsedTime post2) (parsedTime post1)
             then post2 else post1)
            = match parsedTime post1, parsedTime post2 with
              | Some time1, Some time2 => if time1 <? time2 then post2 else post1
              | _, _ => post1
              end).
  { destruct (parsedTime post1), (parsedTime post2); reflexivity. }
  assert (Hnan : parsedTime post1 = None \/ parsedTime post2 = None ->
                 Dated.shouldMerge (fun _ => None) post1 post2
                 = Dated.shouldMerge parsedTime post1 post2).
  { intros Hn. unfold Dated.shouldMerge. cbv zeta.
    destruct Hn as [E | E]; rewrite E;
      [destruct (parsedTime post2) | destruct (parsedTime post1)];
      reflexivity. }
  split; [| split; [| split; [| intros Hn; rewrite (Hnan Hn); exact H]]];
    clear Hnan; cbv zeta; rewrite <- ?Hlater; clear Hlater;
    revert H; unfold Dated.shouldMerge; cbv zeta;
    destruct (categoryDiffers post1 post2) eqn:D;
    destruct (RuleMerge.isStandaloneUpdate (content post1)) eqn:S1;
    destruct (RuleMerge.isStandaloneUpdate (content post2)) eqn:S2;
    cbn [andb orb]; try discriminate;
    (destruct (Dated.gt _ (Some RuleMerge.TIME_THRESHOLD_MS));
     [discriminate |]);
    intros H; auto; try (intros; discriminate);
    (destruct (RuleMerge.isContinuation
                 (content (if Dated.gt (parsedTime post2) (parsedTime post1)
                           then post2 else post1))) eqn:C;
     [left; reflexivity |]);
    right; rewrite ?orb_false_l, ?andb_false_r in H;
    (destruct (isThought post1) eqn:T1; [| discriminate]);
    (destruct (isThought post2) eqn:T2; [| discriminate]);
    cbn [andb] in H;
    (destruct (Z.ltb_spec 100 (len (content post1))); [| discriminate]);
    (destruct (Z.ltb_spec 100 (len (content post2))); [| discriminate]);
    repeat split; try assumption; apply isThought_spec; assumption.
Qed.

(** Two posts thirty seconds apart; and two posts a day apart, accepted
    because the date of the second does not parse. *)
Lemma shouldMerge_requires_witness :
  Dated.shouldMerge Dated.allParse Samples.r2 Samples.r3 = true /\
  Z.abs (getTime Samples.r3 - getTime Samples.r2) <= 5 * 60 * 1000 /\
  Dated.shouldMerge Dated.allParse MoreSamples.undated MoreSamples.early = false /\
  Dated.shouldMerge MoreSamples.exceptUndated
                    MoreSamples.undated MoreSamples.early = true /\
  Dated.shouldMerge (fun _ => None) MoreSamples.undated MoreSamples.early = true.
Proof.
  assert (H : Dated.shouldMerge Dated.allParse Samples.r2 Samples.r3 = true)
    by (vm_compute; reflexivity).
  assert (H' : Dated.shouldMerge MoreSamples.exceptUndated
                 MoreSamples.undated MoreSamples.early = true)
    by (vm_compute; reflexivity).
  split; [exact H |].
  split; [exact (proj1 (shouldMerge_requires _ _ _ H) _ _ eq_refl eq_refl) |].
  split; [vm_compute; reflexivity |].
  split; [exact H' |].
  apply (shouldMerge_requires _ _ _ H'). left. reflexivity.
Defined.

(** X2. [shouldMerge] does not depend on the order of its two arguments
    when both dates parse and the times differ.  (With equal times, or
    with a date that does not parse, the "later" post is the first
    argument, and the answer can change.) *)
Theorem shouldMerge_sym (parsedTime : Post -> Dated.Number)
  (post1 post2 : Post) (time1 time2 : Z) :
  parsedTime post1 = Some time1 -> parsedTime post2 = Some time2 ->
  time1 <> time2 ->
  Dated.shouldMerge parsedTime post1 post2
  = Dated.shouldMerge parsedTime post2 post1.
Proof.
  intros E1 E2 Hne. unfold Dated.shouldMerge. cbv zeta. rewrite E1, E2.
  cbn [Dated.sub Dated.abs Dated.gt].
  rewrite (categoryDiffers_sym post2 post1).
  rewrite (orb_comm (RuleMerge.isStandaloneUpdate (content post2))).
  rewrite (andb_comm (RuleMerge.isStandaloneUpdate (content post2))).
  replace (Z.abs (time1 - time2)) with (Z.abs (time2 - time1)) by lia.
  rewrite (andb_comm (isThought post2) (isThought post1)).
  rewrite (andb_comm (100 <? len (content post2))).
  destruct (Z.ltb_spec time1 time2); destruct (Z.ltb_spec time2 time1);
    try lia; reflexivity.
Qed.

Lemma shouldMerge_sym_witness :
  Dated.shouldMerge Dated.allParse Samples.r2 Samples.r3 = true /\
  Dated.shouldMerge Dated.allParse Samples.r3 Samples.r2 = true.
Proof.
  assert (H : Dated.shouldMerge Dated.allParse Samples.r2 Samples.r3 = true)
    by (vm_compute; reflexivity).
  assert (Hne : getTime Samples.r2 <> getTime Samples.r3) by discriminate.
  split; [exact H |].
  rewrite <- (shouldMerge_sym Dated.allParse Samples.r2 Samples.r3 _ _
                eq_refl eq_refl Hne).
  exact H.
Defined.

(** With equal times the order of the arguments matters, and so it does
    with a date that does not parse, even between posts a day apart. *)
Example shouldMerge_tie :
  let a := Samples.post "a" "First half of the thought" 0 (Some thought) None in
  let b := Samples.post "b" "So I kept going" 0 (Some thought) None in
  RuleMerge.shouldMerge a b = false /\ RuleMerge.shouldMerge b a = true /\
  Dated.shouldMerge MoreSamples.exceptUndated
                    MoreSamples.early MoreSamples.undated = false /\
  Dated.shouldMerge MoreSamples.exceptUndated
                    MoreSamples.undated MoreSamples.early = true.
Proof. vm_compute. repeat split; reflexivity. Qed.

(** ** Threads *)

Lemma clusters_linked (joins : Post -> Post -> bool) (l : list Post) :
  forall x, Forall (fun g => allLinked joins g = true) (clusters joins x l).
Proof.
  induction l as [|y l IH]; intros x.
  - repeat constructor.
  - cbn [clusters]. specialize (IH y).
    destruct (clusters_head joins y l) as (g & gs & Hc). rewrite Hc in *.
    inversion IH as [|? ? Hg Hgs]; subst.
    destruct (joins x y) eqn:J.
    + constructor; [| exact Hgs]. cbn [allLinked]. rewrite J. exact Hg.
    + constructor; [reflexivity |]. constructor; assumption.
Qed.

Lemma clustersOf_linked (joins : Post -> Post -> bool) (l : list Post) :
  Forall (fun g => allLinked joins g = true) (clustersOf joins l).
Proof. destruct l; [constructor | apply clusters_linked]. Qed.

Lemma allLinked_nth (joins : Post -> Post -> bool) (g : list Post) :
  allLinked joins g = true ->
  forall i a b,
    nth_error g i = Some a -> nth_error g (S i) = Some b -> joins a b = true.
Proof.
  induction g as [|x g IH]; intros H i a b Ha Hb.
  - destruct i; discriminate.
  - destruct g as [|y g]; [destruct i; [discriminate | destruct i; discriminate] |].
    cbn [allLinked] in H. apply andb_prop in H. destruct H as [Hxy Hrest].
    destruct i as [|i].
    + simpl in Ha, Hb. injection Ha as <-. injection Hb as <-. exact Hxy.
    + apply (IH Hrest i a b); assumption.
Qed.

Lemma ruleThreads_clusters (posts : list Post) :
  ruleThreads posts = clustersOf RuleMerge.shouldMerge (sortBy byTimeAsc posts).
Proof. unfold ruleThreads. rewrite sweep_clusters, map_id. reflexivity. Qed.

(** X3. In every thread the loop of the pattern-based script builds,
    over whatever order the sort left, each member was accepted by
    [shouldMerge] against the member before it, and so, when both their
    dates parse, lies at most five minutes from it.  When every date
    parses the loop runs over the posts in time order, and the script's
    output is the list of these threads, each merged or kept, newest
    first. *)
Theorem ruleThreads_linked (parsedTime : Post -> Dated.Number)
  (sorted thread : list Post) (i : nat) (a b : Post) :
  In thread (Dated.mainThreads parsedTime sorted) ->
  nth_error thread i = Some a -> nth_error thread (S i) = Some b ->
  Dated.shouldMerge parsedTime a b = true /\
  (forall timeA timeB,
      parsedTime a = Some timeA -> parsedTime b = Some timeB ->
      Z.abs (timeB - timeA) <= 5 * 60 * 1000) /\
  (forall posts,
      ruleThreads posts
      = Dated.mainThreads Dated.allParse (sortBy byTimeAsc posts) /\
      RuleMerge.main posts
      = option_map (sortBy byTimeDesc)
                   (sequence (map RuleMerge.finalize (ruleThreads posts)))).
Proof.
  intros Hin Ha Hb.
  assert (Hm : Dated.shouldMerge parsedTime a b = true).
  { unfold Dated.mainThreads in Hin. rewrite sweep_clusters, map_id in Hin.
    pose proof (clustersOf_linked (Dated.shouldMerge parsedTime) sorted) as Hall.
    rewrite Forall_forall in Hall.
    exact (allLinked_nth _ _ (Hall thread Hin) i a b Ha Hb). }
  split; [exact Hm |]. split.
  - intros timeA timeB. apply shouldMerge_near. exact Hm.
  - intros posts. split; [apply allParse_loops |].
    unfold RuleMerge.main, ruleThreads.
    rewrite !sweep_clusters, map_id.
    destruct (sequence _); reflexivity.
Qed.

Lemma ruleThreads_linked_witness :
  In [Samples.r2; Samples.r3]
     (Dated.mainThreads Dated.allParse [Samples.r1; Samples.r2; Samples.r3]) /\
  Dated.shouldMerge Dated.allParse Samples.r2 Samples.r3 = true /\
  Z.abs (getTime Samples.r3 - getTime Samples.r2) <= 5 * 60 * 1000.
Proof.
  assert (H : In [Samples.r2; Samples.r3]
                 (Dated.mainThreads Dated.allParse
                    [Samples.r1; Samples.r2; Samples.r3]))
    by (vm_compute; right; left; reflexivity).
  split; [exact H |].
  pose proof (ruleThreads_linked _ _ _ 0%nat Samples.r2 Samples.r3 H
                eq_refl eq_refl) as (H1 & H2 & _).
  split; [exact H1 |]. exact (H2 _ _ eq_refl eq_refl).
Defined.

(** A post whose date does not parse joins a thread a day old. *)
Example undated_joins_thread :
  Dated.mainThreads MoreSamples.exceptUndated
                    [MoreSamples.undated; MoreSamples.early]
  = [[MoreSamples.undated; MoreSamples.early]] /\
  Dated.groupByTimeProximity MoreSamples.exceptUndated
                             [MoreSamples.undated; MoreSamples.early]
  = [[MoreSamples.undated]; [MoreSamples.early]] /\
  Dated.detectThreads MoreSamples.exceptUndated
                      [MoreSamples.undated; MoreSamples.early]
  = [[MoreSamples.undated]; [MoreSamples.early]].
Proof. vm_compute. repeat split; reflexivity. Qed.

Lemma ascending_adjacent (l : list Post) :
  ascending l ->
  forall i a b,
    nth_error l i = Some a -> nth_error l (S i) = Some b ->
    getTime a <= getTime b.
Proof.
  induction 1 as [|x l _ IH Hall]; intros i a b Ha Hb.
  - destruct i; discriminate.
  - destruct i as [|i].
    + simpl in Ha. injection Ha as <-.
      change (nth_error l 0 = Some b) in Hb.
      rewrite Forall_forall in Hall. apply Hall.
      eapply nth_error_In. exact Hb.
    + apply (IH i); assumption.
Qed.

(** X4. In [detectThreads], two posts next to each other in time order
    share a thread whenever they are at most two minutes apart, whatever
    their categories and lengths; never when they are more than five
    minutes apart; and in between exactly when each is a thought or
    longer than 100 code units. *)
Theorem detectThreads_gaps (posts : list Post) (i : nat) (a b : Post) :
  nth_error (sortBy byTimeAsc posts) i = Some a ->
  nth_error (sortBy byTimeAsc posts) (S i) = Some b ->
  let sameThread :=
    clusterIndex (LocalMerge.detectThreads posts) i
    = clusterIndex (LocalMerge.detectThreads posts) (S i) in
  let gap := getTime b - getTime a in
  let substantial p :=
    category p = Some thought \/ 100 < len (content p) in
  0 <= gap /\
  (gap <= 2 * 60 * 1000 -> sameThread) /\
  (5 * 60 * 1000 < gap -> ~ sameThread) /\
  (2 * 60 * 1000 < gap <= 5 * 60 * 1000 ->
   (sameThread <-> substantial a /\ substantial b)).
Proof.
  intros Ha Hb sameThread gap substantial. subst sameThread gap substantial.
  rewrite detectThreads_clusters.
  rewrite (clustersOf_adjacent LocalMerge.sameThread _ i a b Ha Hb).
  assert (Hord : getTime a <= getTime b)
    by (exact (ascending_adjacent _ (sortAsc_ascending posts) i a b Ha Hb)).
  assert (Hsub : forall p,
             isThought p || (LocalMerge.MIN_THOUGHT_LENGTH <? len (content p)) = true
             <-> category p = Some thought \/ 100 < len (content p)).
  { intros p. rewrite orb_true_iff, isThought_spec, Z.ltb_lt. reflexivity. }
  unfold LocalMerge.sameThread. cbv zeta.
  change LocalMerge.THREAD_THRESHOLD_MS with 300000.
  change (2 * 60 * 1000) with 120000. change (5 * 60 * 1000) with 300000.
  split; [lia |]. split; [| split].
  - intros Hg.
    destruct (Z.leb_spec (getTime b - getTime a) 300000); [| lia].
    destruct (Z.leb_spec (getTime b - getTime a) 120000); [| lia].
    apply orb_true_r.
  - intros Hg.
    destruct (Z.leb_spec (getTime b - getTime a) 300000); [lia | discriminate].
  - intros Hg.
    destruct (Z.leb_spec (getTime b - getTime a) 300000); [| lia].
    destruct (Z.leb_spec (getTime b - getTime a) 120000); [lia |].
    rewrite orb_false_r, andb_true_iff, !Hsub. reflexivity.
Qed.

(** Two short updates a minute apart. *)
Lemma detectThreads_gaps_witness :
  nth_error (sortBy byTimeAsc [Samples.q3; Samples.q2]) 0 = Some Samples.q2 /\
  nth_error (sortBy byTimeAsc [Samples.q3; Samples.q2]) 1 = Some Samples.q3 /\
  clusterIndex (LocalMerge.detectThreads [Samples.q3; Samples.q2]) 0
  = clusterIndex (LocalMerge.detectThreads [Samples.q3; Samples.q2]) 1.
Proof.
  split; [reflexivity |]. split; [reflexivity |].
  refine (proj1 (proj2 (detectThreads_gaps [Samples.q3; Samples.q2] 0
                          Samples.q2 Samples.q3 eq_refl eq_refl)) _).
  discriminate.
Defined.

(** X5. Both rule-based scripts only join posts that the ten-minute
    time grouper keeps together.  Over the same sorted array, whatever
    its order: two posts next to each other that share a thread of
    [detectThreads] share a cluster of [groupByTimeProximity]; two posts
    next to each other whose dates both parse and that share a thread of
    the pattern-based script share a cluster of [groupByTimeProximity].
    (A post whose date does not parse is joined by the pattern-based
    script alone.)  When every date parses the array is the posts in
    time order. *)
Theorem threads_refine_groups (parsedTime : Post -> Dated.Number)
  (sorted : list Post) (i : nat) (a b : Post) :
  nth_error sorted i = Some a ->
  nth_error sorted (S i) = Some b ->
  (clusterIndex (Dated.detectThreads parsedTime sorted) i
   = clusterIndex (Dated.detectThreads parsedTime sorted) (S i) ->
   clusterIndex (Dated.groupByTimeProximity parsedTime sorted) i
   = clusterIndex (Dated.groupByTimeProximity parsedTime sorted) (S i)) /\
  (parsedTime a <> None -> parsedTime b <> None ->
   clusterIndex (Dated.mainThreads parsedTime sorted) i
   = clusterIndex (Dated.mainThreads parsedTime sorted) (S i) ->
   clusterIndex (Dated.groupByTimeProximity parsedTime sorted) i
   = clusterIndex (Dated.groupByTimeProximity parsedTime sorted) (S i)) /\
  (forall posts,
      ruleThreads posts
      = Dated.mainThreads Dated.allParse (sortBy byTimeAsc posts) /\
      LocalMerge.detectThreads posts
      = Dated.detectThreads Dated.allParse (sortBy byTimeAsc posts) /\
      groupByTimeProximity posts
      = Dated.groupByTimeProximity Dated.allParse (sortBy byTimeAsc posts)).
Proof.
  intros Ha Hb.
  unfold Dated.detectThreads, Dated.mainThreads, Dated.groupByTimeProximity.
  rewrite !sweep_clusters, !map_id.
  rewrite !(clustersOf_adjacent _ _ i a b Ha Hb).
  split; [| split; [| apply allParse_loops]].
  - unfold Dated.sameThread, Dated.withinThreshold. cbv zeta.
    destruct (parsedTime a) as [timeA|], (parsedTime b) as [timeB|];
      cbn [Dated.sub Dated.le]; try discriminate.
    change LocalMerge.THREAD_THRESHOLD_MS with 300000.
    change TIME_THRESHOLD_MS with 600000.
    destruct (Z.leb_spec (timeB - timeA) 300000); [| discriminate].
    intros _. apply Z.leb_le. lia.
  - intros Na Nb H.
    destruct (parsedTime a) as [timeA|] eqn:Ea; [| contradiction].
    destruct (parsedTime b) as [timeB|] eqn:Eb; [| contradiction].
    pose proof (shouldMerge_near parsedTime a b timeA timeB H Ea Eb) as Hnear.
    unfold Dated.withinThreshold. cbv zeta. rewrite Ea, Eb.
    cbn [Dated.sub Dated.le]. change TIME_THRESHOLD_MS with 600000.
    apply Z.leb_le. lia.
Qed.

Lemma threads_refine_groups_witness :
  clusterIndex (Dated.mainThreads Dated.allParse
                  [Samples.r1; Samples.r2; Samples.r3]) 1
  = clusterIndex (Dated.mainThreads Dated.allParse
                    [Samples.r1; Samples.r2; Samples.r3]) 2 /\
  clusterIndex (Dated.groupByTimeProximity Dated.allParse
                  [Samples.r1; Samples.r2; Samples.r3]) 1
  = clusterIndex (Dated.groupByTimeProximity Dated.allParse
                    [Samples.r1; Samples.r2; Samples.r3]) 2.
Proof.
  assert (H : clusterIndex (Dated.mainThreads Dated.allParse
                              [Samples.r1; Samples.r2; Samples.r3]) 1
              = clusterIndex (Dated.mainThreads Dated.allParse
                                [Samples.r1; Samples.r2; Samples.r3]) 2)
    by (vm_compute; reflexivity).
  split; [exact H |].
  refine (proj1 (proj2 (threads_refine_groups Dated.allParse
                          [Samples.r1; Samples.r2; Samples.r3] 1
                          Samples.r2 Samples.r3 eq_refl eq_refl)) _ _ H);
    discriminate.
Defined.

(** ** What the rule-based scripts keep *)

Lemma join_holds (sep x : jsstring) (l : list jsstring) :
  In x l -> holds (join sep l) x.
Proof.
  induction l as [|y l IH]; intros Hin; [contradiction |].
  destruct l as [|z l].
  - destruct Hin as [-> | []]. exists [], []. simpl. rewrite app_nil_r. reflexivity.
  - destruct Hin as [-> | Hin].
    + exists [], (sep ++ join sep (z :: l)). reflexivity.
    + destruct (IH Hin) as (before & after & E).
      exists (y ++ sep ++ before), after.
      change (join sep (y :: z :: l)) with (y ++ sep ++ join sep (z :: l)).
      rewrite E, <- !app_assoc. reflexivity.
Qed.

Lemma mergeOrKeep_holds (g : list Post) (m : Post) :
  LocalMerge.mergeOrKeep g = Some m ->
  forall p, In p g -> holds (content m) (content p).
Proof.
  destruct g as [|a [|b l]]; intros Hm p Hp.
  - discriminate.
  - injection Hm as <-. destruct Hp as [<- | []].
    exists [], []. simpl. rewrite app_nil_r. reflexivity.
  - destruct (mergeOrKeep_multi a b l) as (first & rest & Hs & Hm').
    rewrite Hm' in Hm. injection Hm as <-.
    change (holds (join blankLine (map content (first :: rest))) (content p)).
    apply join_holds, in_map. rewrite <- Hs. apply sortBy_In. exact Hp.
Qed.

Lemma Forall2_In_l {A C : Type} (R : A -> C -> Prop) (l : list A) (out : list C) :
  Forall2 R l out -> forall a, In a l -> exists c, In c out /\ R a c.
Proof.
  induction 1 as [|a c l out Hr _ IH]; intros a' Ha; [contradiction |].
  destruct Ha as [<- | Ha].
  - exists c. split; [left; reflexivity | exact Hr].
  - destruct (IH a' Ha) as (c' & Hc & Hr'). exists c'. split; [right |]; assumption.
Qed.

(** X6. Neither rule-based script loses text: its run returns a
    collection, newest first, in which the content of every input post
    occurs inside the content of some entry. *)
Theorem no_content_lost (s : Script) (posts : list Post) :
  exists out,
    runScript s posts = Some out /\
    descending out /\
    forall p, In p posts ->
              exists m, In m out /\ holds (content m) (content p).
Proof.
  assert (E : runScript s posts = mergeRun (joinsOf s) posts)
    by (destruct s; [apply RuleMerge_main_run | apply LocalMerge_main_run]).
  rewrite E.
  destruct (mergeRun_some (joinsOf s) posts) as (merged & Hrun & Hall).
  exists (sortBy byTimeDesc merged). split; [exact Hrun |].
  split; [apply sortDesc_descending |].
  intros p Hp.
  assert (Hc : In p (List.concat (clustersOf (joinsOf s) (sortBy byTimeAsc posts))))
    by (rewrite clustersOf_concat; apply sortBy_In; exact Hp).
  apply in_concat in Hc. destruct Hc as (g & Hg & Hpg).
  destruct (Forall2_In_l _ _ _ Hall g Hg) as (m & Hm & Hmk & _).
  exists m. split; [apply sortBy_In; exact Hm |].
  exact (mergeOrKeep_holds g m Hmk p Hpg).
Qed.

Lemma no_content_lost_witness :
  exists out,
    RuleMerge.main [Samples.r1; Samples.r2; Samples.r3] = Some out /\
    exists m, In m out /\ holds (content m) (content Samples.r3).
Proof.
  destruct (no_content_lost PatternScript [Samples.r1; Samples.r2; Samples.r3])
    as (out & Hrun & _ & Hall).
  exists out. split; [exact Hrun |].
  apply Hall. right. right. left. reflexivity.
Defined.

(** ** Merged timestamps *)

Lemma ascending_last (l : list Post) (d : Post) :
  ascending l -> forall p, In p l -> getTime p <= getTime (last l d).
Proof.
  induction 1 as [|x l Hs IH Hall]; intros p Hp; [contradiction |].
  destruct l as [|y l].
  - destruct Hp as [<- | []]. simpl. lia.
  - change (last (x :: y :: l) d) with (last (y :: l) d).
    destruct Hp as [<- | Hp]; [| apply IH, Hp].
    rewrite Forall_forall in Hall.
    specialize (Hall y (or_introl eq_refl)). simpl in Hall.
    specialize (IH y (or_introl eq_refl)). lia.
Qed.

Lemma last_In {A : Type} (x : A) (l : list A) (d : A) : In (last (x :: l) d) (x :: l).
Proof.
  revert x. induction l as [|y l IH]; intros x; [left; reflexivity |].
  right. apply IH.
Qed.

(** X7. Merging a non-empty group stamps the result with the earliest
    member's time in [mergeThread] and [mergePosts], and with the latest
    member's time in [mergePostGroup]; the two results agree on id,
    content, category and curated flag. *)
Theorem merged_timestamps (group : list Post) :
  group <> [] ->
  exists m m',
    LocalMerge.mergeThread group = Some m /\
    RuleMerge.mergePosts group = Some m /\
    BinaryMerge.mergePostGroup group = Some m' /\
    id m' = id m /\ content m' = content m /\
    category m' = category m /\ curated m' = curated m /\
    (forall p, In p group -> timestamp m <= timestamp p <= timestamp m') /\
    (exists p, In p group /\ timestamp p = timestamp m /\ id p = id m) /\
    (exists p, In p group /\ timestamp p = timestamp m').
Proof.
  intros Hne.
  unfold LocalMerge.mergeThread, RuleMerge.mergePosts,
    BinaryMerge.mergePostGroup. cbv zeta.
  pose proof (sortAsc_ascending group) as Hs.
  pose proof (sortBy_In byTimeAsc group) as Hin.
  destruct (sortBy byTimeAsc group) as [|first rest] eqn:E.
  - exfalso. apply Hne, length_zero_iff_nil.
    rewrite <- (sortBy_length byTimeAsc group), E. reflexivity.
  - unfold mergeSorted. do 2 eexists.
    split; [reflexivity |]. split; [reflexivity |]. split; [reflexivity |].
    cbn [id content category curated timestamp].
    repeat (split; [reflexivity |]).
    split; [| split].
    + intros p Hp. apply Hin in Hp. split.
      * destruct Hp as [<- | Hp]; [lia |].
        apply StronglySorted_inv in Hs. destruct Hs as [_ Hall].
        rewrite Forall_forall in Hall. exact (Hall p Hp).
      * exact (ascending_last _ first Hs p Hp).
    + exists first. split; [apply Hin; left; reflexivity | split; reflexivity].
    + exists (last (first :: rest) first).
      split; [apply Hin, last_In | reflexivity].
Qed.

Lemma merged_timestamps_witness :
  [Samples.tenB; Samples.tenA] <> [] /\
  option_map timestamp (LocalMerge.mergeThread [Samples.tenB; Samples.tenA])
  = Some 0 /\
  option_map timestamp (BinaryMerge.mergePostGroup [Samples.tenB; Samples.tenA])
  = Some (2 * Samples.minute) /\
  exists m m',
    LocalMerge.mergeThread [Samples.tenB; Samples.tenA] = Some m /\
    BinaryMerge.mergePostGroup [Samples.tenB; Samples.tenA] = Some m' /\
    content m' = content m.
Proof.
  assert (H : [Samples.tenB; Samples.tenA] <> []) by discriminate.
  split; [exact H |]. split; [reflexivity |]. split; [reflexivity |].
  destruct (merged_timestamps _ H) as (m & m' & H1 & _ & H3 & _ & H5 & _).
  exists m, m'. auto.
Defined.

(** ** The LLM yes/no merge script *)

Lemma mergePostGroup_some (g : list Post) :
  g <> [] ->
  exists m, BinaryMerge.mergePostGroup g = Some m /\
            exists q, In q g /\ id m = id q.
Proof.
  intros Hne. unfold BinaryMerge.mergePostGroup. cbv zeta.
  pose proof (sortBy_In byTimeAsc g) as Hin.
  destruct (sortBy byTimeAsc g) as [|first rest] eqn:E.
  - exfalso. apply Hne, length_zero_iff_nil.
    rewrite <- (sortBy_length byTimeAsc g), E. reflexivity.
  - eexists. split; [reflexivity |]. exists first.
    split; [apply Hin; left; reflexivity | reflexivity].
Qed.

Section BinaryFacts.

Variable toLowerCase : jsstring -> jsstring.

Lemma binary_processGroup (oracle : list Post -> option jsstring)
  (g : list Post) :
  g <> [] ->
  exists pushed,
    BinaryMerge.processGroup toLowerCase oracle g = Some pushed /\
    (List.length pushed <= List.length g)%nat /\
    forall p, In p pushed -> exists q, In q g /\ id p = id q.
Proof.
  intros Hne. unfold BinaryMerge.processGroup.
  assert (Hkeep : exists pushed,
             Some g = Some pushed /\
             (List.length pushed <= List.length g)%nat /\
             forall p, In p pushed -> exists q, In q g /\ id p = id q).
  { exists g. split; [reflexivity |]. split; [lia |]. intros p Hp. eauto. }
  destruct g as [|a [|b l]]; [contradiction | exact Hkeep |].
  destruct (BinaryMerge.shouldMergeGroup toLowerCase oracle (a :: b :: l));
    [| exact Hkeep].
  destruct (mergePostGroup_some (a :: b :: l) Hne) as (m & -> & q & Hq & Hid).
  exists [m]. split; [reflexivity |]. split; [simpl; lia |].
  intros p [<- | []]. eauto.
Qed.

Lemma binary_sequence (oracle : list Post -> option jsstring)
  (gs : list (list Post)) :
  Forall (fun g => g <> []) gs ->
  exists pushed,
    sequence (map (BinaryMerge.processGroup toLowerCase oracle) gs) = Some pushed /\
    (List.length (List.concat pushed) <= List.length (List.concat gs))%nat /\
    forall p, In p (List.concat pushed) ->
              exists q, In q (List.concat gs) /\ id p = id q.
Proof.
  induction 1 as [|g gs Hg _ (pushed & Hseq & Hlen & Hids)].
  - exists []. split; [reflexivity |]. split; [simpl; lia |]. intros p [].
  - destruct (binary_processGroup oracle g Hg) as (pg & Hpg & Hl & Hi).
    exists (pg :: pushed). cbn [map sequence]. rewrite Hpg, Hseq.
    split; [reflexivity |]. cbn [List.concat]. rewrite !length_app.
    split; [lia |]. intros p Hp. apply in_app_or in Hp.
    destruct Hp as [Hp | Hp].
    + destruct (Hi p Hp) as (q & Hq & E). exists q.
      split; [apply in_or_app; left |]; assumption.
    + destruct (Hids p Hp) as (q & Hq & E). exists q.
      split; [apply in_or_app; right |]; assumption.
Qed.

(** X8. Whatever the model answers, the yes/no merge script finishes
    without throwing and returns a collection, newest first, with at
    most as many entries as its input and only ids of the input. *)
Theorem binary_main_bounded (oracle : list Post -> option jsstring)
  (posts : list Post) :
  exists out,
    BinaryMerge.main toLowerCase oracle posts = Some out /\
    descending out /\
    (List.length out <= List.length posts)%nat /\
    forall p, In p out -> exists q, In q posts /\ id p = id q.
Proof.
  unfold BinaryMerge.main. cbv zeta.
  destruct (grouper_partition_aux posts) as [Hne Hcat].
  destruct (binary_sequence oracle _ Hne) as (pushed & -> & Hlen & Hids).
  eexists. split; [reflexivity |]. split; [apply sortDesc_descending |].
  rewrite Hcat in *. rewrite sortBy_length in *. split; [exact Hlen |].
  intros p Hp. apply sortBy_In in Hp.
  destruct (Hids p Hp) as (q & Hq & E). exists q.
  split; [apply (sortBy_In byTimeAsc), Hq | exact E].
Qed.

(** X9. The yes/no merge script asks the model only about groups of two
    or more posts: two models that give the same verdict on every such
    time group give the same run.  When no verdict is a yes, the run
    returns every post, unmerged, newest first. *)
Theorem binary_main_verdicts (oracle1 oracle2 : list Post -> option jsstring)
  (posts : list Post) :
  (forall g, In g (groupByTimeProximity posts) -> (2 <= List.length g)%nat ->
             BinaryMerge.saysYes toLowerCase (oracle1 g)
             = BinaryMerge.saysYes toLowerCase (oracle2 g)) ->
  BinaryMerge.main toLowerCase oracle1 posts
  = BinaryMerge.main toLowerCase oracle2 posts /\
  ((forall g, In g (groupByTimeProximity posts) ->
              BinaryMerge.saysYes toLowerCase (oracle2 g) = false) ->
   BinaryMerge.main toLowerCase oracle1 posts
   = Some (sortBy byTimeDesc (sortBy byTimeAsc posts))).
Proof.
  intros Hsame.
  assert (Hmap : map (BinaryMerge.processGroup toLowerCase oracle1)
                     (groupByTimeProximity posts)
                 = map (BinaryMerge.processGroup toLowerCase oracle2)
                       (groupByTimeProximity posts)).
  { apply map_ext_in. intros g Hg. unfold BinaryMerge.processGroup.
    destruct g as [|a [|b l]]; try reflexivity;
      unfold BinaryMerge.shouldMergeGroup; cbn [List.length Nat.ltb Nat.leb];
      try reflexivity.
    rewrite (Hsame _ Hg); [reflexivity | simpl; lia]. }
  assert (E : BinaryMerge.main toLowerCase oracle1 posts
              = BinaryMerge.main toLowerCase oracle2 posts)
    by (unfold BinaryMerge.main; cbv zeta; rewrite Hmap; reflexivity).
  split; [exact E |].
  intros Hno. rewrite E. unfold BinaryMerge.main. cbv zeta.
  assert (Hk : map (BinaryMerge.processGroup toLowerCase oracle2)
                   (groupByTimeProximity posts)
               = map Some (groupByTimeProximity posts)).
  { apply map_ext_in. intros g Hg. unfold BinaryMerge.processGroup.
    destruct g as [|a [|b l]]; try reflexivity;
      unfold BinaryMerge.shouldMergeGroup; cbn [List.length Nat.ltb Nat.leb];
      try reflexivity.
    rewrite (Hno _ Hg). reflexivity. }
  rewrite Hk, sequence_Some.
  destruct (grouper_partition_aux posts) as [_ ->]. reflexivity.
Qed.

End BinaryFacts.

(** A reply "No." for the one group of three posts. *)
Lemma binary_main_verdicts_witness :
  (forall g,
      In g (groupByTimeProximity [Samples.n1; Samples.n2; Samples.n3]) ->
      (2 <= List.length g)%nat ->
      BinaryMerge.saysYes asciiLower ((fun _ => Some (lit "No.")) g)
      = BinaryMerge.saysYes asciiLower ((fun _ => None) g)) /\
  BinaryMerge.main asciiLower (fun _ => Some (lit "No."))
                   [Samples.n1; Samples.n2; Samples.n3]
  = Some [Samples.n3; Samples.n2; Samples.n1].
Proof.
  assert (H : forall g,
             In g (groupByTimeProximity [Samples.n1; Samples.n2; Samples.n3]) ->
             (2 <= List.length g)%nat ->
             BinaryMerge.saysYes asciiLower ((fun _ => Some (lit "No.")) g)
             = BinaryMerge.saysYes asciiLower ((fun _ => None) g))
    by (intros g _ _; reflexivity).
  split; [exact H |].
  exact (proj2 (binary_main_verdicts asciiLower
                  (fun _ => Some (lit "No.")) (fun _ => None)
                  [Samples.n1; Samples.n2; Samples.n3] H)
               (fun g _ => eq_refl)).
Defined.

(** A reply that merely holds the letters "yes" counts as a yes. *)
Example binary_yes_inside_a_word :
  option_map (map id)
    (BinaryMerge.main asciiLower (fun _ => Some (lit "Through my eyes, no."))
                      [Samples.n1; Samples.n2; Samples.n3])
  = Some ["n1"].
Proof. vm_compute. reflexivity. Qed.

(** ** The Twitter import *)

Lemma update_never_curated_import (content : jsstring) :
  TwitterImport.categorizePost content <> (update, true).
Proof.
  unfold TwitterImport.categorizePost. cbv zeta.
  repeat match goal with
         | |- context [if ?b then _ else _] => destruct b
         end; cbn; try discriminate;
    destruct (anyTest TwitterImport.CURATED_INDICATORS content); discriminate.
Qed.

Lemma convert_some (tweet : TwitterMain.Tweet) (t : Z) :
  TwitterMain.createdAt tweet = Some t ->
  exists p,
    TwitterMain.convert tweet = Some p /\
    id p = ("tw-" ++ TwitterMain.tweetId tweet)%string /\
    content p = TwitterMain.orElse (TwitterMain.fullText tweet)
                  (TwitterMain.orElse (TwitterMain.text tweet) []) /\
    timestamp p = t /\
    category p <> None /\ curated p <> None /\ exclusive p.
Proof.
  intros Ht. unfold TwitterMain.convert. cbv zeta.
  pose proof (update_never_curated_import
                (TwitterMain.orElse (TwitterMain.fullText tweet)
                   (TwitterMain.orElse (TwitterMain.text tweet) []))) as Hx.
  destruct (TwitterImport.categorizePost _) as [c k]. rewrite Ht.
  eexists. split; [reflexivity |]. cbn [id content timestamp category curated].
  repeat (split; [reflexivity || discriminate |]).
  intros [[= ->] [= ->]]. apply Hx. reflexivity.
Qed.

(** X10. The Twitter import throws, writing nothing, as soon as one
    tweet has a date that does not parse.  Otherwise it returns one post
    per tweet, newest first; each post has the tweet's id behind "tw-",
    the tweet's full text, or else its text, or else the empty string,
    as content, a category and a curated flag, curated only when a
    thought. *)
Theorem import_main (tweets : list TwitterMain.Tweet) :
  ((exists tweet, In tweet tweets /\ TwitterMain.createdAt tweet = None) ->
   TwitterMain.main tweets = None) /\
  ((forall tweet, In tweet tweets -> TwitterMain.createdAt tweet <> None) ->
   exists out,
     TwitterMain.main tweets = Some out /\
     List.length out = List.length tweets /\
     descending out /\
     forall p, In p out ->
       exists tweet,
         In tweet tweets /\
         id p = ("tw-" ++ TwitterMain.tweetId tweet)%string /\
         content p = TwitterMain.orElse (TwitterMain.fullText tweet)
                       (TwitterMain.orElse (TwitterMain.text tweet) []) /\
         TwitterMain.createdAt tweet = Some (timestamp p) /\
         category p <> None /\ curated p <> None /\ exclusive p).
Proof.
  split.
  - intros (tweet & Hin & Hbad). unfold TwitterMain.main.
    assert (E : sequence (map TwitterMain.convert tweets) = None).
    { induction tweets as [|t ts IH]; [contradiction |].
      cbn [map sequence]. destruct Hin as [-> | Hin].
      - unfold TwitterMain.convert. cbv zeta.
        destruct (TwitterImport.categorizePost _). rewrite Hbad. reflexivity.
      - rewrite (IH Hin). destruct (TwitterMain.convert t); reflexivity. }
    rewrite E. reflexivity.
  - intros Hok. unfold TwitterMain.main.
    destruct (sequence_map TwitterMain.convert
                (fun tweet p =>
                   id p = ("tw-" ++ TwitterMain.tweetId tweet)%string /\
                   content p = TwitterMain.orElse (TwitterMain.fullText tweet)
                                 (TwitterMain.orElse (TwitterMain.text tweet) []) /\
                   TwitterMain.createdAt tweet = Some (timestamp p) /\
                   category p <> None /\ curated p <> None /\ exclusive p)
                tweets) as (posts & Hseq & Hall).
    + rewrite Forall_forall. intros tweet Hin.
      destruct (TwitterMain.createdAt tweet) as [t|] eqn:Ht;
        [| exfalso; exact (Hok tweet Hin Ht)].
      destruct (convert_some tweet t Ht) as (p & Hp & H1 & H2 & H3 & H4).
      exists p. rewrite H3. auto.
    + rewrite Hseq. eexists. split; [reflexivity |].
      split; [rewrite sortBy_length; symmetry; exact (Forall2_length Hall) |].
      split; [apply sortDesc_descending |].
      intros p Hp. apply sortBy_In in Hp.
      destruct (Forall2_In_r _ _ _ Hall p Hp) as (tweet & Hin & H).
      exists tweet. auto.
Qed.

Lemma import_main_witness :
  (exists tweet,
      In tweet [MoreSamples.tweetA; MoreSamples.tweetBad] /\
      TwitterMain.createdAt tweet = None) /\
  TwitterMain.main [MoreSamples.tweetA; MoreSamples.tweetBad] = None /\
  (forall tweet,
      In tweet [MoreSamples.tweetA; MoreSamples.tweetB] ->
      TwitterMain.createdAt tweet <> None) /\
  option_map (map (fun p => (id p, category p, curated p)))
             (TwitterMain.main [MoreSamples.tweetA; MoreSamples.tweetB])
  = Some [("tw-102", Some thought, Some true);
          ("tw-101", Some update, Some false)] /\
  exists out,
    TwitterMain.main [MoreSamples.tweetA; MoreSamples.tweetB] = Some out /\
    List.length out = 2%nat.
Proof.
  assert (H1 : exists tweet,
             In tweet [MoreSamples.tweetA; MoreSamples.tweetBad] /\
             TwitterMain.createdAt tweet = None).
  { exists MoreSamples.tweetBad. split; [right; left |]; reflexivity. }
  assert (H2 : forall tweet,
             In tweet [MoreSamples.tweetA; MoreSamples.tweetB] ->
             TwitterMain.createdAt tweet <> None).
  { intros tweet [<- | [<- | []]]; discriminate. }
  split; [exact H1 |].
  split; [exact (proj1 (import_main _) H1) |].
  split; [exact H2 |].
  split; [vm_compute; reflexivity |].
  destruct (proj2 (import_main _) H2) as (out & Hm & Hl & _).
  exists out. split; assumption.
Defined.

(** ** The LLM partition script on a well-formed partition *)

Lemma at_in_range (group : list Post) (idx : Z) :
  0 <= idx < Z.of_nat (List.length group) ->
  exists p, Narrative.at_ group idx = Some p /\ In p group.
Proof.
  intros [Hlo Hhi]. unfold Narrative.at_.
  destruct (Z.ltb_spec idx 0); [lia |].
  destruct (nth_error group (Z.to_nat idx)) as [p|] eqn:E.
  - exists p. split; [reflexivity | eapply nth_error_In; exact E].
  - apply nth_error_None in E. lia.
Qed.

Lemma sequence_at (group : list Post) (indices : list Z) :
  Forall (fun idx => 0 <= idx < Z.of_nat (List.length group)) indices ->
  exists defined,
    sequence (map (Narrative.at_ group) indices) = Some defined /\
    List.length defined = List.length indices /\
    forall p, In p defined -> In p group.
Proof.
  induction 1 as [|idx indices Hidx _ (defined & Hs & Hl & Hin)].
  - exists []. repeat split. intros p [].
  - destruct (at_in_range group idx Hidx) as (p & Hp & Hpg).
    exists (p :: defined). cbn [map sequence]. rewrite Hp, Hs.
    split; [reflexivity |]. split; [simpl; lia |].
    intros q [<- | Hq]; auto.
Qed.

Lemma pushFor_in_range (group : list Post) (indices : list Z) :
  indices <> [] ->
  Forall (fun idx => 0 <= idx < Z.of_nat (List.length group)) indices ->
  exists m, Narrative.pushFor group indices = Some (Some m) /\
            exists q, In q group /\ id m = id q.
Proof.
  intros Hne Hall. unfold Narrative.pushFor. cbv zeta.
  destruct indices as [|i [|j rest]]; [contradiction | |].
  - inversion Hall as [|? ? Hi _]; subst.
    destruct (at_in_range group i Hi) as (p & Hp & Hpg).
    cbn [map List.length Nat.ltb Nat.leb]. rewrite Hp.
    exists p. split; [reflexivity |]. exists p. auto.
  - change (1 <? List.length (i :: j :: rest))%nat with true. cbv iota.
    unfold Narrative.mergePosts.
    destruct (sequence_at group (i :: j :: rest) Hall)
      as (defined & -> & Hl & Hin).
    pose proof (sortBy_In byTimeAsc defined) as Hs.
    pose proof (sortBy_length byTimeAsc defined) as Hsl.
    destruct (sortBy byTimeAsc defined) as [|first sorted].
    + rewrite Hl in Hsl. discriminate.
    + unfold mergeSorted. eexists. split; [reflexivity |].
      exists first. split; [| reflexivity].
      apply Hin, Hs. left. reflexivity.
Qed.

(** X11. When the model's partition for a time group of two or more
    posts parses and every index group in it is non-empty with all its
    indices inside the group, the script does not throw for that group
    and pushes one defined entry per index group, each under the id of a
    member of the group. *)
Theorem wellformed_partition (oracle : list Post -> Narrative.Reply)
  (group : list Post) (partition : list (list Z)) :
  (2 <= List.length group)%nat ->
  oracle group = Narrative.Parsed partition ->
  Forall (fun indices =>
            indices <> [] /\
            Forall (fun idx => 0 <= idx < Z.of_nat (List.length group)) indices)
         partition ->
  exists pushed,
    Narrative.processGroup oracle group = Some (map Some pushed) /\
    List.length pushed = List.length partition /\
    forall m, In m pushed -> exists q, In q group /\ id m = id q.
Proof.
  intros Hlen Hreply Hall. unfold Narrative.processGroup.
  destruct (Nat.eqb_spec (List.length group) 1); [lia |].
  rewrite Hreply. cbn [Narrative.analyzeThreadGroup].
  clear Hreply. induction Hall as [|indices partition [Hne Hin] _ IH].
  - exists []. repeat split. intros m [].
  - destruct IH as (pushed & Hs & Hl & Hids).
    destruct (pushFor_in_range group indices Hne Hin) as (m & Hm & Hq).
    exists (m :: pushed). cbn [map sequence]. rewrite Hm, Hs.
    split; [reflexivity |]. split; [simpl; lia |].
    intros m' [<- | Hm']; auto.
Qed.

(** The partition [[0], [1, 2]] of a group of three. *)
Lemma wellformed_partition_witness :
  (2 <= List.length [Samples.n1; Samples.n2; Samples.n3])%nat /\
  Forall (fun indices =>
            indices <> [] /\
            Forall (fun idx =>
                      0 <= idx
                      < Z.of_nat (List.length [Samples.n1; Samples.n2; Samples.n3]))
                   indices)
         [[0]; [1; 2]] /\
  option_map (map (option_map id))
    (Narrative.processGroup (fun _ => Narrative.Parsed [[0]; [1; 2]])
                            [Samples.n1; Samples.n2; Samples.n3])
  = Some [Some "n1"; Some "n2"] /\
  exists pushed,
    Narrative.processGroup (fun _ => Narrative.Parsed [[0]; [1; 2]])
                           [Samples.n1; Samples.n2; Samples.n3]
    = Some (map Some pushed) /\
    List.length pushed = 2%nat.
Proof.
  assert (H1 : (2 <= List.length [Samples.n1; Samples.n2; Samples.n3])%nat)
    by (simpl; lia).
  assert (H2 : Forall (fun indices =>
            indices <> [] /\
            Forall (fun idx =>
                      0 <= idx
                      < Z.of_nat (List.length [Samples.n1; Samples.n2; Samples.n3]))
                   indices)
         [[0]; [1; 2]]).
  { repeat constructor; simpl; try discriminate; lia. }
  split; [exact H1 |]. split; [exact H2 |].
  split; [vm_compute; reflexivity |].
  destruct (wellformed_partition (fun _ => Narrative.Parsed [[0]; [1; 2]])
              [Samples.n1; Samples.n2; Samples.n3] [[0]; [1; 2]]
              H1 eq_refl H2) as (pushed & Hp & Hl & _).
  exists pushed. split; assumption.
Defined.

(** ** The local classifier *)

Section ClassifierFacts.

Variable toLowerCase : jsstring -> jsstring.

Lemma classifier_never_curated_update (content : jsstring) :
  Classifier.categorizePost toLowerCase content <> (update, true).
Proof.
  unfold Classifier.categorizePost. cbv zeta.
  repeat match goal with
         | |- context [if ?b then _ else _] => destruct b
         end; discriminate.
Qed.

(** X12. A content whose trimmed text is longer than 200 code units and
    matches no update pattern is a curated thought, whether or not it
    matches a thought pattern or a curated indicator. *)
Theorem long_text_is_curated_thought (content : jsstring) :
  200 < len (trim content) ->
  anyTest Classifier.UPDATE_PATTERNS (trim content) = false ->
  Classifier.categorizePost toLowerCase content = (thought, true).
Proof.
  intros Hlen Hup. unfold Classifier.categorizePost. cbv zeta. rewrite Hup.
  assert (H200 : (200 <? len (trim content)) = true) by (apply Z.ltb_lt; lia).
  assert (H50 : (len (trim content) <? 50) = false) by (apply Z.ltb_ge; lia).
  rewrite H200, H50.
  destruct (anyTest Classifier.THOUGHT_PATTERNS (trim content)); [| reflexivity].
  destruct (anyTest Classifier.CURATED_INDICATORS (trim content)); reflexivity.
Qed.

(** X13. The local classifier curates a content only when its trimmed
    text matches no update pattern and either matches a curated
    indicator or is longer than 200 code units; the import classifier
    curates a text only when it matches one of its curated indicators,
    whatever its length. *)
Theorem curated_needs_reason (content : jsstring) :
  (snd (Classifier.categorizePost toLowerCase content) = true ->
   fst (Classifier.categorizePost toLowerCase content) = thought /\
   anyTest Classifier.UPDATE_PATTERNS (trim content) = false /\
   (anyTest Classifier.CURATED_INDICATORS (trim content) = true \/
    200 < len (trim content))) /\
  (snd (TwitterImport.categorizePost content) = true ->
   fst (TwitterImport.categorizePost content) = thought /\
   anyTest TwitterImport.CURATED_INDICATORS content = true).
Proof.
  split.
  - unfold Classifier.categorizePost. cbv zeta.
    destruct (anyTest Classifier.UPDATE_PATTERNS (trim content));
      [discriminate |].
    destruct (anyTest Classifier.THOUGHT_PATTERNS (trim content)).
    + destruct (anyTest Classifier.CURATED_INDICATORS (trim content)).
      * rewrite andb_false_r. intros _. auto.
      * rewrite andb_true_r.
        destruct (Z.ltb_spec 200 (len (trim content))); [| discriminate].
        intros _. auto.
    + destruct (len (trim content) <? 50); [discriminate |].
      destruct (Z.ltb_spec 200 (len (trim content))); [intros _; auto |].
      destruct (existsb _ _); discriminate.
  - unfold TwitterImport.categorizePost. cbv zeta. cbn [fst snd].
    intros H. apply andb_prop in H. destruct H as [Hc Hk].
    split; [| exact Hk].
    destruct (if _ && _ then _ else _); [discriminate | reflexivity].
Qed.

Lemma trimStart_blank (content : jsstring) :
  Forall (fun c => isWhiteSpace c = true) content -> trimStart content = [].
Proof.
  induction 1 as [|c s Hc _ IH]; [reflexivity |]. simpl. rewrite Hc. exact IH.
Qed.

(** X14. A content made only of white space, the empty content
    included, is classified an update, not curated. *)
Theorem blank_is_update (content : jsstring) :
  Forall (fun c => isWhiteSpace c = true) content ->
  Classifier.categorizePost toLowerCase content = (update, false).
Proof.
  intros H. unfold Classifier.categorizePost. cbv zeta.
  assert (E : trim content = []).
  { unfold trim. rewrite (trimStart_blank content H). reflexivity. }
  rewrite E. reflexivity.
Qed.

(** X15. The classifier script keeps every post's id, content and
    timestamp and replaces its category and curated flag, whatever they
    were before; so classifying a second time changes nothing. *)
Theorem classify_again (posts : list Post) :
  map unlabelled (Classifier.main toLowerCase posts) = map unlabelled posts /\
  Classifier.main toLowerCase (map unlabelled posts)
  = Classifier.main toLowerCase posts /\
  Classifier.main toLowerCase (Classifier.main toLowerCase posts)
  = Classifier.main toLowerCase posts /\
  Forall (fun p => category p <> None /\ curated p <> None /\ exclusive p)
         (Classifier.main toLowerCase posts).
Proof.
  unfold Classifier.main. rewrite !map_map.
  assert (Hshape : forall p,
             exists c k,
               Classifier.categorizePost toLowerCase (content p) = (c, k) /\
               (c, k) <> (update, true) /\
               Classifier.categorize toLowerCase p
               = {| id := id p; content := content p; timestamp := timestamp p;
                    category := Some c; curated := Some k |}).
  { intros p. unfold Classifier.categorize.
    pose proof (classifier_never_curated_update (content p)) as Hx.
    destruct (Classifier.categorizePost toLowerCase (content p)) as [c k].
    exists c, k. auto. }
  split; [| split; [| split]].
  - apply map_ext. intros p. destruct (Hshape p) as (c & k & _ & _ & ->).
    reflexivity.
  - apply map_ext. intros p. reflexivity.
  - apply map_ext. intros p. destruct (Hshape p) as (c & k & E & _ & ->).
    unfold Classifier.categorize. cbn [content id timestamp]. rewrite E.
    reflexivity.
  - rewrite Forall_forall. intros q Hq. apply in_map_iff in Hq.
    destruct Hq as (p & <- & _).
    destruct (Hshape p) as (c & k & _ & Hne & ->).
    cbn [category curated]. split; [discriminate |]. split; [discriminate |].
    intros [[= ->] [= ->]]. apply Hne. reflexivity.
Qed.

End ClassifierFacts.

Lemma long_text_is_curated_thought_witness :
  200 < len (trim (lit MoreSamples.longPlain)) /\
  anyTest Classifier.UPDATE_PATTERNS (trim (lit MoreSamples.longPlain)) = false /\
  anyTest Classifier.THOUGHT_PATTERNS (trim (lit MoreSamples.longPlain)) = false /\
  Classifier.categorizePost asciiLower (lit MoreSamples.longPlain)
  = (thought, true).
Proof.
  assert (H1 : 200 < len (trim (lit MoreSamples.longPlain)))
    by (vm_compute; reflexivity).
  assert (H2 : anyTest Classifier.UPDATE_PATTERNS
                 (trim (lit MoreSamples.longPlain)) = false)
    by (vm_compute; reflexivity).
  split; [exact H1 |]. split; [exact H2 |].
  split; [vm_compute; reflexivity |].
  exact (long_text_is_curated_thought asciiLower _ H1 H2).
Defined.

Lemma curated_needs_reason_witness :
  snd (Classifier.categorizePost asciiLower (lit MoreSamples.potential)) = true /\
  anyTest Classifier.CURATED_INDICATORS (trim (lit MoreSamples.potential)) = true /\
  snd (TwitterImport.categorizePost (lit "I think the key insight is focus"))
  = true /\
  anyTest TwitterImport.CURATED_INDICATORS (lit "I think the key insight is focus")
  = true.
Proof.
  assert (H1 : snd (Classifier.categorizePost asciiLower
                      (lit MoreSamples.potential)) = true)
    by (vm_compute; reflexivity).
  assert (H2 : snd (TwitterImport.categorizePost
                      (lit "I think the key insight is focus")) = true)
    by (vm_compute; reflexivity).
  split; [exact H1 |]. split; [vm_compute; reflexivity |].
  split; [exact H2 |].
  exact (proj2 (proj2 (curated_needs_reason asciiLower _) H2)).
Defined.

(** A tab, a space and a line feed. *)
Lemma blank_is_update_witness :
  Forall (fun c => isWhiteSpace c = true) [9%N; 32%N; 10%N] /\
  Classifier.categorizePost asciiLower [9%N; 32%N; 10%N] = (update, false).
Proof.
  assert (H : Forall (fun c => isWhiteSpace c = true) [9%N; 32%N; 10%N])
    by (repeat constructor).
  split; [exact H | exact (blank_is_update asciiLower _ H)].
Defined.

(** The import classifier does not trim: 201 spaces are a thought. *)
Example import_blank_is_thought :
  TwitterImport.categorizePost (repeat 32%N 201) = (thought, false).
Proof. vm_compute. reflexivity. Qed.

(** ** The paginated read API *)

Lemma firstn_beyond {A : Type} (a b : nat) (l : list A) :
  (List.length l <= a)%nat -> (List.length l <= b)%nat ->
  firstn a l = firstn b l.
Proof. intros Ha Hb. rewrite !firstn_all2; [reflexivity | exact Hb | exact Ha]. Qed.

(** A slice between two indices in order, none negative. *)
Lemma slice_forward {A : Type} (l : list A) (s e : Z) :
  0 <= s <= e ->
  Pages.slice l s e = firstn (Z.to_nat (e - s)) (skipn (Z.to_nat s) l).
Proof.
  intros [Hs He]. unfold Pages.slice. cbv zeta.
  destruct (Z.ltb_spec s 0); [lia |]. destruct (Z.ltb_spec e 0); [lia |].
  set (n := Z.of_nat (List.length l)).
  destruct (Z.le_gt_cases s n) as [Hsn | Hsn].
  - rewrite (Z.min_l s n) by lia.
    destruct (Z.le_gt_cases e n) as [Hen | Hen].
    + rewrite (Z.min_l e n) by lia. reflexivity.
    + rewrite (Z.min_r e n) by lia. apply firstn_beyond;
        rewrite length_skipn; subst n; lia.
  - rewrite (Z.min_r s n) by lia.
    rewrite !skipn_all2 by (subst n; lia). rewrite !firstn_nil. reflexivity.
Qed.

Lemma slice_length {A : Type} (l : list A) (s e : Z) :
  0 <= s -> 0 <= e ->
  List.length (Pages.slice l s e)
  = Z.to_nat (Z.min e (Z.of_nat (List.length l))
              - Z.min s (Z.of_nat (List.length l))).
Proof.
  intros Hs He. unfold Pages.slice. cbv zeta.
  destruct (Z.ltb_spec s 0); [lia |]. destruct (Z.ltb_spec e 0); [lia |].
  rewrite length_firstn, length_skipn. lia.
Qed.

Lemma chunks_concat {A : Type} (size m : nat) :
  forall l : list A,
    (List.length l <= size * m)%nat ->
    List.concat (map (fun i => firstn size (skipn (size * i) l)) (seq 0 m)) = l.
Proof.
  induction m as [|m IH]; intros l Hl.
  - rewrite Nat.mul_0_r in Hl. destruct l; [reflexivity | simpl in Hl; lia].
  - cbn [seq map List.concat]. rewrite Nat.mul_0_r. cbn [skipn].
    rewrite <- seq_shift, map_map.
    transitivity (firstn size l ++ skipn size l); [| apply firstn_skipn].
    f_equal.
    transitivity (List.concat
                    (map (fun i => firstn size (skipn (size * i) (skipn size l)))
                         (seq 0 m)));
      [| apply IH; rewrite length_skipn; lia].
    f_equal. apply map_ext. intros i.
    rewrite skipn_skipn. f_equal. f_equal. lia.
Qed.

Section PagesFacts.

Variable allPosts : list Post.

Let n : Z := Z.of_nat (List.length (Pages.sortedPosts allPosts)).

Lemma GET_posts (k : Z) :
  1 <= k ->
  Pages.posts (Pages.GET allPosts k)
  = firstn 100 (skipn (100 * Z.to_nat (k - 1)) (Pages.sortedPosts allPosts)).
Proof.
  intros Hk. unfold Pages.GET. cbv zeta. cbn [Pages.posts].
  unfold Pages.POSTS_PER_PAGE. rewrite slice_forward by lia.
  f_equal; [lia | f_equal; lia].
Qed.

Lemma GET_nonempty (k : Z) :
  1 <= k ->
  (Pages.posts (Pages.GET allPosts k) <> [] <-> (k - 1) * 100 < n).
Proof.
  intros Hk. rewrite (GET_posts k Hk).
  set (rest := skipn (100 * Z.to_nat (k - 1)) (Pages.sortedPosts allPosts)).
  assert (Hlen : List.length rest
                 = (List.length (Pages.sortedPosts allPosts)
                    - 100 * Z.to_nat (k - 1))%nat)
    by (subst rest; apply length_skipn).
  unfold n in *. split.
  - intros Hne. destruct rest as [|x rest']; [contradiction |].
    simpl in Hlen. lia.
  - intros Hlt. destruct rest as [|x rest']; [simpl in Hlen; lia |]. discriminate.
Qed.

(** X16. The pages of the read API tile the posts: pages 1 to
    [totalPages], in order, concatenate to all posts sorted newest
    first, so no post is missing or repeated; every page holds at most
    100 posts, and a page before the last holds exactly 100. *)
Theorem pages_tile :
  List.concat
    (map (fun i => Pages.posts (Pages.GET allPosts (1 + Z.of_nat i)))
         (seq 0 (Z.to_nat (Pages.totalPages (Pages.GET allPosts 1)))))
  = sortBy byTimeDesc allPosts /\
  (forall k, (List.length (Pages.posts (Pages.GET allPosts k)) <= 100)%nat) /\
  (forall k, 1 <= k < Pages.totalPages (Pages.GET allPosts 1) ->
             List.length (Pages.posts (Pages.GET allPosts k)) = 100%nat).
Proof.
  change (Pages.totalPages (Pages.GET allPosts 1)) with (Pages.ceilPages n).
  assert (Hdiv : 100 * Pages.ceilPages n - 99 <= n <= 100 * Pages.ceilPages n).
  { unfold Pages.ceilPages, Pages.POSTS_PER_PAGE.
    Z.div_mod_to_equations. lia. }
  split; [| split].
  - transitivity
      (List.concat
         (map (fun i => firstn 100 (skipn (100 * i) (Pages.sortedPosts allPosts)))
              (seq 0 (Z.to_nat (Pages.ceilPages n)))));
      [| apply chunks_concat; unfold n, Pages.sortedPosts in *; lia].
    f_equal. apply map_ext. intros i. rewrite GET_posts by lia.
    do 3 f_equal. lia.
  - intros k. unfold Pages.GET, Pages.slice. cbv zeta. cbn [Pages.posts].
    rewrite length_firstn. unfold Pages.POSTS_PER_PAGE.
    destruct (Z.ltb_spec ((k - 1) * 100) 0);
      destruct (Z.ltb_spec ((k - 1) * 100 + 100) 0); lia.
  - intros k Hk. rewrite GET_posts by lia. rewrite length_firstn, length_skipn.
    unfold n in *. lia.
Qed.

(** X17. For a page number from 1 on, [hasMore] is true exactly when the
    next page holds a post, and [getStaticPaths] lists exactly the page
    numbers from 2 on whose page holds a post. *)
Theorem pages_linked (k : Z) :
  1 <= k ->
  (Pages.hasMore (Pages.GET allPosts k) = true
   <-> Pages.posts (Pages.GET allPosts (k + 1)) <> []) /\
  (In k (Pages.getStaticPaths allPosts)
   <-> 2 <= k /\ Pages.posts (Pages.GET allPosts k) <> []).
Proof.
  intros Hk. split.
  - rewrite GET_nonempty by lia. unfold Pages.GET. cbv zeta. cbn [Pages.hasMore].
    fold n. rewrite Z.ltb_lt. unfold Pages.POSTS_PER_PAGE. split; lia.
  - rewrite GET_nonempty by lia.
    unfold Pages.getStaticPaths, Pages.laterPages, Pages.remainingPosts.
    fold n.
    rewrite slice_length by (unfold Pages.POSTS_PER_PAGE; unfold n; lia).
    unfold Pages.ceilPages, Pages.POSTS_PER_PAGE. rewrite in_map_iff.
    fold n.
    set (later := Z.of_nat (Z.to_nat (Z.min n n - Z.min 100 n))).
    assert (Hlater : later = Z.max (n - 100) 0)
      by (subst later; unfold n in *; lia).
    split.
    + intros (i & <- & Hi). apply in_seq in Hi.
      rewrite Hlater in Hi.
      assert (Z.of_nat i < (Z.max (n - 100) 0 + (100 - 1)) / 100) by lia.
      split; [lia |]. Z.div_mod_to_equations. lia.
    + intros [H2 Hlt]. exists (Z.to_nat (k - 2)). split; [lia |].
      apply in_seq. rewrite Hlater.
      assert (k - 2 < (Z.max (n - 100) 0 + (100 - 1)) / 100)
        by (Z.div_mod_to_equations; lia).
      lia.
Qed.

End PagesFacts.

Lemma pages_linked_witness :
  1 <= 1 /\
  Pages.hasMore (Pages.GET MoreSamples.manyPosts 1) = true /\
  Pages.posts (Pages.GET MoreSamples.manyPosts 2) <> [] /\
  Pages.totalPages (Pages.GET MoreSamples.manyPosts 1) = 2 /\
  Pages.getStaticPaths MoreSamples.manyPosts = [2].
Proof.
  assert (H : 1 <= 1) by lia.
  assert (Hm : Pages.hasMore (Pages.GET MoreSamples.manyPosts 1) = true)
    by (vm_compute; reflexivity).
  split; [exact H |]. split; [exact Hm |].
  split; [exact (proj1 (proj1 (pages_linked MoreSamples.manyPosts 1 H)) Hm) |].
  split; vm_compute; reflexivity.
Defined.

(** A page number below 1 is not refused: page -1 of 150 posts is a
    slice counted from the end. *)
Example page_below_one :
  List.length (Pages.posts (Pages.GET MoreSamples.manyPosts (-1))) = 50%nat /\
  Pages.posts (Pages.GET MoreSamples.manyPosts 0) = [].
Proof. vm_compute. split; reflexivity. Qed.

(** ** The posting CLI *)

Lemma trimStart_length (s : jsstring) :
  (List.length (trimStart s) <= List.length s)%nat.
Proof.
  induction s as [|c s IH]; simpl; [lia |].
  destruct (isWhiteSpace c); simpl; lia.
Qed.

(** A text that [trimStart] leaves alone is empty or starts with a code
    unit that is not white space, and conversely. *)
Lemma trimStart_fixed (s : jsstring) :
  trimStart s = s <->
  match s with
  | [] => True
  | c :: _ => isWhiteSpace c = false
  end.
Proof.
  destruct s as [|c s]; simpl; [tauto |].
  destruct (isWhiteSpace c) eqn:E.
  - split; [| discriminate]. intros H.
    pose proof (trimStart_length s) as Hl. rewrite H in Hl. simpl in Hl. lia.
  - tauto.
Qed.

Lemma trimStart_idem (s : jsstring) : trimStart (trimStart s) = trimStart s.
Proof.
  induction s as [|c s IH]; simpl; [reflexivity |].
  destruct (isWhiteSpace c) eqn:E; [exact IH |]. simpl. rewrite E. reflexivity.
Qed.

(** The white space [trimStart] removes, and what it leaves. *)
Lemma trimStart_split (s : jsstring) :
  exists blank, s = blank ++ trimStart s.
Proof.
  induction s as [|c s (blank & IH)]; simpl.
  - exists []. reflexivity.
  - destruct (isWhiteSpace c).
    + exists (c :: blank). simpl. rewrite <- IH. reflexivity.
    + exists []. reflexivity.
Qed.

Lemma trimmedText_trim (s : jsstring) : trimmedText s -> trim s = s.
Proof.
  intros [H1 H2]. unfold trim, trimEnd. rewrite H1, H2. apply rev_involutive.
Qed.

Lemma trim_trimmedText (s : jsstring) : trimmedText (trim s).
Proof.
  unfold trimmedText, trim, trimEnd. rewrite rev_involutive.
  split; [| apply trimStart_idem].
  set (u := trimStart s).
  assert (Hu : trimStart u = u) by apply trimStart_idem.
  destruct (trimStart_split (rev u)) as (blank & Hsplit).
  set (w := trimStart (rev u)) in *.
  assert (Eu : u = rev w ++ rev blank).
  { rewrite <- (rev_involutive u), Hsplit, rev_app_distr. reflexivity. }
  apply trimStart_fixed. apply trimStart_fixed in Hu.
  destruct (rev w) as [|c v] eqn:Ew; [exact I |].
  rewrite Eu in Hu. exact Hu.
Qed.

Lemma ending_last (s : jsstring) (c : char) : Cli.ending (s ++ [c]) = Some c.
Proof.
  induction s as [|d s IH]; [reflexivity |].
  change ((d :: s) ++ [c]) with (d :: (s ++ [c])). cbn [Cli.ending].
  destruct (s ++ [c]) eqn:E; [destruct s; discriminate | exact IH].
Qed.

Lemma trimmedText_snoc (s : jsstring) (c : char) :
  trimmedText s -> isWhiteSpace c = false -> trimmedText (s ++ [c]).
Proof.
  intros [H1 _] Hc. split.
  - apply trimStart_fixed. apply trimStart_fixed in H1.
    destruct s as [|d s]; [exact Hc | exact H1].
  - rewrite rev_app_distr. simpl. rewrite Hc. reflexivity.
Qed.

Lemma ending_spec (s : jsstring) :
  Cli.ending s = match s with
                 | [] => None
                 | _ :: _ => Some (last s 0%N)
                 end.
Proof.
  induction s as [|c s IH]; [reflexivity |].
  destruct s as [|d s]; [reflexivity |].
  change (Cli.ending (c :: d :: s)) with (Cli.ending (d :: s)).
  rewrite IH. reflexivity.
Qed.

Lemma isTerminal_spec (c : char) :
  Cli.isTerminal c = existsb (N.eqb c) [46; 33; 63; 34; 41]%N.
Proof.
  unfold Cli.isTerminal. cbn [existsb].
  destruct (c =? 46)%N, (c =? 33)%N, (c =? 63)%N, (c =? 34)%N, (c =? 41)%N;
    reflexivity.
Qed.

(** X18. The content the CLI stores is the trimmed input, followed by a
    full stop (code unit 46) exactly when the trimmed input is empty or
    its last code unit is none of [.], [!], [?], the double quote and
    [)] (46, 33, 63, 34, 41), and by nothing otherwise.  It always ends
    in one of those five characters, has nothing left to trim, and
    normalising it again changes nothing. *)
Theorem finalContent_normal (content : jsstring) :
  Cli.finalContent content
  = trim content
    ++ match rev (trim content) with
       | [] => [46]
       | c :: _ =>
           if existsb (N.eqb c) [46; 33; 63; 34; 41] then [] else [46]
       end%N /\
  (exists body c,
      Cli.finalContent content = body ++ [c] /\
      In c [46; 33; 63; 34; 41]%N) /\
  (exists c, Cli.ending (Cli.finalContent content) = Some c /\
             Cli.isTerminal c = true) /\
  trim (Cli.finalContent content) = Cli.finalContent content /\
  Cli.finalContent (Cli.finalContent content) = Cli.finalContent content.
Proof.
  assert (Hlast : forall (s : jsstring) c, Cli.ending s = Some c ->
                                           exists body, s = body ++ [c]).
  { intros s c E. rewrite ending_spec in E.
    destruct s as [|d s]; [discriminate |]. injection E as <-.
    exists (removelast (d :: s)).
    assert (Hne : d :: s <> []) by discriminate.
    exact (app_removelast_last 0%N Hne). }
  assert (Hshape : (exists c, Cli.ending (Cli.finalContent content) = Some c /\
                              Cli.isTerminal c = true) /\
                   trimmedText (Cli.finalContent content)).
  { unfold Cli.finalContent. cbv zeta.
    pose proof (trim_trimmedText content) as Ht.
    destruct (Cli.ending (trim content)) as [c|] eqn:E.
    - destruct (Cli.isTerminal c) eqn:T; cbn [negb].
      + split; [exists c; auto | exact Ht].
      + split; [exists 46%N; split; [apply ending_last | reflexivity] |].
        apply trimmedText_snoc; [exact Ht | reflexivity].
    - split; [exists 46%N; split; [apply ending_last | reflexivity] |].
      apply trimmedText_snoc; [exact Ht | reflexivity]. }
  destruct Hshape as ((c & Hc & Ht) & H3).
  split; [| split; [| split; [exists c; auto |]]].
  - unfold Cli.finalContent. cbv zeta.
    destruct (Cli.ending (trim content)) as [d|] eqn:E.
    + destruct (Hlast _ _ E) as (body & Eb). rewrite Eb.
      rewrite rev_app_distr. cbn [rev app]. rewrite <- isTerminal_spec.
      destruct (Cli.isTerminal d); cbn [negb];
        [rewrite app_nil_r |]; reflexivity.
    + rewrite ending_spec in E.
      destruct (trim content); [reflexivity | discriminate].
  - destruct (Hlast _ _ Hc) as (body & Eb). exists body, c.
    split; [exact Eb |].
    rewrite isTerminal_spec in Ht. apply existsb_exists in Ht.
    destruct Ht as (t & Hin & Et). apply N.eqb_eq in Et. subst t. exact Hin.
  - pose proof (trimmedText_trim _ H3) as Htrim.
    split; [exact Htrim |].
    unfold Cli.finalContent at 1. cbv zeta. rewrite Htrim, Hc, Ht. reflexivity.
Qed.

Example finalContent_samples :
  Cli.finalContent (lit "  Shipped new feature ") = lit "Shipped new feature." /\
  Cli.finalContent (lit "Done!") = lit "Done!" /\
  Cli.finalContent (lit " Really? ") = lit "Really?" /\
  Cli.finalContent (lit "Fixed it (again)") = lit "Fixed it (again)" /\
  Cli.finalContent (lit "Shipped.") = lit "Shipped." /\
  Cli.finalContent (lit "one, two,") = lit "one, two,." /\
  Cli.finalContent (lit "   ") = lit ".".
Proof. vm_compute. repeat split; reflexivity. Qed.

(** ** The hosted posting endpoint *)

Lemma sameText_spec (s t : jsstring) : Endpoint.sameText s t = true <-> s = t.
Proof.
  revert t. induction s as [|c s IH]; intros [|d t]; simpl;
    try (split; [discriminate | discriminate]); [tauto |].
  rewrite andb_true_iff, N.eqb_eq, IH. split.
  - intros [-> ->]. reflexivity.
  - intros [= -> ->]. auto.
Qed.

Lemma differs_spec (a b : option jsstring) :
  Endpoint.differs a b = false <-> a = b.
Proof.
  destruct a as [s|], b as [t|]; simpl;
    try (split; [discriminate | discriminate]); [| tauto].
  rewrite negb_false_iff, sameText_spec. split; [intros ->; reflexivity |].
  intros [= ->]. reflexivity.
Qed.

Section EndpointFacts.

Variables (env : Endpoint.Env) (method : Endpoint.Method)
          (body : option Endpoint.PostRequest)
          (newId : string) (now : Z)
          (fetched : Endpoint.Fetched) (put : Endpoint.PutOutcome).

Let result : Endpoint.Result :=
  Endpoint.handler env method body newId now fetched put.

(** X19. The endpoint sends a new [posts.json] to GitHub only for a
    POST whose body parses, whose password equals the configured one
    (both may be absent), whose content is not blank, with a token
    configured and the current file read; what it sends is the current
    posts behind one new post that carries the trimmed content, the
    requested category or "update", and the requested curated flag or
    false. *)
Theorem endpoint_write_guarded (written : list Post) :
  Endpoint.sent result = Some written ->
  method = Endpoint.POST /\
  exists request text current,
    body = Some request /\
    Endpoint.reqPassword request = Endpoint.POST_PASSWORD env /\
    Endpoint.reqContent request = Some text /\
    trim text <> [] /\
    Endpoint.falsy (Endpoint.GITHUB_TOKEN env) = false /\
    fetched = Endpoint.FetchedPosts current /\
    written =
      {| id := newId;
         content := trim text;
         timestamp := now;
         category := Some (match Endpoint.reqCategory request with
                           | Some c => c
                           | None => update
                           end);
         curated := Some (match Endpoint.reqCurated request with
                          | Some true => true
                          | _ => false
                          end) |} :: current.
Proof.
  subst result. unfold Endpoint.handler.
  destruct method; try discriminate.
  destruct body as [request|]; [| discriminate].
  destruct (Endpoint.differs _ _) eqn:D; [discriminate |].
  apply differs_spec in D.
  destruct (Endpoint.reqContent request) as [text|] eqn:C; [| discriminate].
  destruct (Endpoint.falsy (Some text) || _) eqn:B; [discriminate |].
  destruct (Endpoint.falsy (Endpoint.GITHUB_TOKEN env)) eqn:T; [discriminate |].
  destruct fetched as [| | current]; try discriminate.
  apply orb_false_elim in B. destruct B as [_ B].
  apply Z.eqb_neq in B.
  assert (Hne : trim text <> []) by (intros E; rewrite E in B; apply B; reflexivity).
  intros Hsent. split; [reflexivity |].
  exists request, text, current.
  repeat (split; [first [reflexivity | assumption] |]).
  destruct put; injection Hsent as <-; reflexivity.
Qed.

(** X20. The endpoint answers 200 exactly when the [PUT] was answered
    ok; 401 exactly for a POST whose body parses and whose password
    differs from the configured one, whatever the content; 400 exactly
    for a POST with the right password and a missing or blank content.
    Once a file has been handed to the [PUT], the answer is 200 when it
    is accepted, 500 "Failed to save post" when it is refused, and 500
    "Internal server error" when the call throws. *)
Theorem endpoint_status :
  (Endpoint.statusCode result = 200 <-> Endpoint.saved result = true) /\
  (Endpoint.saved result = true ->
   Endpoint.sent result <> None /\ put = Endpoint.PutAccepted) /\
  (Endpoint.statusCode result = 401 <->
   method = Endpoint.POST /\
   exists request,
     body = Some request /\
     Endpoint.reqPassword request <> Endpoint.POST_PASSWORD env) /\
  (Endpoint.statusCode result = 400 <->
   method = Endpoint.POST /\
   exists request,
     body = Some request /\
     Endpoint.reqPassword request = Endpoint.POST_PASSWORD env /\
     (Endpoint.falsy (Endpoint.reqContent request) = true \/
      exists text, Endpoint.reqContent request = Some text /\ trim text = [])) /\
  (Endpoint.sent result <> None ->
   (Endpoint.statusCode result, Endpoint.error result)
   = match put with
     | Endpoint.PutAccepted => (200, None)
     | Endpoint.PutRefused => (500, Some "Failed to save post"%string)
     | Endpoint.PutThrew => (500, Some "Internal server error"%string)
     end).
Proof.
  subst result. unfold Endpoint.handler.
  assert (Hblank : forall text : jsstring,
             (len (trim text) =? 0) = true <-> trim text = []).
  { intros text. rewrite Z.eqb_eq. unfold len.
    destruct (trim text); simpl; split; (discriminate || reflexivity || lia). }
  destruct method;
    try (cbn; repeat split; try discriminate; try tauto;
         intros [H _]; discriminate).
  destruct body as [request|];
    [| cbn; repeat split; try discriminate; try tauto;
       intros (_ & r & H & _); discriminate].
  destruct (Endpoint.differs _ _) eqn:D.
  { assert (Hd : Endpoint.reqPassword request <> Endpoint.POST_PASSWORD env).
    { intros E. apply differs_spec in E. congruence. }
    cbn. repeat split; try discriminate; try tauto.
    - exists request. auto.
    - intros (_ & r & [= <-] & E & _). contradiction. }
  apply differs_spec in D.
  destruct (Endpoint.falsy (Endpoint.reqContent request)
            || (len (trim match Endpoint.reqContent request with
                          | Some c => c
                          | None => []
                          end) =? 0)) eqn:B.
  { cbn. repeat split; try discriminate; try tauto.
    - intros (_ & r & [= <-] & E). contradiction.
    - exists request. split; [reflexivity |]. split; [exact D |].
      apply orb_prop in B. destruct B as [B | B]; [left; exact B |].
      destruct (Endpoint.reqContent request) as [text|]; [| left; reflexivity].
      right. exists text. split; [reflexivity | apply Hblank, B]. }
  assert (Hnot400 :
            ~ (Endpoint.falsy (Endpoint.reqContent request) = true \/
               exists text, Endpoint.reqContent request = Some text /\
                            trim text = [])).
  { apply orb_false_elim in B. destruct B as [B1 B2].
    intros [H | (text & E & H)]; [congruence |].
    rewrite E in B2. apply Hblank in H. congruence. }
  assert (Hrest : forall r : Endpoint.Result,
             Endpoint.statusCode r <> 401 -> Endpoint.statusCode r <> 400 ->
             (Endpoint.statusCode r = 200 <-> Endpoint.saved r = true) ->
             (Endpoint.saved r = true ->
              Endpoint.sent r <> None /\ put = Endpoint.PutAccepted) ->
             (Endpoint.sent r <> None ->
              (Endpoint.statusCode r, Endpoint.error r)
              = match put with
                | Endpoint.PutAccepted => (200, None)
                | Endpoint.PutRefused => (500, Some "Failed to save post"%string)
                | Endpoint.PutThrew => (500, Some "Internal server error"%string)
                end) ->
             (Endpoint.statusCode r = 200 <-> Endpoint.saved r = true) /\
             (Endpoint.saved r = true ->
              Endpoint.sent r <> None /\ put = Endpoint.PutAccepted) /\
             (Endpoint.statusCode r = 401 <->
              Endpoint.POST = Endpoint.POST /\
              exists request0,
                Some request = Some request0 /\
                Endpoint.reqPassword request0 <> Endpoint.POST_PASSWORD env) /\
             (Endpoint.statusCode r = 400 <->
              Endpoint.POST = Endpoint.POST /\
              exists request0,
                Some request = Some request0 /\
                Endpoint.reqPassword request0 = Endpoint.POST_PASSWORD env /\
                (Endpoint.falsy (Endpoint.reqContent request0) = true \/
                 exists text, Endpoint.reqContent request0 = Some text /\
                              trim text = [])) /\
             (Endpoint.sent r <> None ->
              (Endpoint.statusCode r, Endpoint.error r)
              = match put with
                | Endpoint.PutAccepted => (200, None)
                | Endpoint.PutRefused => (500, Some "Failed to save post"%string)
                | Endpoint.PutThrew => (500, Some "Internal server error"%string)
                end)).
  { intros r H401 H400 H200 Hsaved Hsent.
    split; [exact H200 |]. split; [exact Hsaved |]. split; [| split; [| exact Hsent]].
    - split; [intros E; contradiction |].
      intros (_ & r0 & [= <-] & E). contradiction.
    - split; [intros E; contradiction |].
      intros (_ & r0 & [= <-] & _ & E). contradiction. }
  destruct (Endpoint.falsy (Endpoint.GITHUB_TOKEN env));
    [apply Hrest; cbn; try discriminate; try tauto;
     split; discriminate |].
  destruct fetched as [| | current];
    try (apply Hrest; cbn; try discriminate; try tauto; split; discriminate).
  destruct put; apply Hrest; cbn; try discriminate; try tauto;
    try (split; discriminate); try (split; [discriminate | reflexivity]);
    auto.
Qed.

End EndpointFacts.

Lemma endpoint_write_guarded_witness :
  Endpoint.sent
    (Endpoint.handler MoreSamples.env Endpoint.POST (Some MoreSamples.request)
                      "post-1" 5000 (Endpoint.FetchedPosts [Samples.n1])
                      Endpoint.PutAccepted)
  = Some [ {| id := "post-1"; content := lit "Shipped the importer.";
              timestamp := 5000; category := Some update;
              curated := Some true |};
           Samples.n1 ] /\
  Endpoint.reqPassword MoreSamples.request
  = Endpoint.POST_PASSWORD MoreSamples.env.
Proof.
  assert (H : Endpoint.sent
                (Endpoint.handler MoreSamples.env Endpoint.POST
                   (Some MoreSamples.request) "post-1" 5000
                   (Endpoint.FetchedPosts [Samples.n1]) Endpoint.PutAccepted)
              = Some [ {| id := "post-1"; content := lit "Shipped the importer.";
                          timestamp := 5000; category := Some update;
                          curated := Some true |};
                       Samples.n1 ])
    by (vm_compute; reflexivity).
  split; [exact H |].
  destruct (endpoint_write_guarded _ _ _ _ _ _ _ _ H)
    as (_ & r & text & current & [= <-] & Hp & _).
  exact Hp.
Defined.

(** With no password configured, a request that sends none passes the
    password check. *)
Example endpoint_no_password_configured :
  Endpoint.statusCode
    (Endpoint.handler
       {| Endpoint.POST_PASSWORD := None;
          Endpoint.GITHUB_TOKEN := Some (lit "token") |}
       Endpoint.POST
       (Some {| Endpoint.reqContent := Some (lit "Hello");
                Endpoint.reqCategory := None;
                Endpoint.reqPassword := None;
                Endpoint.reqCurated := None |})
       "post-2" 6000 (Endpoint.FetchedPosts []) Endpoint.PutAccepted)
  = 200.
Proof. reflexivity. Qed.

(** ** The pending-posts store *)

Lemma filter_length_eq {A : Type} (f : A -> bool) (l : list A) :
  List.length (filter f l) = List.length l -> filter f l = l.
Proof.
  induction l as [|a l IH]; simpl; [reflexivity |].
  pose proof (filter_length_le f l) as Hle.
  destruct (f a); simpl; intros H.
  - f_equal. apply IH. lia.
  - lia.
Qed.

Lemma filter_filter_impl {A : Type} (f g : A -> bool) (l : list A) :
  (forall a, g a = true -> f a = true) ->
  filter g (filter f l) = filter g l.
Proof.
  intros H. induction l as [|a l IH]; simpl; [reflexivity |].
  destruct (f a) eqn:F; simpl.
  - rewrite IH. reflexivity.
  - destruct (g a) eqn:G; [rewrite (H a G) in F; discriminate | exact IH].
Qed.

(** The store a [GET] leaves behind holds what the [GET] listed. *)
Lemma pending_get_shape (now : Z) (body : option Pending.PendingPost)
  (store : Pending.Store) :
  exists r,
    Pending.handler now Pending.GET body store = Some r /\
    Pending.statusCode r = 200 /\
    Pending.listed r = Some (filter (Pending.isFresh now) (Pending.read store)) /\
    Pending.read (Pending.store' r)
    = filter (Pending.isFresh now) (Pending.read store).
Proof.
  unfold Pending.handler. cbv zeta. eexists. split; [reflexivity |].
  cbn [Pending.statusCode Pending.listed Pending.store'].
  split; [reflexivity |]. split; [reflexivity |].
  destruct (Nat.eqb_spec
              (List.length (filter (Pending.isFresh now) (Pending.read store)))
              (List.length (Pending.read store))) as [E | E].
  - symmetry. apply filter_length_eq, E.
  - reflexivity.
Qed.

(** X21. A [GET] of the pending store lists, in stored order, exactly
    the stored posts written less than ten minutes before, each with a
    date that parses, and leaves the store holding exactly those; a
    second [GET] at the same time lists the same posts and leaves the
    store as it was. *)
Theorem pending_get (now : Z) (body : option Pending.PendingPost)
  (store : Pending.Store) :
  exists r,
    Pending.handler now Pending.GET body store = Some r /\
    Pending.statusCode r = 200 /\
    Pending.listed r = Some (filter (Pending.isFresh now) (Pending.read store)) /\
    Pending.read (Pending.store' r)
    = filter (Pending.isFresh now) (Pending.read store) /\
    (forall p, In p (filter (Pending.isFresh now) (Pending.read store)) ->
               exists t, Pending.pTimestamp p = Some t /\ now - t < 10 * 60 * 1000) /\
    Pending.handler now Pending.GET body (Pending.store' r)
    = Some {| Pending.statusCode := 200;
              Pending.listed := Pending.listed r;
              Pending.store' := Pending.store' r |}.
Proof.
  destruct (pending_get_shape now body store) as (r & Hr & Hs & Hl & Hst).
  exists r. repeat (split; [assumption |]). split.
  - intros p Hp. apply filter_In in Hp. destruct Hp as [_ Hf].
    unfold Pending.isFresh in Hf.
    destruct (Pending.pTimestamp p) as [t|]; [| discriminate].
    exists t. split; [reflexivity |]. apply Z.ltb_lt in Hf. exact Hf.
  - unfold Pending.handler. cbv zeta. rewrite Hst, Hl.
    assert (E : filter (Pending.isFresh now)
                       (filter (Pending.isFresh now) (Pending.read store))
                = filter (Pending.isFresh now) (Pending.read store))
      by (apply filter_filter_impl; auto).
    rewrite E, Nat.eqb_refl. reflexivity.
Qed.

(** X22. Pending posts only expire: after a [GET] at some time, a [GET]
    at the same or a later time lists what it would have listed without
    the first. *)
Theorem pending_expiry (now later : Z) (body : option Pending.PendingPost)
  (store : Pending.Store) :
  now <= later ->
  exists r r1 r2,
    Pending.handler now Pending.GET body store = Some r /\
    Pending.handler later Pending.GET body (Pending.store' r) = Some r1 /\
    Pending.handler later Pending.GET body store = Some r2 /\
    Pending.listed r1 = Pending.listed r2 /\
    Pending.read (Pending.store' r1) = Pending.read (Pending.store' r2).
Proof.
  intros Hle.
  destruct (pending_get_shape now body store) as (r & Hr & _ & _ & Hst).
  destruct (pending_get_shape later body (Pending.store' r))
    as (r1 & Hr1 & _ & Hl1 & Hst1).
  destruct (pending_get_shape later body store) as (r2 & Hr2 & _ & Hl2 & Hst2).
  exists r, r1, r2. repeat (split; [assumption |]).
  assert (E : filter (Pending.isFresh later) (Pending.read (Pending.store' r))
              = filter (Pending.isFresh later) (Pending.read store)).
  { rewrite Hst. apply filter_filter_impl. intros p.
    unfold Pending.isFresh, Pending.MAX_AGE_MS.
    destruct (Pending.pTimestamp p); [| discriminate].
    rewrite !Z.ltb_lt. lia. }
  rewrite Hl1, Hl2, Hst1, Hst2, E. split; reflexivity.
Qed.

(** X23. A [POST] of a pending post with a non-empty id and content
    puts it first in the store; from then on a [GET] lists it first as
    long as it is less than ten minutes old, and never if its date does
    not parse.  A [POST] whose body lacks an id or a content, or has
    them empty, is answered 400 and leaves the store as it was. *)
Theorem pending_post (time : Z) (post : Pending.PendingPost)
  (store : Pending.Store) :
  (Pending.truthyText (Pending.pContent post) = true ->
   Pending.truthyString (Pending.pId post) = true ->
   Pending.handler time Pending.POST (Some post) store
   = Some {| Pending.statusCode := 200; Pending.listed := None;
             Pending.store' := Some (post :: Pending.read store) |} /\
   forall now body,
     exists r,
       Pending.handler now Pending.GET body (Some (post :: Pending.read store))
       = Some r /\
       Pending.listed r
       = Some ((if Pending.isFresh now post then [post] else [])
               ++ filter (Pending.isFresh now) (Pending.read store)) /\
       (Pending.pTimestamp post = None ->
        Pending.listed r = Some (filter (Pending.isFresh now) (Pending.read store)))) /\
  (Pending.truthyText (Pending.pContent post) = false \/
   Pending.truthyString (Pending.pId post) = false ->
   Pending.handler time Pending.POST (Some post) store
   = Some {| Pending.statusCode := 400; Pending.listed := None;
             Pending.store' := store |}).
Proof.
  split.
  - intros Hc Hi. split.
    + unfold Pending.handler. rewrite Hc, Hi. reflexivity.
    + intros now body.
      destruct (pending_get_shape now body (Some (post :: Pending.read store)))
        as (r & Hr & _ & Hl & _).
      exists r. split; [exact Hr |]. cbn [Pending.read filter] in Hl.
      split.
      * rewrite Hl. destruct (Pending.isFresh now post); reflexivity.
      * intros Hnone. rewrite Hl. unfold Pending.isFresh at 1.
        rewrite Hnone. reflexivity.
  - intros H. unfold Pending.handler.
    destruct H as [-> | ->]; [reflexivity |].
    rewrite orb_true_r. reflexivity.
Qed.

Lemma pending_expiry_witness :
  600500 <= 700000 /\
  option_map Pending.listed
    (Pending.handler 600500 Pending.GET None
       (Some [MoreSamples.pendingNew; MoreSamples.pendingOld;
              MoreSamples.pendingUndated]))
  = Some (Some [MoreSamples.pendingNew; MoreSamples.pendingOld]) /\
  option_map Pending.listed
    (Pending.handler 700000 Pending.GET None
       (Some [MoreSamples.pendingNew; MoreSamples.pendingOld;
              MoreSamples.pendingUndated]))
  = Some (Some [MoreSamples.pendingNew]) /\
  exists r r1 r2,
    Pending.handler 600500 Pending.GET None
      (Some [MoreSamples.pendingNew; MoreSamples.pendingOld;
             MoreSamples.pendingUndated]) = Some r /\
    Pending.handler 700000 Pending.GET None (Pending.store' r) = Some r1 /\
    Pending.handler 700000 Pending.GET None
      (Some [MoreSamples.pendingNew; MoreSamples.pendingOld;
             MoreSamples.pendingUndated]) = Some r2 /\
    Pending.listed r1 = Pending.listed r2.
Proof.
  assert (H : 600500 <= 700000) by lia.
  split; [exact H |]. split; [reflexivity |]. split; [reflexivity |].
  destruct (pending_expiry 600500 700000 None
              (Some [MoreSamples.pendingNew; MoreSamples.pendingOld;
                     MoreSamples.pendingUndated]) H)
    as (r & r1 & r2 & H0 & H1 & H2 & H3 & _).
  exists r, r1, r2. auto.
Defined.

Lemma pending_post_witness :
  Pending.truthyText (Pending.pContent MoreSamples.pendingNew) = true /\
  Pending.truthyString (Pending.pId MoreSamples.pendingNew) = true /\
  Pending.handler 500000 Pending.POST (Some MoreSamples.pendingNew)
                  (Some [MoreSamples.pendingOld])
  = Some {| Pending.statusCode := 200; Pending.listed := None;
            Pending.store' := Some [MoreSamples.pendingNew;
                                    MoreSamples.pendingOld] |} /\
  (Pending.truthyText (Pending.pContent MoreSamples.pendingUndated) = false \/
   Pending.truthyString
     (Pending.pId {| Pending.pId := Some ""; Pending.pContent := Some (lit "x");
                     Pending.pTimestamp := None; Pending.pCategory := None;
                     Pending.pCurated := None |}) = false).
Proof.
  assert (H1 : Pending.truthyText (Pending.pContent MoreSamples.pendingNew) = true)
    by reflexivity.
  assert (H2 : Pending.truthyString (Pending.pId MoreSamples.pendingNew) = true)
    by reflexivity.
  split; [exact H1 |]. split; [exact H2 |]. split.
  - exact (proj1 ((proj1 (pending_post 500000 MoreSamples.pendingNew
                            (Some [MoreSamples.pendingOld]))) H1 H2)).
  - right. reflexivity.
Defined.

(** ** Standalone updates and the import classifier *)

Lemma matches_seqOf_app (l1 l2 : list regex) :
  forall s, matches (seqOf (l1 ++ l2)) s ->
            exists a b, s = a ++ b /\ matches (seqOf l1) a /\ matches (seqOf l2) b.
Proof.
  induction l1 as [|r l1 IH]; intros s H.
  - exists [], s. split; [reflexivity |]. split; [constructor | exact H].
  - destruct l1 as [|r' l1].
    + destruct l2 as [|q l2].
      * exists s, []. split; [symmetry; apply app_nil_r |].
        split; [exact H | constructor].
      * change (seqOf ([r] ++ q :: l2)) with (Seq r (seqOf (q :: l2))) in H.
        inversion H as [| | ? ? a b Ha Hb | | | |]; subst.
        exists a, b. auto.
    + change (seqOf ((r :: r' :: l1) ++ l2))
        with (Seq r (seqOf ((r' :: l1) ++ l2))) in H.
      inversion H as [| | ? ? a b Ha Hb | | | |]; subst.
      destruct (IH b Hb) as (b1 & b2 & -> & H1 & H2).
      exists (a ++ b1), b2. split; [apply app_assoc |].
      split; [| exact H2].
      change (seqOf (r :: r' :: l1)) with (Seq r (seqOf (r' :: l1))).
      constructor; assumption.
Qed.

(** An anchored pattern still matches when only a first part of it is
    kept. *)
Lemma anchor_prefix (l1 l2 : list regex) (s : jsstring) :
  test (anchor (l1 ++ l2)) s = true -> test (anchor l1) s = true.
Proof.
  unfold test, anchor. cbn [anchored body]. rewrite !matchPrefix_spec.
  intros (s1 & s2 & -> & H).
  destruct (matches_seqOf_app l1 l2 s1 H) as (a & b & -> & Ha & _).
  exists a, (b ++ s2). split; [symmetry; apply app_assoc | exact Ha].
Qed.

(** [/^text/i] for a longer text implies [/^text/i] for its beginning. *)
Lemma startsI_prefix (w1 w2 : string) (rest : list regex) (s : jsstring) :
  test (anchor (seqOf (map chI (lit w1) ++ map chI (lit w2)) :: rest)) s = true ->
  test (startsI w1) s = true.
Proof.
  intros H.
  apply (anchor_prefix [seqOf (map chI (lit w1) ++ map chI (lit w2))] rest) in H.
  unfold test, anchor, startsI, ci in *. cbn [anchored body seqOf] in *.
  apply matchPrefix_spec in H. apply matchPrefix_spec.
  destruct H as (s1 & s2 & -> & H).
  destruct (matches_seqOf_app _ _ s1 H) as (a & b & -> & Ha & _).
  exists a, (b ++ s2). split; [symmetry; apply app_assoc | exact Ha].
Qed.

(** An anchored match is a match anywhere. *)
Lemma anchor_anywhere (rs : list regex) (s : jsstring) :
  test (anchor rs) s = true -> test (anywhere rs) s = true.
Proof.
  unfold test, anchor, anywhere. cbn [anchored body]. intros H.
  destruct s; simpl in *; rewrite H; reflexivity.
Qed.

Lemma anyTest_In (patterns : list pattern) (p : pattern) (s : jsstring) :
  In p patterns -> test p s = true -> anyTest patterns s = true.
Proof.
  intros Hin Ht. apply existsb_exists. exists p. auto.
Qed.

Ltac pick_pattern :=
  repeat (first [left; reflexivity | right]).

(** X24. Every content that matches a standalone-update pattern of the
    pattern-based merge script matches an update pattern of the Twitter
    import classifier; so the import classifies it an update, unless it
    also matches a thought pattern and is longer than 150 code units. *)
Theorem standalone_is_import_update (content : jsstring) :
  RuleMerge.isStandaloneUpdate content = true ->
  anyTest TwitterImport.UPDATE_PATTERNS content = true /\
  fst (TwitterImport.categorizePost content)
  = if anyTest TwitterImport.THOUGHT_PATTERNS content && (150 <? len content)
    then thought else update.
Proof.
  intros H.
  assert (Hup : anyTest TwitterImport.UPDATE_PATTERNS content = true).
  { unfold RuleMerge.isStandaloneUpdate, anyTest in H.
    apply existsb_exists in H. destruct H as (p & Hin & Ht).
    unfold RuleMerge.STANDALONE_UPDATE_PATTERNS in Hin.
    repeat (destruct Hin as [<- | Hin]); [.. | contradiction].
    - apply (anyTest_In _ (startsI "completed")); [pick_pattern |].
      exact (startsI_prefix "completed" " " [] content Ht).
    - apply (anyTest_In _ (startsI "recorded")); [pick_pattern |].
      exact (startsI_prefix "recorded" " " [plus digit; ci " roasts"] content Ht).
    - apply (anyTest_In _ (startsI "sent")); [pick_pattern |].
      exact (startsI_prefix "sent" " " [plus digit; ci " "] content Ht).
    - apply (anyTest_In _ (startsI "hosted")); [pick_pattern |].
      exact (startsI_prefix "hosted" " " [] content Ht).
    - apply (anyTest_In _ (startsI "crushed")); [pick_pattern |].
      exact (startsI_prefix "crushed" " " [] content Ht).
    - apply (anyTest_In _ (hasI "gym")); [pick_pattern |].
      exact (anchor_anywhere [ci "gym"] content Ht).
    - apply (anyTest_In _ (startsI "1:1 with")); [pick_pattern | exact Ht].
    - apply (anyTest_In _ (startsI "paid")); [pick_pattern |].
      exact (startsI_prefix "paid" " " [] content Ht).
    - apply (anyTest_In _ (startsI "reviewed")); [pick_pattern |].
      exact (startsI_prefix "reviewed" " " [] content Ht).
    - apply (anyTest_In _ (startsI "cancelled")); [pick_pattern |].
      exact (startsI_prefix "cancelled" " " [] content Ht).
    - apply (anyTest_In _ (startsI "purchased")); [pick_pattern |].
      exact (startsI_prefix "purchased" " " [] content Ht).
    - apply (anyTest_In _ (hasI "leg day")); [pick_pattern |].
      exact (anchor_anywhere [ci "leg day"] content Ht).
    - apply (anyTest_In _ (hasI "chest day")); [pick_pattern |].
      exact (anchor_anywhere [ci "chest day"] content Ht).
    - apply (anyTest_In _ (hasI "back day")); [pick_pattern |].
      exact (anchor_anywhere [ci "back day"] content Ht).
    - apply (anyTest_In _ (hasI "arm day")); [pick_pattern |].
      exact (anchor_anywhere [ci "arm day"] content Ht). }
  split; [exact Hup |].
  unfold TwitterImport.categorizePost. cbv zeta. rewrite Hup.
  destruct (anyTest TwitterImport.THOUGHT_PATTERNS content);
    destruct (150 <? len content); reflexivity.
Qed.

Lemma standalone_is_import_update_witness :
  RuleMerge.isStandaloneUpdate (lit "Gym, then recorded 3 roasts") = true /\
  anyTest TwitterImport.UPDATE_PATTERNS (lit "Gym, then recorded 3 roasts") = true /\
  TwitterImport.categorizePost (lit "Gym, then recorded 3 roasts") = (update, false).
Proof.
  assert (H : RuleMerge.isStandaloneUpdate (lit "Gym, then recorded 3 roasts") = true)
    by (vm_compute; reflexivity).
  split; [exact H |].
  split; [exact (proj1 (standalone_is_import_update _ H)) |].
  vm_compute. reflexivity.
Defined.
